(** * Slacker: a notification sender with an on-disk dedup record

    A shallow embedding of [slacker.go] and a verification of its
    specification.  The program posts a message to a Slack web hook for every
    configured recipient and remembers, in a JSON file, a key derived from the
    clock, the tag and the message, so that the same message is sent at most
    once per hour or per day.

    The embedding follows the Go source function by function.  Go strings are
    byte strings ([string], one [ascii] per byte); the [map[string]string]
    held in the database file is a [gmap string string]; [int] fields are [Z].
    The operating system (files with an offset per open handle), the HTTP end
    point, the clock and the logger are the components of an explicit
    [World] that every effectful function threads through.

    The packages the program imports are modelled as far as the program uses
    them: [unicode/utf8] and [unicode/utf16] rune coding, the [encoding/json]
    encoder and decoder at the type [map[string]string], [os] files and
    [time.Format] for the two layouts of [getHash]. *)

From Stdlib Require Import ZArith Ascii String Lia.
From stdpp Require Import base tactics option list gmap strings sorting pretty.

#[local] Open Scope Z_scope.

(** ** Bytes *)

Module Octet.

(** The value of a byte, as Go's [int(b)]. *)
Definition val (c : ascii) : Z := Z.of_N (N_of_ascii c).

(** Go's conversion [byte(x)]: the low eight bits. *)
Definition of_Z (x : Z) : ascii := ascii_of_N (Z.to_N (x mod 256)).

End Octet.

(** String helpers in the style of Go's slices: [s[n:]] and [s[:n]]. *)
Fixpoint skipn_string (n : nat) (s : string) : string :=
  match n, s with
  | O, _ => s
  | S _, EmptyString => EmptyString
  | S k, String _ r => skipn_string k r
  end.

Fixpoint firstn_string (n : nat) (s : string) : string :=
  match n, s with
  | O, _ => EmptyString
  | S _, EmptyString => EmptyString
  | S k, String c r => String c (firstn_string k r)
  end.

(** ** unicode/utf8 and unicode/utf16 *)

Module utf8.

Definition RuneError : Z := 0xFFFD.

Definition RuneSelf : Z := 0x80.

Definition MaxRune : Z := 0x10FFFF.

Definition surrogateMin : Z := 0xD800.

Definition surrogateMax : Z := 0xDFFF.

(** The table [first] together with [acceptRanges]: for a leading byte, the
    length of the sequence and the range accepted for the second byte.
    [None] stands for the entries [xx] (invalid leading byte). *)
Definition first (b : Z) : option (nat * (Z * Z)) :=
  if (0xC2 <=? b) && (b <=? 0xDF) then Some (2%nat, (0x80, 0xBF))
  else if b =? 0xE0 then Some (3%nat, (0xA0, 0xBF))
  else if (0xE1 <=? b) && (b <=? 0xEC) then Some (3%nat, (0x80, 0xBF))
  else if b =? 0xED then Some (3%nat, (0x80, 0x9F))
  else if (0xEE <=? b) && (b <=? 0xEF) then Some (3%nat, (0x80, 0xBF))
  else if b =? 0xF0 then Some (4%nat, (0x90, 0xBF))
  else if (0xF1 <=? b) && (b <=? 0xF3) then Some (4%nat, (0x80, 0xBF))
  else if b =? 0xF4 then Some (4%nat, (0x80, 0x8F))
  else None.

(** A continuation byte lies between [locb] and [hicb]. *)
Definition cont (b : Z) : bool := (0x80 <=? b) && (b <=? 0xBF).

(** [DecodeRuneInString]: the first rune of [s] and its width in bytes.  An
    invalid or truncated sequence gives [(RuneError, 1)]; the empty string
    gives [(RuneError, 0)]. *)
Definition DecodeRune (s : string) : Z * nat :=
  match s with
  | EmptyString => (RuneError, 0%nat)
  | String c0 r0 =>
    let s0 := Octet.val c0 in
    if s0 <? RuneSelf then (s0, 1%nat)
    else
      match first s0 with
      | None => (RuneError, 1%nat)
      | Some (sz, (lo, hi)) =>
        match r0 with
        | EmptyString => (RuneError, 1%nat)
        | String c1 r1 =>
          let s1 := Octet.val c1 in
          if (s1 <? lo) || (hi <? s1) then (RuneError, 1%nat)
          else if (sz <=? 2)%nat then
            (Z.lor (Z.shiftl (Z.land s0 0x1F) 6) (Z.land s1 0x3F), 2%nat)
          else
            match r1 with
            | EmptyString => (RuneError, 1%nat)
            | String c2 r2 =>
              let s2 := Octet.val c2 in
              if negb (cont s2) then (RuneError, 1%nat)
              else if (sz <=? 3)%nat then
                (Z.lor (Z.lor (Z.shiftl (Z.land s0 0x0F) 12)
                              (Z.shiftl (Z.land s1 0x3F) 6))
                       (Z.land s2 0x3F), 3%nat)
              else
                match r2 with
                | EmptyString => (RuneError, 1%nat)
                | String c3 _ =>
                  let s3 := Octet.val c3 in
                  if negb (cont s3) then (RuneError, 1%nat)
                  else
                    (Z.lor (Z.lor (Z.lor (Z.shiftl (Z.land s0 0x07) 18)
                                         (Z.shiftl (Z.land s1 0x3F) 12))
                                  (Z.shiftl (Z.land s2 0x3F) 6))
                           (Z.land s3 0x3F), 4%nat)
                end
            end
        end
      end
  end.

(** The three bytes of a rune below [0x10000] ([t3], [tx], [tx]). *)
Definition encode3 (r : Z) : string :=
  String (Octet.of_Z (Z.lor 0xE0 (Z.shiftr r 12)))
 (String (Octet.of_Z (Z.lor 0x80 (Z.land (Z.shiftr r 6) 0x3F)))
 (String (Octet.of_Z (Z.lor 0x80 (Z.land r 0x3F))) EmptyString)).

(** [EncodeRune] (or [AppendRune]): the UTF-8 bytes of a rune; a surrogate
    or a value above [MaxRune] is written as [RuneError]. *)
Definition EncodeRune (r : Z) : string :=
  if (0 <=? r) && (r <=? 0x7F) then String (Octet.of_Z r) EmptyString
  else if (0 <=? r) && (r <=? 0x7FF) then
    String (Octet.of_Z (Z.lor 0xC0 (Z.shiftr r 6)))
   (String (Octet.of_Z (Z.lor 0x80 (Z.land r 0x3F))) EmptyString)
  else if (r <? 0) || (MaxRune <? r)
          || ((surrogateMin <=? r) && (r <=? surrogateMax))
  then encode3 RuneError
  else if r <=? 0xFFFF then encode3 r
  else
    String (Octet.of_Z (Z.lor 0xF0 (Z.shiftr r 18)))
   (String (Octet.of_Z (Z.lor 0x80 (Z.land (Z.shiftr r 12) 0x3F)))
   (String (Octet.of_Z (Z.lor 0x80 (Z.land (Z.shiftr r 6) 0x3F)))
   (String (Octet.of_Z (Z.lor 0x80 (Z.land r 0x3F))) EmptyString))).

(** [utf8.ValidString]: no byte of [s] is outside a valid sequence.  The
    Go loop advances an index by the width of the rune it has read; here
    [skip] counts the bytes still to step over. *)
Fixpoint ValidString_from (skip : nat) (s : string) : bool :=
  match s with
  | EmptyString => true
  | String _ rest =>
    match skip with
    | S k => ValidString_from k rest
    | O =>
      let '(r, size) := DecodeRune s in
      if (r =? RuneError) && (size =? 1)%nat then false
      else ValidString_from (size - 1) rest
    end
  end.

Definition ValidString (s : string) : bool := ValidString_from 0 s.

End utf8.

Module utf16.

Definition surr1 : Z := 0xD800.

Definition surr2 : Z := 0xDC00.

Definition surr3 : Z := 0xE000.

Definition surrSelf : Z := 0x10000.

Definition IsSurrogate (r : Z) : bool := (surr1 <=? r) && (r <? surr3).

(** [utf16.DecodeRune]: the rune of a surrogate pair, [U+FFFD] when the
    pair is not valid. *)
Definition DecodeRune (r1 r2 : Z) : Z :=
  if (surr1 <=? r1) && (r1 <? surr2) && (surr2 <=? r2) && (r2 <? surr3)
  then Z.lor (Z.shiftl (r1 - surr1) 10) (r2 - surr2) + surrSelf
  else utf8.RuneError.

End utf16.

(** ** Errors and results *)

(** Go's [error] values, one constructor per way the program or its
    libraries make one.  [fmt_Errorf] keeps the format and the arguments of
    the call, so that a wrapped error is told from its cause. *)
Inductive Errno := ENOENT | EACCES | EBADF.

Inductive error : Type :=
| errors_New (text : string)
| fmt_Errorf (format : string) (args : list fmt_arg)
| PathError (op path : string) (errno : Errno)
| io_EOF
| json_Error
| http_Error (detail : string)
with fmt_arg : Type :=
| arg_string (s : string)
| arg_error (e : error).

(** A Go result [(value, err)]: the value when [err == nil], the error
    otherwise. *)
Inductive result (A : Type) : Type :=
| Ok (a : A)
| Err (e : error).
Arguments Ok {A} a.
Arguments Err {A} e.

(** ** encoding/json at the type [map[string]string] *)

Module json.

Definition quote : ascii := "034"%char.

Definition backslash : ascii := "\"%char.

(** [htmlSafeSet]: the ASCII bytes written as they are, that is all but the
    control characters, the double quote, the backslash, and [<], [>], [&]
    (escaped because [Encoder] has [escapeHTML] set). *)
Definition htmlSafe (b : Z) : bool :=
  (0x20 <=? b) && (b <? 0x80)
  && negb ((b =? 0x22) || (b =? 0x26) || (b =? 0x3C) || (b =? 0x3E) || (b =? 0x5C)).

(** The table [hex] of the sixteen digits, the letters in lower case. *)
Definition hex (n : Z) : ascii :=
  if n <? 10 then Octet.of_Z (0x30 + n) else Octet.of_Z (0x61 + (n - 10)).

(** The escape of an ASCII byte that is not in [htmlSafeSet]. *)
Definition escape (c : ascii) : string :=
  let b := Octet.val c in
  if (b =? 0x5C) || (b =? 0x22) then String backslash (String c EmptyString)
  else if b =? 0x08 then "\b"
  else if b =? 0x0C then "\f"
  else if b =? 0x0A then "\n"
  else if b =? 0x0D then "\r"
  else if b =? 0x09 then "\t"
  else "\u00" +:+ String (hex (Z.shiftr b 4)) (String (hex (Z.land b 0xF)) EmptyString).

(** The loop of [appendString] between the two quotes.  The Go loop
    advances an index [i] by the width of what it has read; here [skip]
    counts the bytes still to step over. *)
Fixpoint appendBody (skip : nat) (src : string) : string :=
  match src with
  | EmptyString => EmptyString
  | String c rest =>
    match skip with
    | S k => appendBody k rest
    | O =>
      let b := Octet.val c in
      if b <? utf8.RuneSelf then
        (if htmlSafe b then String c EmptyString else escape c)
        +:+ appendBody 0 rest
      else
        let '(r, size) := utf8.DecodeRune src in
        if (r =? utf8.RuneError) && (size =? 1)%nat then
          "\ufffd" +:+ appendBody 0 rest
        else if (r =? 0x2028) || (r =? 0x2029) then
          "\u202" +:+ String (hex (Z.land r 0xF)) EmptyString
          +:+ appendBody (size - 1) rest
        else
          firstn_string size src +:+ appendBody (size - 1) rest
    end
  end.

(** [appendString]: a Go string as a JSON string literal, coerced to valid
    UTF-8. *)
Definition appendString (src : string) : string :=
  String quote (appendBody 0 src +:+ String quote EmptyString).

(** The encoding of the members of a map, in the order given. *)
Fixpoint appendMembers (kvs : list (string * string)) : string :=
  match kvs with
  | [] => EmptyString
  | [(k, v)] => appendString k +:+ ":" +:+ appendString v
  | (k, v) :: kvs' =>
    appendString k +:+ ":" +:+ appendString v +:+ "," +:+ appendMembers kvs'
  end.

(** The order of the keys of an encoded map: [strings.Compare], byte by
    byte. *)
Definition key_le (x y : string * string) : Prop := String.le x.1 y.1.

#[global] Instance key_le_dec : RelDecision key_le.
Proof. intros x y. unfold key_le. apply _. Defined.

(** [json.Marshal] of a [map[string]string]: the keys are sorted; the nil
    map ([None]) is written [null]. *)
Definition Marshal (db : option (gmap string string)) : string :=
  match db with
  | None => "null"
  | Some m => "{" +:+ appendMembers (merge_sort key_le (map_to_list m)) +:+ "}"
  end.

(** [Encoder.Encode]: the encoding followed by a newline. *)
Definition Encode (db : option (gmap string string)) : string :=
  Marshal db +:+ String "010"%char EmptyString.

(** What becomes of a Go string that goes through the encoder: every byte
    that is not part of a valid UTF-8 sequence is replaced by [U+FFFD], the
    rest is kept. *)
Fixpoint coerce_from (skip : nat) (s : string) : string :=
  match s with
  | EmptyString => EmptyString
  | String _ rest =>
    match skip with
    | S k => coerce_from k rest
    | O =>
      let '(r, size) := utf8.DecodeRune s in
      if (r =? utf8.RuneError) && (size =? 1)%nat then
        utf8.EncodeRune utf8.RuneError +:+ coerce_from 0 rest
      else firstn_string size s +:+ coerce_from (size - 1) rest
    end
  end.

Definition coerce (s : string) : string := coerce_from 0 s.

(** The map that the encoding of [m] stands for: the members in the order
    of the encoding, keys and values coerced, a later member replacing an
    earlier one with the same key. *)
Definition ins (acc : gmap string string) (kv : string * string)
  : gmap string string :=
  <[coerce kv.1 := coerce kv.2]> acc.

Definition recode (m : gmap string string) : gmap string string :=
  foldl ins ∅ (merge_sort key_le (map_to_list m)).

(** *** Decoding *)

(** The value of a hexadecimal digit, [-1] for another byte. *)
Definition unhex (c : ascii) : Z :=
  let b := Octet.val c in
  if (0x30 <=? b) && (b <=? 0x39) then b - 0x30
  else if (0x61 <=? b) && (b <=? 0x66) then b - 0x61 + 10
  else if (0x41 <=? b) && (b <=? 0x46) then b - 0x41 + 10
  else -1.

(** [getu4]: the rune of a leading [\uXXXX], [-1] when [s] does not start
    with one. *)
Definition getu4 (s : string) : Z :=
  match s with
  | String c0 (String c1 (String h1 (String h2 (String h3 (String h4 _))))) =>
    if Ascii.eqb c0 backslash && Ascii.eqb c1 "u" then
      if (unhex h1 <? 0) || (unhex h2 <? 0) || (unhex h3 <? 0) || (unhex h4 <? 0)
      then -1
      else ((unhex h1 * 16 + unhex h2) * 16 + unhex h3) * 16 + unhex h4
    else -1
  | _ => -1
  end.

(** The byte an escape [\c] stands for, for the two-byte escapes the
    scanner accepts. *)
Definition unescape (c : ascii) : option ascii :=
  let b := Octet.val c in
  if (b =? 0x22) || (b =? 0x5C) || (b =? 0x2F) then Some c
  else if b =? 0x62 then Some (Octet.of_Z 0x08)
  else if b =? 0x66 then Some (Octet.of_Z 0x0C)
  else if b =? 0x6E then Some (Octet.of_Z 0x0A)
  else if b =? 0x72 then Some (Octet.of_Z 0x0D)
  else if b =? 0x74 then Some (Octet.of_Z 0x09)
  else None.

(** What has been decoded so far is put in front of the rest of the
    literal; the count is the number of bytes read. *)
Definition emit (pre : string) (o : option (string * nat)) : option (string * nat) :=
  match o with
  | Some (t, n) => Some (pre +:+ t, S n)
  | None => None
  end.

(** A string literal read from just after its opening quote: the scanner's
    [stateInString] and [unquoteBytes] in one pass over the bytes.  The
    result is the Go string and the number of bytes up to and including
    the closing quote; [None] is a syntax error or the end of the input
    inside the literal.  As in [appendBody], [skip] counts the bytes the
    loop has already consumed by looking ahead. *)
Fixpoint unquote (skip : nat) (s : string) : option (string * nat) :=
  match s with
  | EmptyString => None
  | String c r =>
    match skip with
    | S k => emit EmptyString (unquote k r)
    | O =>
      let b := Octet.val c in
      if Ascii.eqb c quote then Some (EmptyString, 1%nat)
      else if Ascii.eqb c backslash then
        match r with
        | EmptyString => None
        | String e _ =>
          match unescape e with
          | Some x => emit (String x EmptyString) (unquote 1 r)
          | None =>
            if Ascii.eqb e "u" then
              let rr := getu4 s in
              if rr <? 0 then None
              else if utf16.IsSurrogate rr then
                let dec := utf16.DecodeRune rr (getu4 (skipn_string 6 s)) in
                if dec =? utf8.RuneError
                then emit (utf8.EncodeRune utf8.RuneError) (unquote 5 r)
                else emit (utf8.EncodeRune dec) (unquote 11 r)
              else emit (utf8.EncodeRune rr) (unquote 5 r)
            else None
          end
        end
      else if b <? 0x20 then None
      else if b <? utf8.RuneSelf then emit (String c EmptyString) (unquote 0 r)
      else
        let '(rr, size) := utf8.DecodeRune s in
        emit (utf8.EncodeRune rr) (unquote (size - 1) r)
    end
  end.

(** Where the decoder is in the top-level value, after the states of the
    scanner. *)
Inductive phase : Type :=
| beginValue                    (* before the value *)
| beginStringOrEmpty            (* after the opening brace *)
| beginString                   (* after a comma *)
| endKey (key : string)         (* after a key, before the colon *)
| beginMember (key : string)    (* after the colon *)
| endValue                      (* after the value of a member *).

Definition isSpace (c : ascii) : bool :=
  let b := Octet.val c in
  (b =? 0x20) || (b =? 0x09) || (b =? 0x0D) || (b =? 0x0A).

(** Does [s] continue the literal [null] after its first byte? *)
Definition ull (s : string) : bool :=
  match s with
  | String c1 (String c2 (String c3 _)) =>
    Ascii.eqb c1 "u" && Ascii.eqb c2 "l" && Ascii.eqb c3 "l"
  | _ => false
  end.

(** The first JSON value of the input, decoded into the map [db]:
    [Decoder.Decode] with a [*map[string]string].  The value has to be an
    object whose members are strings or [null] (which stores the empty
    string), or [null] itself (which sets the Go map to nil, [None] here).
    Nothing after the end of the value is looked at.  An input of white
    space only is [io.EOF]; [json_Error] stands for every other error of
    [Decode] ([io.ErrUnexpectedEOF], a [*SyntaxError], an
    [*UnmarshalTypeError]). *)
Fixpoint scan (skip : nat) (ph : phase) (db : gmap string string) (s : string)
  : result (option (gmap string string)) :=
  match s with
  | EmptyString =>
    match ph, skip with
    | beginValue, O => Err io_EOF
    | _, _ => Err json_Error
    end
  | String c r =>
    match skip with
    | S k => scan k ph db r
    | O =>
      if isSpace c then scan 0 ph db r
      else
        let key :=
          if Ascii.eqb c quote then
            match unquote 0 r with
            | Some (k, n) => scan n (endKey k) db r
            | None => Err json_Error
            end
          else Err json_Error in
        match ph with
        | beginValue =>
          if Ascii.eqb c "{" then scan 0 beginStringOrEmpty db r
          else if Ascii.eqb c "n" && ull r then Ok None
          else Err json_Error
        | beginStringOrEmpty =>
          if Ascii.eqb c "}" then Ok (Some db) else key
        | beginString => key
        | endKey k =>
          if Ascii.eqb c ":" then scan 0 (beginMember k) db r
          else Err json_Error
        | beginMember k =>
          if Ascii.eqb c quote then
            match unquote 0 r with
            | Some (v, n) => scan n endValue (<[k:=v]> db) r
            | None => Err json_Error
            end
          else if Ascii.eqb c "n" && ull r then
            scan 3 endValue (<[k:=EmptyString]> db) r
          else Err json_Error
        | endValue =>
          if Ascii.eqb c "," then scan 0 beginString db r
          else if Ascii.eqb c "}" then Ok (Some db)
          else Err json_Error
        end
    end
  end.

(** [json.NewDecoder(r).Decode(&db)] on the bytes that [r] yields, for a
    [db] that is first the empty map. *)
Definition Decode (input : string) : result (option (gmap string string)) :=
  scan 0 beginValue ∅ input.

End json.

(** ** time: the clock and the two layouts of [getHash] *)

Module time.

(** What [Format] reads of a [time.Time]: the date and the hour in the
    local time zone. *)
Record Time : Type := Date {
  Year : Z;
  Month : Z;
  Day : Z;
  Hour : Z
}.

Fixpoint zeros (n : nat) : string :=
  match n with
  | O => EmptyString
  | S k => String "0" (zeros k)
  end.

(** [appendInt]: the decimal digits of [x], padded with zeros to [width],
    after a minus sign for a negative [x]. *)
Definition appendInt (x : Z) (width : nat) : string :=
  let digits := pretty (Z.abs_N x) in
  (if x <? 0 then "-" else "")
  +:+ zeros (width - String.length digits) +:+ digits.

(** [t.Format("2006-01-02")] *)
Definition formatDay (t : Time) : string :=
  appendInt (Year t) 4 +:+ "-" +:+ appendInt (Month t) 2
  +:+ "-" +:+ appendInt (Day t) 2.

(** [t.Format("2006-01-02-15")] *)
Definition formatHour (t : Time) : string :=
  formatDay t +:+ "-" +:+ appendInt (Hour t) 2.

End time.

(** ** The world: files, the web hook, the clock, the log *)

(** A regular file: its bytes and what the process may do with it. *)
Record inode : Type := Inode {
  data : string;
  readable : bool;
  writable : bool
}.

(** An HTTP POST, as [http.Client.Post(url, contentType, body)] sends it. *)
Record Request : Type := POST {
  url : string;
  contentType : string;
  body : string
}.

(** What comes back: [Post] fails, reading the body fails, or a body. *)
Inductive Reply : Type :=
| PostFails (e : error)
| ReadFails (e : error)
| Body (b : string).

(** [log.New(os.Stdout, prefix, flags)] *)
Record Logger : Type := log_New {
  prefix : string;
  flags : Z
}.

(** One call of [Logger.Printf]. *)
Record LogLine : Type := Printf {
  logger : option Logger;
  format : string;
  args : list fmt_arg
}.

Record World : Type := mkWorld {
  (** the regular files, by path *)
  files : gmap string inode;
  (** whether a file may be created at a path where there is none *)
  may_create : string → bool;
  (** the reading of the wall clock *)
  now : time.Time;
  (** the answer of the remote end to a request, given the earlier ones *)
  endpoint : list Request → Request → Reply;
  (** the requests sent so far, oldest first *)
  posts : list Request;
  (** the lines logged so far, oldest first *)
  logged : list LogLine
}.

Definition set_files (f : gmap string inode) (w : World) : World :=
  mkWorld f (may_create w) (now w) (endpoint w) (posts w) (logged w).

Definition add_post (r : Request) (w : World) : World :=
  mkWorld (files w) (may_create w) (now w) (endpoint w) (posts w ++ [r]) (logged w).

Definition add_log (l : LogLine) (w : World) : World :=
  mkWorld (files w) (may_create w) (now w) (endpoint w) (posts w) (logged w ++ [l]).

(** ** os: files *)

Module os.

(** An open file: [*os.File].  The offset moves with every write. *)
Record File : Type := mkFile {
  name : string;
  offset : nat;
  rd : bool;
  wr : bool
}.

Fixpoint nuls (n : nat) : string :=
  match n with
  | O => EmptyString
  | S k => String "000" (nuls k)
  end.

(** The first [n] bytes of [s], with zero bytes added when [s] is
    shorter. *)
Definition resize (n : nat) (s : string) : string :=
  firstn_string n s +:+ nuls (n - String.length s).

(** The bytes of a file after [bytes] is written at offset [off]: what was
    there before and after the written range stays. *)
Definition pwrite (off : nat) (bytes old : string) : string :=
  resize off old +:+ bytes +:+ skipn_string (off + String.length bytes) old.

(** [os.Open(name)]: [OpenFile(name, O_RDONLY, 0)] *)
Definition Open (name : string) (w : World) : result File :=
  match files w !! name with
  | None => Err (PathError "open" name ENOENT)
  | Some i =>
    if readable i then Ok (mkFile name 0 true false)
    else Err (PathError "open" name EACCES)
  end.

(** [os.OpenFile(name, O_WRONLY, perm)]: the file has to exist, and it is
    not truncated. *)
Definition OpenFile_WRONLY (name : string) (w : World) : result File :=
  match files w !! name with
  | None => Err (PathError "open" name ENOENT)
  | Some i =>
    if writable i then Ok (mkFile name 0 false true)
    else Err (PathError "open" name EACCES)
  end.

(** [os.Create(name)]: [OpenFile(name, O_RDWR|O_CREATE|O_TRUNC, 0666)] *)
Definition Create (name : string) (w : World) : result File * World :=
  match files w !! name with
  | None =>
    if may_create w name then
      (Ok (mkFile name 0 true true),
       set_files (<[name := Inode "" true true]> (files w)) w)
    else (Err (PathError "open" name EACCES), w)
  | Some i =>
    if readable i && writable i then
      (Ok (mkFile name 0 true true),
       set_files (<[name := Inode "" true true]> (files w)) w)
    else (Err (PathError "open" name EACCES), w)
  end.

(** [f.Truncate(size)]: the offset does not move. *)
Definition Truncate (f : File) (size : nat) (w : World) : option error * World :=
  match files w !! name f with
  | Some i =>
    if wr f then
      (None,
       set_files (<[name f := Inode (resize size (data i)) (readable i)
                                 (writable i)]> (files w)) w)
    else (Some (PathError "truncate" (name f) EBADF), w)
  | None => (Some (PathError "truncate" (name f) ENOENT), w)
  end.

(** [f.Write(b)]: the bytes go to the offset of [f], which moves past
    them. *)
Definition Write (f : File) (b : string) (w : World) : option error * File * World :=
  match files w !! name f with
  | Some i =>
    if wr f then
      (None,
       mkFile (name f) (offset f + String.length b) (rd f) (wr f),
       set_files (<[name f := Inode (pwrite (offset f) b (data i)) (readable i)
                                 (writable i)]> (files w)) w)
    else (Some (PathError "write" (name f) EBADF), f, w)
  | None => (Some (PathError "write" (name f) ENOENT), f, w)
  end.

(** What reading [f] to the end yields: the bytes from its offset on. *)
Definition ReadAll (f : File) (w : World) : result string :=
  match files w !! name f with
  | Some i =>
    if rd f then Ok (skipn_string (offset f) (data i))
    else Err (PathError "read" (name f) EBADF)
  | None => Err (PathError "read" (name f) ENOENT)
  end.

End os.

(** ** The program: slacker.go *)

Definition NotifyAlways : Z := 0.

Definition NotifyOnceHour : Z := 1.

Definition NotifyOnceDay : Z := 2.

Definition DefaultDatabaseFilePath : string := "slacker.json".

Definition DefaultMessageTag : string := "default_tag".

Definition DefaultUsername : string := "Slacker Notifier".

Definition DefaultIconEmoji : string := ":ghost:".

(** [log.LstdFlags = Ldate | Ltime] *)
Definition LstdFlags : Z := 3.

Module Recipient.
(** Recipient holds Channel and Username *)
Record t : Type := mk {
  Channel : string;
  Username : string
}.
End Recipient.

Module SlackMessage.

Record t : Type := mk {
  Channel : string;
  Username : string;
  Text : string;
  IconEmoji : string
}.

(** [json.Marshal] of a [SlackMessage], with the field names of its
    tags. *)
Definition Marshal (m : t) : string :=
  "{" +:+ json.appendString "channel" +:+ ":" +:+ json.appendString (Channel m)
  +:+ "," +:+ json.appendString "username" +:+ ":" +:+ json.appendString (Username m)
  +:+ "," +:+ json.appendString "text" +:+ ":" +:+ json.appendString (Text m)
  +:+ "," +:+ json.appendString "icon_emoji" +:+ ":" +:+ json.appendString (IconEmoji m)
  +:+ "}".
End SlackMessage.

(** Slacker sends notification tagged by MessageTag with Frequency.  The
    field [httpClient] is left out: it is nil when [Send] starts, [send]
    makes the client before its first request, and the client has no state
    that the program reads. *)
Record Slacker : Type := mkSlacker {
  Hook : string;
  Log : option Logger;
  IconEmoji : string;
  From : string;
  To : list Recipient.t;
  Frequency : Z;
  MessageTag : string;
  DatabaseFilePath : string
}.

(** How a call ends: it returns its [error] (nil is [None]), or it
    panics. *)
Inductive outcome : Type :=
| Returns (err : option error)
| Panics (reason : string).

(** [slacker.Log.Printf(fmt, a...)].  The program logs after [setDefaults]
    only, when the logger is set. *)
Definition Log_Printf (slacker : Slacker) (fmt : string) (a : list fmt_arg)
  (w : World) : World :=
  add_log (Printf (Log slacker) fmt a) w.

(** A field that is empty takes its default. *)
Definition orDefault (s dflt : string) : string :=
  if decide (s = "") then dflt else s.

Definition setDefaults (slacker : Slacker) : result Slacker :=
  if decide (Hook slacker = "") then Err (errors_New "Web hook url is not set")
  else if decide (length (To slacker) = 0%nat) then
    Err (errors_New "Recipients are not set")
  else
    Ok {| Hook := Hook slacker;
          Log := match Log slacker with
                 | None => Some (log_New (DefaultUsername +:+ " ") LstdFlags)
                 | Some l => Some l
                 end;
          IconEmoji := orDefault (IconEmoji slacker) DefaultIconEmoji;
          From := orDefault (From slacker) DefaultUsername;
          To := To slacker;
          Frequency := Frequency slacker;
          MessageTag := orDefault (MessageTag slacker) DefaultMessageTag;
          DatabaseFilePath :=
            orDefault (DatabaseFilePath slacker) DefaultDatabaseFilePath |}.

Definition getHash (slacker : Slacker) (subject : string) (w : World) : string :=
  let t := now w in
  if decide (Frequency slacker = NotifyOnceHour) then
    time.formatHour t +:+ ":" +:+ MessageTag slacker +:+ ":" +:+ subject
  else if decide (Frequency slacker = NotifyOnceDay) then
    time.formatDay t +:+ ":" +:+ MessageTag slacker +:+ ":" +:+ subject
  else "".

Definition createDb (slacker : Slacker) (w : World) : result os.File * World :=
  let path := DatabaseFilePath slacker in
  let wrap err :=
    fmt_Errorf "Slacker failed to create database file %s: %s"
               [arg_string path; arg_error err] in
  match os.Create path w with
  | (Err err, w) => (Err (wrap err), w)
  | (Ok dbFile, w) =>
    match os.Truncate dbFile 0 w with
    | (Some err, w) => (Err (wrap err), w)
    | (None, w) =>
      match os.Write dbFile "{}" w with
      | (Some err, _, w) => (Err (wrap err), w)
      | (None, dbFile, w) => (Ok dbFile, w)
      end
    end
  end.

(** [json.NewDecoder(dbFile).Decode(&db)]: the decoder reads the file from
    the offset of the handle. *)
Definition decodeFile (dbFile : os.File) (w : World)
  : result (option (gmap string string)) :=
  match os.ReadAll dbFile w with
  | Err err => Err err
  | Ok input => json.Decode input
  end.

Definition loadDb (slacker : Slacker) (w : World)
  : result (option (gmap string string)) * World :=
  let wrap err := fmt_Errorf "Slacker failed to load database: %s" [arg_error err] in
  let decode dbFile w :=
    match decodeFile dbFile w with
    | Err err => (Err (wrap err), w)
    | Ok db => (Ok db, w)
    end in
  match os.Open (DatabaseFilePath slacker) w with
  | Err _ =>
    match createDb slacker w with
    | (Err err, w) => (Err (wrap err), w)
    | (Ok dbFile, w) => decode dbFile w
    end
  | Ok dbFile => decode dbFile w
  end.

Definition saveDb (slacker : Slacker) (db : option (gmap string string))
  (w : World) : option error * World :=
  match os.OpenFile_WRONLY (DatabaseFilePath slacker) w with
  | Err err =>
    (Some (fmt_Errorf
             "Slacker failed to save database: Failed to open database file: %s"
             [arg_error err]), w)
  | Ok dbFile =>
    match os.Write dbFile (json.Encode db) w with
    | (Some err, _, w) =>
      (Some (fmt_Errorf
               "Slacker failed to save database: Failed to encode json to file: %s"
               [arg_error err]), w)
    | (None, _, w) => (None, w)
    end
  end.

Definition addToDb (slacker : Slacker) (hash subject : string) (w : World)
  : outcome * World :=
  match loadDb slacker w with
  | (Err err, w) =>
    (Returns (Some (fmt_Errorf "Slacker failed to add %s:%s to database: %s"
                               [arg_string hash; arg_string subject; arg_error err])), w)
  | (Ok None, w) => (Panics "assignment to entry in nil map", w)
  | (Ok (Some db), w) =>
    let db := <[hash := subject]> db in
    match saveDb slacker (Some db) w with
    | (Some err, w) =>
      (Returns (Some (fmt_Errorf "Slacker failed to add %s to database: %s"
                                 [arg_string hash; arg_error err])), w)
    | (None, w) => (Returns None, w)
    end
  end.

Definition inDb (slacker : Slacker) (hash : string) (w : World) : bool * World :=
  match loadDb slacker w with
  | (Err err, w) =>
    (false, Log_Printf slacker "Slacker failed to load database: %s" [arg_error err] w)
  | (Ok None, w) => (false, w)
  | (Ok (Some db), w) =>
    match db !! hash with
    | Some _ => (true, w)
    | None => (false, w)
    end
  end.

Definition needToSend (slacker : Slacker) (hash : string) (w : World)
  : bool * World :=
  if decide (Frequency slacker = NotifyAlways) then (true, w)
  else
    match inDb slacker hash w with
    | (true, w) => (false, w)
    | (false, w) => (true, w)
    end.

(** [send]: one POST of the message to the web hook; the answer has to be
    the body [ok]. *)
Definition send (slacker : Slacker) (message : SlackMessage.t) (w : World)
  : result string * World :=
  let payload := SlackMessage.Marshal message in
  let request := POST (Hook slacker) "string" payload in
  let reply := endpoint w (posts w) request in
  let w := add_post request w in
  match reply with
  | PostFails err => (Err err, w)
  | ReadFails err => (Err err, w)
  | Body response =>
    if decide (response ≠ "ok") then
      (Err (fmt_Errorf "Response from Slack: %s" [arg_string response]), w)
    else (Ok response, w)
  end.

(** The loop of [Send] over the recipients: it stops at the first
    failure. *)
Fixpoint sendEach (slacker : Slacker) (message : string)
  (slackMessage : SlackMessage.t) (to : list Recipient.t) (w : World)
  : option error * World :=
  match to with
  | [] => (None, w)
  | recipient :: to =>
    let slackMessage :=
      SlackMessage.mk (Recipient.Channel recipient)
                      (SlackMessage.Username slackMessage)
                      (Recipient.Username recipient +:+ " " +:+ message)
                      (SlackMessage.IconEmoji slackMessage) in
    match send slacker slackMessage w with
    | (Err err, w) =>
      (Some err,
       Log_Printf slacker "Slacker failed to send message: %s" [arg_error err] w)
    | (Ok response, w) =>
      sendEach slacker message slackMessage to
        (Log_Printf slacker "Send message %s: %s %s"
           [arg_string (MessageTag slacker); arg_string message; arg_string response] w)
    end
  end.

(** Send message with subject *)
Definition Send (slacker : Slacker) (message : string) (w : World)
  : outcome * World :=
  match setDefaults slacker with
  | Err err =>
    (Returns (Some (fmt_Errorf "Slacker failed to send message: %s" [arg_error err])), w)
  | Ok slacker =>
    let hash := getHash slacker message w in
    match needToSend slacker hash w with
    | (false, w) =>
      (Returns None,
       Log_Printf slacker "Skip message %s: %s" [arg_string hash; arg_string message] w)
    | (true, w) =>
      let slackMessage :=
        SlackMessage.mk "" (From slacker) "" (IconEmoji slacker) in
      match sendEach slacker message slackMessage (To slacker) w with
      | (Some err, w) => (Returns (Some err), w)
      | (None, w) =>
        match addToDb slacker hash message w with
        | (Returns (Some err), w) =>
          (Returns (Some err),
           Log_Printf slacker "Slacker failed to send message: %s" [arg_error err] w)
        | (o, w) => (o, w)
        end
      end
    end
  end.

(** ** Vocabulary of the specification *)

(** The message and the request that [Send] makes for one recipient. *)
Definition messageFor (slacker : Slacker) (message : string)
  (recipient : Recipient.t) : SlackMessage.t :=
  SlackMessage.mk (Recipient.Channel recipient) (From slacker)
                  (Recipient.Username recipient +:+ " " +:+ message)
                  (IconEmoji slacker).

Definition requestFor (slacker : Slacker) (message : string)
  (recipient : Recipient.t) : Request :=
  POST (Hook slacker) "string"
       (SlackMessage.Marshal (messageFor slacker message recipient)).

(** The remote end accepts each of the requests in turn, the first one after
    the requests of [history]. *)
Fixpoint accepted (w : World) (history reqs : list Request) : Prop :=
  match reqs with
  | [] => True
  | q :: reqs => endpoint w history q = Body "ok" ∧ accepted w (history ++ [q]) reqs
  end.

(** The error of [send] for a reply that is not the body [ok]. *)
Definition rejection (reply : Reply) : option error :=
  match reply with
  | PostFails err => Some err
  | ReadFails err => Some err
  | Body response =>
    if decide (response ≠ "ok")
    then Some (fmt_Errorf "Response from Slack: %s" [arg_string response])
    else None
  end.

(** The line [Send] logs for a recipient that was reached. *)
Definition sentLine (slacker : Slacker) (message : string) : LogLine :=
  Printf (Log slacker) "Send message %s: %s %s"
         [arg_string (MessageTag slacker); arg_string message; arg_string "ok"].

(** The part of [Send] after the dedup decision has allowed the message:
    the loop over the recipients and the update of the database. *)
Definition deliver (slacker : Slacker) (hash message : string) (w : World)
  : outcome * World :=
  let slackMessage := SlackMessage.mk "" (From slacker) "" (IconEmoji slacker) in
  match sendEach slacker message slackMessage (To slacker) w with
  | (Some err, w) => (Returns (Some err), w)
  | (None, w) =>
    match addToDb slacker hash message w with
    | (Returns (Some err), w) =>
      (Returns (Some err),
       Log_Printf slacker "Slacker failed to send message: %s" [arg_error err] w)
    | (o, w) => (o, w)
    end
  end.

(** Is the byte [c] in [s]? *)
Fixpoint contains (c : ascii) (s : string) : bool :=
  match s with
  | EmptyString => false
  | String x r => Ascii.eqb x c || contains c r
  end.

(** The time bucket of a fingerprint, for the two policies that have one. *)
Definition bucket (frequency : Z) (t : time.Time) : string :=
  if decide (frequency = NotifyOnceHour) then time.formatHour t
  else time.formatDay t.

(** A map whose keys and values are valid UTF-8. *)
Definition ValidRecord (db : gmap string string) : Prop :=
  map_Forall (λ k v, utf8.ValidString k = true ∧ utf8.ValidString v = true) db.

(** Is the key in the map that [loadDb] has returned?  The nil map has no
    key. *)
Definition inRecord (db : option (gmap string string)) (hash : string) : bool :=
  match db with
  | Some m => bool_decide (is_Some (m !! hash))
  | None => false
  end.

(** The database file after [saveDb] has written [db] into the file [old]:
    the encoding from the first byte on, then what [old] had beyond the
    length of the encoding. *)
Definition saved (db : gmap string string) (old : inode) : inode :=
  Inode (json.Encode (Some db)
         +:+ skipn_string (String.length (json.Encode (Some db))) (data old))
        (readable old) true.

(** What [Send] does with the outcome of [addToDb]. *)
Definition reported (slacker : Slacker) (r : outcome * World) : outcome * World :=
  match r with
  | (Returns (Some err), w) =>
    (Returns (Some err),
     Log_Printf slacker "Slacker failed to send message: %s" [arg_error err] w)
  | (o, w) => (o, w)
  end.

(** ** Auxiliary definitions of the proofs *)

(** The shapes of a valid UTF-8 sequence of two, three and four bytes, and
    the rune each one stands for. *)
Definition seq2 (c0 c1 : ascii) : Prop :=
  0xC2 <= Octet.val c0 <= 0xDF ∧ 0x80 <= Octet.val c1 <= 0xBF.

Definition seq3 (c0 c1 c2 : ascii) : Prop :=
  0xE0 <= Octet.val c0 <= 0xEF ∧ 0x80 <= Octet.val c1 <= 0xBF
  ∧ 0x80 <= Octet.val c2 <= 0xBF
  ∧ (Octet.val c0 = 0xE0 → 0xA0 <= Octet.val c1)
  ∧ (Octet.val c0 = 0xED → Octet.val c1 <= 0x9F).

Definition seq4 (c0 c1 c2 c3 : ascii) : Prop :=
  0xF0 <= Octet.val c0 <= 0xF4 ∧ 0x80 <= Octet.val c1 <= 0xBF
  ∧ 0x80 <= Octet.val c2 <= 0xBF ∧ 0x80 <= Octet.val c3 <= 0xBF
  ∧ (Octet.val c0 = 0xF0 → 0x90 <= Octet.val c1)
  ∧ (Octet.val c0 = 0xF4 → Octet.val c1 <= 0x8F).

Definition rune2 (c0 c1 : ascii) : Z :=
  (Octet.val c0 - 0xC0) * 64 + (Octet.val c1 - 0x80).

Definition rune3 (c0 c1 c2 : ascii) : Z :=
  (Octet.val c0 - 0xE0) * 4096 + (Octet.val c1 - 0x80) * 64 + (Octet.val c2 - 0x80).

Definition rune4 (c0 c1 c2 c3 : ascii) : Z :=
  (Octet.val c0 - 0xF0) * 262144 + (Octet.val c1 - 0x80) * 4096
  + (Octet.val c2 - 0x80) * 64 + (Octet.val c3 - 0x80).

(** [emit] for a piece of [k] bytes of the literal. *)
Definition emitn (pre : string) (k : nat) (o : option (string * nat)) :=
  match o with
  | Some (t, n) => Some (pre +:+ t, (k + n)%nat)
  | None => None
  end.

(** The escape the encoder writes for a byte that is not valid UTF-8. *)
Definition replacement : string := String json.backslash "ufffd".

(** A member of a map as the decoder reads it back. *)
Definition cpair (kv : string * string) : string * string :=
  (json.coerce kv.1, json.coerce kv.2).

(** The wrappers of [loadDb] and of [createDb] around an error. *)
Definition loadErr (err : error) : error :=
  fmt_Errorf "Slacker failed to load database: %s" [arg_error err].

Definition createErr (path : string) (err : error) : error :=
  fmt_Errorf "Slacker failed to create database file %s: %s"
             [arg_string path; arg_error err].

(** A [SlackMessage] that carries the sender and the icon of the
    configuration, as the one [Send] starts its loop with and every one the
    loop makes. *)
Definition fitted (s : Slacker) (sm : SlackMessage.t) : Prop :=
  SlackMessage.Username sm = From s ∧ SlackMessage.IconEmoji sm = IconEmoji s.

(** The encoding of one rune: an ASCII byte or a valid sequence. *)
Definition wellcoded (p : string) : Prop :=
  (∃ c, p = String c "" ∧ Octet.val c < 0x80)
  ∨ (∃ c0 c1, p = String c0 (String c1 "") ∧ seq2 c0 c1)
  ∨ (∃ c0 c1 c2, p = String c0 (String c1 (String c2 "")) ∧ seq3 c0 c1 c2)
  ∨ (∃ c0 c1 c2 c3,
       p = String c0 (String c1 (String c2 (String c3 ""))) ∧ seq4 c0 c1 c2 c3).

(** The key that the decoder holds in a phase is valid UTF-8. *)
Definition phase_valid (ph : json.phase) : Prop :=
  match ph with
  | json.endKey k | json.beginMember k => utf8.ValidString k = true
  | _ => True
  end.

(** A reading of the clock in the range of the calendar: a year of four
    digits at most, a month, a day and an hour. *)
Definition calendar (t : time.Time) : Prop :=
  0 <= time.Year t <= 9999 ∧ 1 <= time.Month t <= 12
  ∧ 1 <= time.Day t <= 31 ∧ 0 <= time.Hour t <= 23.

(** The decimal digit of a number below ten. *)
Definition digit (x : Z) : ascii := pretty_N_char (Z.to_N x).

(** The JSON object of a [SlackMessage], as a map: the four fields under the
    names of their tags, coerced to valid UTF-8. *)
Definition fields (m : SlackMessage.t) : gmap string string :=
  <["icon_emoji" := json.coerce (SlackMessage.IconEmoji m)]>
    (<["text" := json.coerce (SlackMessage.Text m)]>
       (<["username" := json.coerce (SlackMessage.Username m)]>
          (<["channel" := json.coerce (SlackMessage.Channel m)]> ∅))).

(** ** Scenarios

    Concrete configurations and worlds, for the examples that instantiate
    the theorems below. *)

Module Scenario.

Definition ops : Recipient.t := Recipient.mk "#ops" "bot".

Definition oncall : Recipient.t := Recipient.mk "#oncall" "bot".

(** A configuration as a caller writes it: the optional fields are unset. *)
Definition notifier (frequency : Z) (tag : string) : Slacker :=
  mkSlacker "https://hooks.example/services/T0/B0" None "" ""
            [ops; oncall] frequency tag "".

(** The same configuration after [setDefaults]. *)
Definition ready (frequency : Z) (tag : string) : Slacker :=
  mkSlacker "https://hooks.example/services/T0/B0"
            (Some (log_New "Slacker Notifier " LstdFlags))
            ":ghost:" "Slacker Notifier"
            [ops; oncall] frequency tag "slacker.json".

(** Tuesday 2 January 2024, between 15:00 and 16:00. *)
Definition clock : time.Time := time.Date 2024 1 2 15.

(** A web hook that accepts everything, and one that accepts only the first
    request it gets. *)
Definition accepting (history : list Request) (q : Request) : Reply := Body "ok".

Definition accepting_once (history : list Request) (q : Request) : Reply :=
  match history with
  | [] => Body "ok"
  | _ => Body "invalid_token"
  end.

Definition world (fs : gmap string inode) (hook : list Request → Request → Reply)
  : World :=
  mkWorld fs (λ _, true) clock hook [] [].

(** A readable and writable file. *)
Definition file (content : string) : inode := Inode content true true.

(** No database file yet, and one with the given bytes. *)
Definition fresh (hook : list Request → Request → Reply) : World := world ∅ hook.

Definition stored (content : string) (hook : list Request → Request → Reply)
  : World :=
  world {[ "slacker.json" := file content ]} hook.

(** A message in Latin-1: the last byte, 0xE9, is not valid UTF-8. *)
Definition latin1 : string := "caf" +:+ String "233" EmptyString.

(** The four bytes a file holds when it is not JSON. *)
Definition garbage : string := "oops".

(** The fingerprint and the record of the message [disk full] under the tag
    [disk], sent once in the hour of [clock]. *)
Definition fingerprint : string := "2024-01-02-15:disk:disk full".

Definition sent : gmap string string := {[ fingerprint := "disk full" ]}.

(** An older and longer database file. *)
Definition stale : string :=
  json.Encode (Some {[ "2023-12-31-23:disk:disk almost full, please have a look"
                       := "disk almost full, please have a look" ]}).

End Scenario.

(** * Facts about the model *)

(** ** Bytes and bit arithmetic *)

Lemma val_range c : 0 <= Octet.val c < 256.
Proof.
  unfold Octet.val. pose proof (N_ascii_bounded c). lia.
Qed.

Lemma of_Z_val c : Octet.of_Z (Octet.val c) = c.
Proof.
  unfold Octet.of_Z. rewrite Z.mod_small by apply val_range.
  unfold Octet.val. rewrite N2Z.id. apply ascii_N_embedding.
Qed.

Lemma lor_mul_add x y n :
  0 <= n -> 0 <= y < 2 ^ n -> Z.lor (x * 2 ^ n) y = x * 2 ^ n + y.
Proof.
  intros Hn Hy.
  assert (Hland : Z.land (x * 2 ^ n) y = 0).
  { apply Z.bits_inj'. intros i Hi. rewrite Z.land_spec, Z.bits_0.
    destruct (Z.lt_ge_cases i n).
    - rewrite Z.mul_pow2_bits_low by lia. done.
    - rewrite <- (Z.mod_small y (2 ^ n)) by lia.
      rewrite Z.mod_pow2_bits_high by lia. apply andb_false_r. }
  rewrite <- Z.lxor_lor by done. symmetry. by apply Z.add_nocarry_lxor.
Qed.

Lemma lor_add x y n k :
  0 <= n -> x = k * 2 ^ n -> 0 <= y < 2 ^ n -> Z.lor x y = x + y.
Proof. intros ? -> ?. by apply lor_mul_add. Qed.

Lemma land_mod x n : 0 <= n -> Z.land x (2 ^ n - 1) = x mod 2 ^ n.
Proof.
  intros. rewrite <- Z.land_ones by done. f_equal. rewrite Z.ones_equiv. lia.
Qed.

Ltac arith := Z.to_euclidean_division_equations; lia.

Ltac unbits :=
  repeat first
    [ rewrite (land_mod _ 3) by lia
    | rewrite (land_mod _ 4) by lia
    | rewrite (land_mod _ 5) by lia
    | rewrite (land_mod _ 6) by lia
    | rewrite Z.shiftl_mul_pow2 by lia
    | rewrite Z.shiftr_div_pow2 by lia ];
  change (2 ^ 3) with 8 in *; change (2 ^ 4) with 16 in *;
  change (2 ^ 5) with 32 in *; change (2 ^ 6) with 64 in *;
  change (2 ^ 12) with 4096 in *; change (2 ^ 18) with 262144 in *;
  change (2 ^ 10) with 1024 in *.

Lemma decode2 s0 s1 :
  0xC2 <= s0 <= 0xDF -> 0x80 <= s1 <= 0xBF ->
  Z.lor (Z.shiftl (Z.land s0 0x1F) 6) (Z.land s1 0x3F)
  = (s0 - 0xC0) * 64 + (s1 - 0x80).
Proof.
  intros H0 H1.
  change 0x1F with (2 ^ 5 - 1). change 0x3F with (2 ^ 6 - 1). unbits.
  rewrite (lor_add _ _ 6 (s0 mod 32)); [arith|lia|done|arith].
Qed.

Lemma decode3 s0 s1 s2 :
  0xE0 <= s0 <= 0xEF -> 0x80 <= s1 <= 0xBF -> 0x80 <= s2 <= 0xBF ->
  Z.lor (Z.lor (Z.shiftl (Z.land s0 0x0F) 12) (Z.shiftl (Z.land s1 0x3F) 6))
        (Z.land s2 0x3F)
  = (s0 - 0xE0) * 4096 + (s1 - 0x80) * 64 + (s2 - 0x80).
Proof.
  intros H0 H1 H2.
  change 0x0F with (2 ^ 4 - 1). change 0x3F with (2 ^ 6 - 1). unbits.
  rewrite (lor_add (_ * 4096) _ 12 (s0 mod 16)); [|lia|done|arith].
  rewrite (lor_add _ _ 6 (s0 mod 16 * 64 + s1 mod 64)); [arith|lia|change (2^6) with 64; lia|arith].
Qed.

Lemma decode4 s0 s1 s2 s3 :
  0xF0 <= s0 <= 0xF4 -> 0x80 <= s1 <= 0xBF -> 0x80 <= s2 <= 0xBF ->
  0x80 <= s3 <= 0xBF ->
  Z.lor (Z.lor (Z.lor (Z.shiftl (Z.land s0 0x07) 18)
                      (Z.shiftl (Z.land s1 0x3F) 12))
               (Z.shiftl (Z.land s2 0x3F) 6))
        (Z.land s3 0x3F)
  = (s0 - 0xF0) * 262144 + (s1 - 0x80) * 4096 + (s2 - 0x80) * 64 + (s3 - 0x80).
Proof.
  intros H0 H1 H2 H3.
  change 0x07 with (2 ^ 3 - 1). change 0x3F with (2 ^ 6 - 1). unbits.
  rewrite (lor_add (_ * 262144) _ 18 (s0 mod 8)); [|lia|done|arith].
  rewrite (lor_add _ (_ * 64) 12 (s0 mod 8 * 64 + s1 mod 64));
    [|lia|change (2^12) with 4096; lia|arith].
  rewrite (lor_add _ _ 6 (s0 mod 8 * 4096 + s1 mod 64 * 64 + s2 mod 64));
    [arith|lia|change (2^6) with 64; lia|arith].
Qed.

Lemma lead2 z : 0 <= z < 32 -> Z.lor 0xC0 z = 0xC0 + z.
Proof. intros. by apply (lor_add _ _ 5 6). Qed.

Lemma lead3 z : 0 <= z < 16 -> Z.lor 0xE0 z = 0xE0 + z.
Proof. intros. by apply (lor_add _ _ 4 14). Qed.

Lemma lead4 z : 0 <= z < 8 -> Z.lor 0xF0 z = 0xF0 + z.
Proof. intros. by apply (lor_add _ _ 3 30). Qed.

Lemma trail z : 0 <= z < 64 -> Z.lor 0x80 z = 0x80 + z.
Proof. intros. by apply (lor_add _ _ 6 2). Qed.

Lemma string_eq_val c x s t : 
  x = Octet.val c -> s = t -> String (Octet.of_Z x) s = String c t.
Proof. intros -> ->. by rewrite of_Z_val. Qed.

Lemma encode3_bytes c0 c1 c2 :
  0xE0 <= Octet.val c0 <= 0xEF -> 0x80 <= Octet.val c1 <= 0xBF ->
  0x80 <= Octet.val c2 <= 0xBF ->
  utf8.encode3 ((Octet.val c0 - 0xE0) * 4096 + (Octet.val c1 - 0x80) * 64
                + (Octet.val c2 - 0x80))
  = String c0 (String c1 (String c2 EmptyString)).
Proof.
  intros H0 H1 H2. unfold utf8.encode3.
  change 0x3F with (2 ^ 6 - 1). unbits.
  rewrite lead3 by arith. rewrite !trail by arith.
  repeat apply string_eq_val; try done; arith.
Qed.

Ltac decide_cmp :=
  repeat match goal with
  | |- context [?a <=? ?b] =>
    first [rewrite (proj2 (Z.leb_le a b)) by lia
          |rewrite (proj2 (Z.leb_gt a b)) by lia]
  | |- context [?a <? ?b] =>
    first [rewrite (proj2 (Z.ltb_lt a b)) by lia
          |rewrite (proj2 (Z.ltb_ge a b)) by lia]
  | |- context [?a =? ?b] =>
    first [rewrite (proj2 (Z.eqb_eq a b)) by lia
          |rewrite (proj2 (Z.eqb_neq a b)) by lia]
  end; cbn [andb orb negb].

Ltac bounds :=
  repeat match goal with
  | H : (_ && _)%bool = true |- _ => apply andb_prop in H as [? ?]
  | H : (_ || _)%bool = false |- _ => apply orb_false_elim in H as [? ?]
  | H : negb _ = false |- _ => apply negb_false_iff in H
  | H : (_ <=? _) = true |- _ => apply Z.leb_le in H
  | H : (_ <? _) = false |- _ => apply Z.ltb_ge in H
  | H : (_ =? _) = true |- _ => apply Z.eqb_eq in H
  end.

Lemma encode4_bytes c0 c1 c2 c3 r :
  r = (Octet.val c0 - 0xF0) * 262144 + (Octet.val c1 - 0x80) * 4096
      + (Octet.val c2 - 0x80) * 64 + (Octet.val c3 - 0x80) ->
  0xF0 <= Octet.val c0 <= 0xF4 -> 0x80 <= Octet.val c1 <= 0xBF ->
  0x80 <= Octet.val c2 <= 0xBF -> 0x80 <= Octet.val c3 <= 0xBF ->
  0x10000 <= r <= 0x10FFFF ->
  utf8.EncodeRune r
  = String c0 (String c1 (String c2 (String c3 EmptyString))).
Proof.
  intros Hr H0 H1 H2 H3 Hrange. unfold utf8.EncodeRune.
  unfold utf8.MaxRune, utf8.surrogateMin, utf8.surrogateMax.
  decide_cmp.
  change 0x3F with (2 ^ 6 - 1). unbits.
  rewrite lead4 by arith. rewrite !trail by arith.
  repeat apply string_eq_val; try done; arith.
Qed.

Lemma encode3_rune c0 c1 c2 r :
  r = (Octet.val c0 - 0xE0) * 4096 + (Octet.val c1 - 0x80) * 64
      + (Octet.val c2 - 0x80) ->
  0xE0 <= Octet.val c0 <= 0xEF -> 0x80 <= Octet.val c1 <= 0xBF ->
  0x80 <= Octet.val c2 <= 0xBF ->
  0x800 <= r -> ¬ (0xD800 <= r <= 0xDFFF) ->
  utf8.EncodeRune r = String c0 (String c1 (String c2 EmptyString)).
Proof.
  intros -> H0 H1 H2 Hlo Hsur. unfold utf8.EncodeRune.
  unfold utf8.MaxRune, utf8.surrogateMin, utf8.surrogateMax.
  decide_cmp.
  set (r := (Octet.val c0 - 224) * 4096 + (Octet.val c1 - 128) * 64
            + (Octet.val c2 - 128)) in *.
  destruct (Z.leb_spec 0xD800 r); destruct (Z.leb_spec r 0xDFFF);
  try lia; cbn [andb orb negb]; by apply encode3_bytes.
Qed.

Lemma first_cases b sz lo hi :
  utf8.first b = Some (sz, (lo, hi)) →
  (sz = 2%nat ∧ 0xC2 <= b <= 0xDF ∧ lo = 0x80 ∧ hi = 0xBF)
  ∨ (sz = 3%nat ∧ 0xE0 <= b <= 0xEF ∧ 0x80 <= lo ∧ hi <= 0xBF
     ∧ (b = 0xE0 → lo = 0xA0) ∧ (b = 0xED → hi = 0x9F))
  ∨ (sz = 4%nat ∧ 0xF0 <= b <= 0xF4 ∧ 0x80 <= lo ∧ hi <= 0xBF
     ∧ (b = 0xF0 → lo = 0x90) ∧ (b = 0xF4 → hi = 0x8F)).
Proof.
  unfold utf8.first. intros F.
  repeat match type of F with
  | (if ?b then _ else _) = _ =>
      let E := fresh "E" in destruct b eqn:E; [injection F as <- <- <-| ]
  end; try discriminate; bounds; lia.
Qed.

(** The well-formed multi-byte sequences are the only inputs on which
    [DecodeRune] does not answer [(RuneError, 1)]. *)
Lemma DecodeRune_inv c0 r0 r size :
  utf8.DecodeRune (String c0 r0) = (r, size) →
  0x80 <= Octet.val c0 →
  r ≠ utf8.RuneError ∨ size ≠ 1%nat →
  (∃ c1 r1, r0 = String c1 r1 ∧ size = 2%nat ∧ seq2 c0 c1 ∧ r = rune2 c0 c1)
  ∨ (∃ c1 c2 r2, r0 = String c1 (String c2 r2) ∧ size = 3%nat
       ∧ seq3 c0 c1 c2 ∧ r = rune3 c0 c1 c2)
  ∨ (∃ c1 c2 c3 r3, r0 = String c1 (String c2 (String c3 r3)) ∧ size = 4%nat
       ∧ seq4 c0 c1 c2 c3 ∧ r = rune4 c0 c1 c2 c3).
Proof.
  assert (Hbad : ∀ A : Prop, (utf8.RuneError, 1%nat) = (r, size) →
            0x80 <= Octet.val c0 → r ≠ utf8.RuneError ∨ size ≠ 1%nat → A).
  { intros A [= <- <-] _ [?|?]; done. }
  unfold utf8.DecodeRune, utf8.RuneSelf.
  pose proof (val_range c0) as R0.
  destruct (Z.ltb_spec (Octet.val c0) 128) as [A|A]; [lia|].
  destruct (utf8.first (Octet.val c0)) as [[sz [lo hi]]|] eqn:F; [|apply Hbad].
  destruct r0 as [|c1 r1]; [apply Hbad|].
  pose proof (val_range c1) as R1.
  destruct (Z.ltb_spec (Octet.val c1) lo) as [B|B]; cbn [orb]; [apply Hbad|].
  destruct (Z.ltb_spec hi (Octet.val c1)) as [B'|B']; [apply Hbad|].
  apply first_cases in F.
  destruct F as [(-> & H0 & -> & ->)|[(-> & H0 & Hlo & Hhi & HE0 & HED)
                                        |(-> & H0 & Hlo & Hhi & HF0 & HF4)]];
    cbn [Nat.leb].
  - intros [= <- <-] _ _. left. exists c1, r1.
    rewrite decode2 by lia. unfold seq2. done.
  - destruct r1 as [|c2 r2]; [apply Hbad|].
    pose proof (val_range c2) as R2. unfold utf8.cont.
    destruct (_ && _) eqn:C2; cbn [negb]; [|apply Hbad]. bounds.
    intros [= <- <-] _ _. right; left. exists c1, c2, r2.
    rewrite decode3 by lia. unfold seq3. repeat split; try done; lia.
  - destruct r1 as [|c2 r2]; [apply Hbad|].
    pose proof (val_range c2) as R2. unfold utf8.cont.
    destruct (_ && _) eqn:C2; cbn [negb]; [|apply Hbad]. bounds.
    destruct r2 as [|c3 r3]; [apply Hbad|].
    pose proof (val_range c3) as R3.
    destruct (_ && _) eqn:C3; cbn [negb]; [|apply Hbad]. bounds.
    intros [= <- <-] _ _. right; right. exists c1, c2, c3, r3.
    rewrite decode4 by lia. unfold seq4. repeat split; try done; lia.
Qed.

Lemma first_2 b : 0xC2 <= b <= 0xDF → utf8.first b = Some (2%nat, (0x80, 0xBF)).
Proof. intros. unfold utf8.first. by decide_cmp. Qed.

Lemma first_3 b :
  0xE0 <= b <= 0xEF →
  utf8.first b = Some (3%nat, (if b =? 0xE0 then 0xA0 else 0x80,
                               if b =? 0xED then 0x9F else 0xBF)).
Proof.
  intros. unfold utf8.first.
  assert (b = 0xE0 ∨ 0xE1 <= b <= 0xEC ∨ b = 0xED ∨ 0xEE <= b <= 0xEF)
    as [?|[?|[?|?]]] by lia; by decide_cmp.
Qed.

Lemma first_4 b :
  0xF0 <= b <= 0xF4 →
  utf8.first b = Some (4%nat, (if b =? 0xF0 then 0x90 else 0x80,
                               if b =? 0xF4 then 0x8F else 0xBF)).
Proof.
  intros. unfold utf8.first.
  assert (b = 0xF0 ∨ 0xF1 <= b <= 0xF3 ∨ b = 0xF4) as [?|[?|?]] by lia;
    by decide_cmp.
Qed.

Lemma DecodeRune_seq2 c0 c1 t :
  seq2 c0 c1 → utf8.DecodeRune (String c0 (String c1 t)) = (rune2 c0 c1, 2%nat).
Proof.
  intros [H0 H1]. unfold utf8.DecodeRune, utf8.RuneSelf.
  rewrite first_2 by done. decide_cmp. cbn [Nat.leb]. by rewrite decode2.
Qed.

Lemma DecodeRune_seq3 c0 c1 c2 t :
  seq3 c0 c1 c2 →
  utf8.DecodeRune (String c0 (String c1 (String c2 t))) = (rune3 c0 c1 c2, 3%nat).
Proof.
  intros (H0 & H1 & H2 & HE0 & HED). unfold utf8.DecodeRune, utf8.RuneSelf.
  rewrite first_3 by done.
  destruct (Z.eqb_spec (Octet.val c0) 0xE0); destruct (Z.eqb_spec (Octet.val c0) 0xED);
    try lia; cbv iota; unfold utf8.cont; decide_cmp; cbn [Nat.leb]; by rewrite decode3.
Qed.

Lemma DecodeRune_seq4 c0 c1 c2 c3 t :
  seq4 c0 c1 c2 c3 →
  utf8.DecodeRune (String c0 (String c1 (String c2 (String c3 t))))
  = (rune4 c0 c1 c2 c3, 4%nat).
Proof.
  intros (H0 & H1 & H2 & H3 & HF0 & HF4). unfold utf8.DecodeRune, utf8.RuneSelf.
  rewrite first_4 by done.
  destruct (Z.eqb_spec (Octet.val c0) 0xF0); destruct (Z.eqb_spec (Octet.val c0) 0xF4);
    try lia; cbv iota; unfold utf8.cont; decide_cmp; cbn [Nat.leb]; by rewrite decode4.
Qed.

Lemma EncodeRune_ascii c : Octet.val c < 0x80 → utf8.EncodeRune (Octet.val c) = String c "".
Proof.
  intros. pose proof (val_range c). unfold utf8.EncodeRune. decide_cmp.
  by rewrite of_Z_val.
Qed.

Lemma EncodeRune_seq2 c0 c1 :
  seq2 c0 c1 → utf8.EncodeRune (rune2 c0 c1) = String c0 (String c1 "").
Proof.
  intros [H0 H1]. unfold utf8.EncodeRune, rune2. decide_cmp.
  change 0x3F with (2 ^ 6 - 1). unbits.
  rewrite lead2 by arith. rewrite trail by arith.
  repeat apply string_eq_val; try done; arith.
Qed.

Lemma EncodeRune_seq3 c0 c1 c2 :
  seq3 c0 c1 c2 →
  utf8.EncodeRune (rune3 c0 c1 c2) = String c0 (String c1 (String c2 "")).
Proof.
  intros (H0 & H1 & H2 & HE0 & HED). apply encode3_rune; try done.
  - unfold rune3. lia.
  - unfold rune3. lia.
Qed.

Lemma EncodeRune_seq4 c0 c1 c2 c3 :
  seq4 c0 c1 c2 c3 →
  utf8.EncodeRune (rune4 c0 c1 c2 c3)
  = String c0 (String c1 (String c2 (String c3 ""))).
Proof.
  intros (H0 & H1 & H2 & H3 & HF0 & HF4). apply encode4_bytes; try done.
  unfold rune4. lia.
Qed.

(** ** Strings *)
Lemma String_app_cons c s t : String c s +:+ t = String c (s +:+ t).
Proof. reflexivity. Qed.

Lemma String_app_nil_r s : s +:+ "" = s.
Proof. induction s as [|c s IH]; [done|]. by rewrite String_app_cons, IH. Qed.

Lemma String_app_assoc (a b c : string) : (a +:+ b) +:+ c = a +:+ (b +:+ c).
Proof. induction a as [|x a IH]; [done|]. by rewrite !String_app_cons, IH. Qed.

Lemma String_length_app a b : String.length (a +:+ b) = (String.length a + String.length b)%nat.
Proof. induction a as [|x a IH]; [done|]. rewrite String_app_cons. simpl. by rewrite IH. Qed.

Lemma firstn_skipn_string n s : firstn_string n s +:+ skipn_string n s = s.
Proof.
  revert s. induction n as [|n IH]; intros [|c s]; try done.
  simpl. by rewrite String_app_cons, IH.
Qed.

Lemma emit_emitn pre o : json.emit pre o = emitn pre 1 o.
Proof. by destruct o as [[??]|]. Qed.

Lemma emitn_emitn p q k l o :
  emitn p k (emitn q l o) = emitn (p +:+ q) (k + l) o.
Proof.
  destruct o as [[??]|]; [|done]. simpl. rewrite String_app_assoc. do 2 f_equal. lia.
Qed.

(** Bytes already consumed by a multi-byte step are passed over. *)
Lemma unquote_skip a Y :
  json.unquote (String.length a) (a +:+ Y) = emitn "" (String.length a) (json.unquote 0 Y).
Proof.
  induction a as [|c a IH].
  - change ("" +:+ Y) with Y. cbn [String.length].
    by destruct (json.unquote 0 Y) as [[??]|].
  - rewrite String_app_cons. cbn [String.length json.unquote].
    rewrite IH, emit_emitn, emitn_emitn. done.
Qed.

Lemma eqb_val_ne c d : Octet.val c ≠ Octet.val d → Ascii.eqb c d = false.
Proof. intros H. apply Ascii.eqb_neq. by intros ->. Qed.

Lemma unquote_multibyte c r :
  0x80 <= Octet.val c →
  json.unquote 0 (String c r)
  = let '(rr, size) := utf8.DecodeRune (String c r) in
    json.emit (utf8.EncodeRune rr) (json.unquote (size - 1) r).
Proof.
  intros H. cbn [json.unquote].
  rewrite (eqb_val_ne c json.quote) by (change (Octet.val json.quote) with 34; lia).
  rewrite (eqb_val_ne c json.backslash) by (change (Octet.val json.backslash) with 92; lia).
  unfold utf8.RuneSelf. by decide_cmp.
Qed.

Lemma unquote_seq2 c0 c1 Y :
  seq2 c0 c1 →
  json.unquote 0 (String c0 (String c1 Y))
  = emitn (String c0 (String c1 "")) 2 (json.unquote 0 Y).
Proof.
  intros H. rewrite unquote_multibyte by (destruct H; lia).
  rewrite DecodeRune_seq2, EncodeRune_seq2 by done.
  change (String c1 Y) with (String c1 "" +:+ Y).
  change (2 - 1)%nat with (String.length (String c1 "")).
  rewrite unquote_skip, emit_emitn, emitn_emitn. done.
Qed.

Lemma unquote_seq3 c0 c1 c2 Y :
  seq3 c0 c1 c2 →
  json.unquote 0 (String c0 (String c1 (String c2 Y)))
  = emitn (String c0 (String c1 (String c2 ""))) 3 (json.unquote 0 Y).
Proof.
  intros H. rewrite unquote_multibyte by (destruct H; lia).
  rewrite DecodeRune_seq3, EncodeRune_seq3 by done.
  change (String c1 (String c2 Y)) with (String c1 (String c2 "") +:+ Y).
  change (3 - 1)%nat with (String.length (String c1 (String c2 ""))).
  rewrite unquote_skip, emit_emitn, emitn_emitn. done.
Qed.

Lemma unquote_seq4 c0 c1 c2 c3 Y :
  seq4 c0 c1 c2 c3 →
  json.unquote 0 (String c0 (String c1 (String c2 (String c3 Y))))
  = emitn (String c0 (String c1 (String c2 (String c3 "")))) 4 (json.unquote 0 Y).
Proof.
  intros H. rewrite unquote_multibyte by (destruct H; lia).
  rewrite DecodeRune_seq4, EncodeRune_seq4 by done.
  change (String c1 (String c2 (String c3 Y)))
    with (String c1 (String c2 (String c3 "")) +:+ Y).
  change (4 - 1)%nat with (String.length (String c1 (String c2 (String c3 "")))).
  rewrite unquote_skip, emit_emitn, emitn_emitn. done.
Qed.

Lemma unquote_u4 h1 h2 h3 h4 Y rr :
  json.getu4 (String json.backslash (String "u"
                (String h1 (String h2 (String h3 (String h4 ""))))))
  = rr →
  0 <= rr → utf16.IsSurrogate rr = false →
  json.unquote 0 (String json.backslash (String "u"
                    (String h1 (String h2 (String h3 (String h4 Y))))))
  = emitn (utf8.EncodeRune rr) 6 (json.unquote 0 Y).
Proof.
  intros Hrr Hpos Hsur.
  cbn [json.unquote].
  change (Ascii.eqb json.backslash json.quote) with false.
  change (Ascii.eqb json.backslash json.backslash) with true.
  change (json.unescape "u") with (@None ascii).
  change (Ascii.eqb "u" "u") with true. cbv iota.
  change (json.getu4 (String json.backslash (String "u"
            (String h1 (String h2 (String h3 (String h4 Y)))))))
    with (json.getu4 (String json.backslash (String "u"
            (String h1 (String h2 (String h3 (String h4 ""))))))).
  rewrite Hrr. rewrite (proj2 (Z.ltb_ge rr 0)) by done. rewrite Hsur.
  by destruct (json.unquote 0 Y) as [[t n]|].
Qed.

Lemma unquote_replacement Y :
  json.unquote 0 (replacement +:+ Y)
  = emitn (utf8.EncodeRune utf8.RuneError) 6 (json.unquote 0 Y).
Proof. by apply unquote_u4. Qed.

Lemma unquote_safe c Y :
  json.htmlSafe (Octet.val c) = true →
  json.unquote 0 (String c "" +:+ Y) = emitn (String c "") 1 (json.unquote 0 Y).
Proof.
  change (String c "" +:+ Y) with (String c Y).
  unfold json.htmlSafe. intros H. bounds.
  repeat match goal with
  | H : (_ =? _) = false |- _ => apply Z.eqb_neq in H
  | H : (_ <? _) = true |- _ => apply Z.ltb_lt in H
  end.
  cbn [json.unquote].
  rewrite (eqb_val_ne c json.quote) by (change (Octet.val json.quote) with 34; lia).
  rewrite (eqb_val_ne c json.backslash) by (change (Octet.val json.backslash) with 92; lia).
  unfold utf8.RuneSelf. decide_cmp. by rewrite emit_emitn.
Qed.

Lemma unquote_esc2 e x Y :
  json.unescape e = Some x →
  json.unquote 0 (String json.backslash (String e Y))
  = emitn (String x "") 2 (json.unquote 0 Y).
Proof.
  intros H. cbn [json.unquote].
  change (Ascii.eqb json.backslash json.quote) with false.
  change (Ascii.eqb json.backslash json.backslash) with true.
  rewrite H. cbv iota.
  by destruct (json.unquote 0 Y) as [[t n]|].
Qed.

Lemma unhex_hex n : 0 <= n < 16 → json.unhex (json.hex n) = n.
Proof.
  intros H.
  assert (n = 0 ∨ n = 1 ∨ n = 2 ∨ n = 3 ∨ n = 4 ∨ n = 5 ∨ n = 6 ∨ n = 7 ∨ n = 8
          ∨ n = 9 ∨ n = 10 ∨ n = 11 ∨ n = 12 ∨ n = 13 ∨ n = 14 ∨ n = 15)
    as Hn by lia.
  repeat (destruct Hn as [->|Hn]; [reflexivity|]). by subst.
Qed.

Lemma val_eq c x : Octet.val c = x → c = Octet.of_Z x.
Proof. intros <-. by rewrite of_Z_val. Qed.

Lemma unquote_escape c Y :
  Octet.val c < 0x80 → json.htmlSafe (Octet.val c) = false →
  json.unquote 0 (json.escape c +:+ Y)
  = emitn (String c "") (String.length (json.escape c)) (json.unquote 0 Y).
Proof.
  intros Hc Hsafe. pose proof (val_range c) as R. unfold json.escape.
  destruct (Z.eqb_spec (Octet.val c) 0x5C) as [E|N1]; cbn [orb].
  { apply unquote_esc2. unfold json.unescape. rewrite E. reflexivity. }
  destruct (Z.eqb_spec (Octet.val c) 0x22) as [E|N2].
  { apply unquote_esc2. unfold json.unescape. rewrite E. reflexivity. }
  destruct (Z.eqb_spec (Octet.val c) 0x08) as [E|N3].
  { apply val_eq in E as ->. by apply unquote_esc2. }
  destruct (Z.eqb_spec (Octet.val c) 0x0C) as [E|N4].
  { apply val_eq in E as ->. by apply unquote_esc2. }
  destruct (Z.eqb_spec (Octet.val c) 0x0A) as [E|N5].
  { apply val_eq in E as ->. by apply unquote_esc2. }
  destruct (Z.eqb_spec (Octet.val c) 0x0D) as [E|N6].
  { apply val_eq in E as ->. by apply unquote_esc2. }
  destruct (Z.eqb_spec (Octet.val c) 0x09) as [E|N7].
  { apply val_eq in E as ->. by apply unquote_esc2. }
  change 0xF with (2 ^ 4 - 1). unbits.
  change (("\u00" +:+ String (json.hex (Octet.val c / 16))
                        (String (json.hex (Octet.val c mod 16)) "")) +:+ Y)
    with (String json.backslash (String "u" (String "0" (String "0"
           (String (json.hex (Octet.val c / 16))
              (String (json.hex (Octet.val c mod 16)) Y)))))).
  rewrite (unquote_u4 _ _ _ _ _ (Octet.val c)).
  - by rewrite EncodeRune_ascii.
  - unfold json.getu4.
    change (Ascii.eqb json.backslash json.backslash && Ascii.eqb "u" "u") with true.
    cbv iota. change (json.unhex "0") with 0.
    assert (0 <= Octet.val c / 16 < 16) by arith.
    assert (0 <= Octet.val c mod 16 < 16) by arith.
    rewrite !unhex_hex by done. decide_cmp. arith.
  - lia.
  - unfold utf16.IsSurrogate, utf16.surr1, utf16.surr3. by decide_cmp.
Qed.

Lemma unquote_lineSep r Y :
  r = 0x2028 ∨ r = 0x2029 →
  json.unquote 0 (("\u202" +:+ String (json.hex (Z.land r 0xF)) "") +:+ Y)
  = emitn (utf8.EncodeRune r) 6 (json.unquote 0 Y).
Proof. intros [-> | ->]; by apply unquote_u4. Qed.

Lemma emitn_Some p k t n : emitn p k (Some (t, n)) = Some (p +:+ t, (k + n)%nat).
Proof. done. Qed.

(** What the encoder writes between the quotes of a string is read back by
    the decoder as the string coerced to valid UTF-8. *)
Lemma unquote_appendBody s k Y :
  json.unquote 0 (json.appendBody k s +:+ String json.quote Y)
  = Some (json.coerce_from k s, S (String.length (json.appendBody k s))).
Proof.
  revert k Y. induction s as [|c rest IH]; intros k Y; [done|].
  destruct k as [|k]; [|apply IH].
  cbn [json.appendBody json.coerce_from].
  destruct (Z.ltb_spec (Octet.val c) utf8.RuneSelf) as [A|A].
  - (* ASCII *)
    unfold utf8.RuneSelf in A. pose proof (val_range c).
    assert (utf8.DecodeRune (String c rest) = (Octet.val c, 1%nat)) as ->.
    { unfold utf8.DecodeRune, utf8.RuneSelf. by decide_cmp. }
    unfold utf8.RuneError. decide_cmp. cbn [firstn_string Nat.sub].
    rewrite String_app_assoc, String_length_app.
    destruct (json.htmlSafe (Octet.val c)) eqn:Hsafe.
    + by rewrite unquote_safe, IH, emitn_Some.
    + by rewrite unquote_escape, IH, emitn_Some, Nat.add_succ_r.
  - destruct (utf8.DecodeRune (String c rest)) as [r size] eqn:D.
    destruct ((r =? utf8.RuneError) && (size =? 1)%nat) eqn:Inv.
    + rewrite String_app_assoc, String_length_app.
      change (String json.backslash "ufffd") with replacement.
      by rewrite unquote_replacement, IH, emitn_Some.
    + assert (r ≠ utf8.RuneError ∨ size ≠ 1%nat) as Hvalid.
      { apply andb_false_iff in Inv as [?%Z.eqb_neq|?%Nat.eqb_neq]; auto. }
      unfold utf8.RuneSelf in A.
      assert (utf8.EncodeRune r = firstn_string size (String c rest)
              ∧ ∀ Z, json.unquote 0 (firstn_string size (String c rest) +:+ Z)
                     = emitn (firstn_string size (String c rest)) size
                         (json.unquote 0 Z)) as [HE HU].
      { destruct (DecodeRune_inv _ _ _ _ D A Hvalid)
          as [(c1 & r1 & -> & -> & Hs & ->)
             |[(c1 & c2 & r2 & -> & -> & Hs & ->)
              |(c1 & c2 & c3 & r3 & -> & -> & Hs & ->)]];
          cbn [firstn_string]; split.
        - by apply EncodeRune_seq2.
        - intros Z. by apply unquote_seq2.
        - by apply EncodeRune_seq3.
        - intros Z. by apply unquote_seq3.
        - by apply EncodeRune_seq4.
        - intros Z. by apply unquote_seq4. }
      assert (String.length (firstn_string size (String c rest)) = size) as Hlen.
      { destruct (DecodeRune_inv _ _ _ _ D A Hvalid)
          as [(c1 & r1 & -> & -> & Hs & ->)
             |[(c1 & c2 & r2 & -> & -> & Hs & ->)
              |(c1 & c2 & c3 & r3 & -> & -> & Hs & ->)]]; done. }
      destruct ((r =? 0x2028) || (r =? 0x2029)) eqn:Sep.
      * rewrite <- HE. rewrite <- String_app_assoc.
        rewrite String_app_assoc, String_length_app.
        rewrite unquote_lineSep, IH, emitn_Some.
        2:{ apply orb_true_iff in Sep as [?%Z.eqb_eq|?%Z.eqb_eq]; auto. }
        done.
      * rewrite String_app_assoc, String_length_app, HU, IH, emitn_Some, Hlen.
        by rewrite Nat.add_succ_r.
Qed.

Lemma scan_skip a ph db Y :
  json.scan (String.length a) ph db (a +:+ Y) = json.scan 0 ph db Y.
Proof.
  induction a as [|c a IH]; [done|]. by rewrite String_app_cons.
Qed.

Lemma scan_skip_quote a ph db Y :
  json.scan (S (String.length a)) ph db (a +:+ String json.quote Y)
  = json.scan 0 ph db Y.
Proof.
  change (String json.quote Y) with (String json.quote "" +:+ Y).
  rewrite <- String_app_assoc.
  replace (S (String.length a))
    with (String.length (a +:+ String json.quote "")).
  - apply scan_skip.
  - rewrite String_length_app. simpl. lia.
Qed.

Lemma scan_key ph s db Y :
  ph = json.beginStringOrEmpty ∨ ph = json.beginString →
  json.scan 0 ph db (json.appendString s +:+ Y)
  = json.scan 0 (json.endKey (json.coerce s)) db Y.
Proof.
  intros Hph. unfold json.appendString. rewrite String_app_cons, String_app_assoc, String_app_cons.
  change ("" +:+ Y) with Y.
  destruct Hph as [-> | ->]; cbn [json.scan];
    change (json.isSpace json.quote) with false;
    change (Ascii.eqb json.quote json.quote) with true;
    try change (Ascii.eqb json.quote "}") with false;
    cbv iota; rewrite unquote_appendBody; apply scan_skip_quote.
Qed.

Lemma scan_value k s db Y :
  json.scan 0 (json.beginMember k) db (json.appendString s +:+ Y)
  = json.scan 0 json.endValue (<[k := json.coerce s]> db) Y.
Proof.
  unfold json.appendString. rewrite String_app_cons, String_app_assoc, String_app_cons.
  change ("" +:+ Y) with Y.
  cbn [json.scan].
  change (json.isSpace json.quote) with false.
  change (Ascii.eqb json.quote json.quote) with true.
  cbv iota. rewrite unquote_appendBody. apply scan_skip_quote.
Qed.

Lemma scan_member ph k v db Y :
  ph = json.beginStringOrEmpty ∨ ph = json.beginString →
  json.scan 0 ph db (json.appendString k +:+ ":" +:+ json.appendString v +:+ Y)
  = json.scan 0 json.endValue (json.ins db (k, v)) Y.
Proof.
  intros Hph. rewrite scan_key by done.
  change (json.scan 0 (json.endKey (json.coerce k)) db (":" +:+ json.appendString v +:+ Y))
    with (json.scan 0 (json.beginMember (json.coerce k)) db (json.appendString v +:+ Y)).
  by rewrite scan_value.
Qed.

(** The members of an object, as [appendMembers] writes them, are stored in
    the order of the text; the closing brace ends the value and what follows
    it is not read. *)
Lemma scan_members kvs ph db Y :
  kvs ≠ [] →
  ph = json.beginStringOrEmpty ∨ ph = json.beginString →
  json.scan 0 ph db (json.appendMembers kvs +:+ "}" +:+ Y)
  = Ok (Some (foldl json.ins db kvs)).
Proof.
  revert ph db. induction kvs as [|[k v] kvs IH]; intros ph db Hne Hph; [done|].
  destruct kvs as [|kv kvs].
  - cbn [json.appendMembers foldl]. rewrite !String_app_assoc.
    by rewrite scan_member.
  - change (json.appendMembers ((k, v) :: kv :: kvs))
      with (json.appendString k +:+ ":" +:+ json.appendString v +:+ ","
            +:+ json.appendMembers (kv :: kvs)).
    rewrite !String_app_assoc. rewrite scan_member by done.
    change (json.scan 0 json.endValue (json.ins db (k, v))
              ("," +:+ json.appendMembers (kv :: kvs) +:+ "}" +:+ Y))
      with (json.scan 0 json.beginString (json.ins db (k, v))
              (json.appendMembers (kv :: kvs) +:+ "}" +:+ Y)).
    rewrite IH by auto. done.
Qed.

(** [Decode] after [Encode]: the first value of the stream is the encoded
    map, with keys and values coerced to valid UTF-8, whatever follows it. *)
Lemma Decode_Encode m Y :
  json.Decode (json.Encode (Some m) +:+ Y) = Ok (Some (json.recode m)).
Proof.
  unfold json.Decode, json.Encode, json.Marshal, json.recode.
  rewrite !String_app_assoc.
  change (json.scan 0 json.beginValue ∅ ("{" +:+ ?x))
    with (json.scan 0 json.beginStringOrEmpty ∅ x).
  destruct (merge_sort json.key_le (map_to_list m)) as [|kv kvs] eqn:E.
  - reflexivity.
  - by rewrite scan_members by auto.
Qed.

Lemma DecodeRune_size c rest r size :
  utf8.DecodeRune (String c rest) = (r, size) → (1 <= size)%nat.
Proof.
  destruct (Z.ltb_spec (Octet.val c) 0x80) as [A|A].
  - unfold utf8.DecodeRune, utf8.RuneSelf. decide_cmp. intros [= <- <-]. lia.
  - intros D. destruct (decide (r ≠ utf8.RuneError ∨ size ≠ 1%nat)) as [Hv|Hv].
    + destruct (DecodeRune_inv _ _ _ _ D A Hv)
          as [(c1 & r1 & -> & -> & Hs & ->)
             |[(c1 & c2 & r2 & -> & -> & Hs & ->)
              |(c1 & c2 & c3 & r3 & -> & -> & Hs & ->)]]; lia.
    + destruct (decide (size = 1%nat)); [lia|]. destruct Hv. by right.
Qed.

Lemma coerce_from_valid s :
  ∀ k, utf8.ValidString_from k s = true → json.coerce_from k s = skipn_string k s.
Proof.
  induction s as [|c rest IH]; intros k; [by destruct k|].
  destruct k as [|k]; [|apply IH].
  cbn [utf8.ValidString_from json.coerce_from skipn_string].
  destruct (utf8.DecodeRune (String c rest)) as [r size] eqn:D.
  destruct ((r =? utf8.RuneError) && (size =? 1)%nat); [done|].
  intros Hv. rewrite IH by done.
  apply DecodeRune_size in D. destruct size as [|size]; [lia|].
  cbn [firstn_string]. rewrite String_app_cons. f_equal.
  replace (S size - 1)%nat with size by lia. apply firstn_skipn_string.
Qed.

(** Valid UTF-8 is written as it is. *)
Lemma coerce_valid s : utf8.ValidString s = true → json.coerce s = s.
Proof. apply coerce_from_valid. Qed.

Lemma coerce_nil_inv s : json.coerce s = "" → s = "".
Proof.
  destruct s as [|c rest]; [done|]. unfold json.coerce. cbn [json.coerce_from].
  destruct (utf8.DecodeRune (String c rest)) as [r size] eqn:D.
  destruct ((r =? utf8.RuneError) && (size =? 1)%nat); [done|].
  apply DecodeRune_size in D. destruct size as [|size]; [lia|]. done.
Qed.

(** ** The map read back from an encoding *)
Lemma foldl_ins_list_to_map l :
  foldl json.ins ∅ l = list_to_map (reverse (cpair <$> l)).
Proof.
  induction l as [|kv l IH] using rev_ind; [done|].
  rewrite foldl_snoc, fmap_app, reverse_app, IH. done.
Qed.

Lemma recode_lookup m k v :
  m !! k = Some v →
  (∀ k', is_Some (m !! k') → json.coerce k' = json.coerce k → k' = k) →
  json.recode m !! json.coerce k = Some (json.coerce v).
Proof.
  intros Hk Huniq. unfold json.recode. rewrite foldl_ins_list_to_map.
  assert (Hin : ∀ x, x ∈ merge_sort json.key_le (map_to_list m) ↔ m !! x.1 = Some x.2).
  { intros [k' v']. rewrite merge_sort_Permutation. apply elem_of_map_to_list. }
  apply elem_of_list_to_map_1'.
  - intros y. rewrite elem_of_reverse, list_elem_of_fmap.
    intros ([k' v'] & [= Hk' ->] & Hx). apply Hin in Hx. simpl in *.
    assert (k' = k) as -> by (apply Huniq; [by eexists|done]). congruence.
  - rewrite elem_of_reverse, list_elem_of_fmap. exists (k, v). split; [done|].
    by apply Hin.
Qed.

(** A map of valid UTF-8 strings is read back unchanged. *)
Lemma recode_valid m :
  (∀ k v, m !! k = Some v → utf8.ValidString k = true ∧ utf8.ValidString v = true) →
  json.recode m = m.
Proof.
  intros Hvalid. apply map_eq. intros k.
  destruct (m !! k) as [v|] eqn:Hk.
  - destruct (Hvalid k v Hk) as [Vk Vv].
    rewrite <- (coerce_valid k) at 1 by done. rewrite <- (coerce_valid v) by done.
    apply recode_lookup; [done|].
    intros k' [v' Hk'] Heq. destruct (Hvalid k' v' Hk') as [Vk' _].
    by rewrite !coerce_valid in Heq.
  - unfold json.recode. rewrite foldl_ins_list_to_map.
    apply not_elem_of_list_to_map_1. rewrite list_elem_of_fmap.
    intros ([k1 v1] & -> & Hx). rewrite elem_of_reverse, list_elem_of_fmap in Hx.
    destruct Hx as ([k' v'] & [= -> ->] & Hx).
    rewrite merge_sort_Permutation in Hx. apply elem_of_map_to_list in Hx.
    simpl in *. destruct (Hvalid k' v' Hx) as [Vk' _].
    rewrite coerce_valid in Hk by done. congruence.
Qed.

(** ** Files: [loadDb] and [saveDb] *)

Lemma pwrite_0 b old :
  os.pwrite 0 b old = b +:+ skipn_string (String.length b) old.
Proof. unfold os.pwrite, os.resize. by destruct old. Qed.

Lemma createDb_missing s w :
  files w !! DatabaseFilePath s = None →
  may_create w (DatabaseFilePath s) = true →
  createDb s w
  = (Ok (os.mkFile (DatabaseFilePath s) 2 true true),
     set_files (<[DatabaseFilePath s := Inode "{}" true true]> (files w)) w).
Proof.
  intros Hnone Hcreate. unfold createDb, os.Create. rewrite Hnone, Hcreate.
  unfold os.Truncate. cbn [os.name os.wr files set_files].
  rewrite lookup_insert_eq. cbn [os.wr].
  unfold os.Write. cbn [os.name os.wr os.rd os.offset files set_files].
  rewrite lookup_insert_eq. cbn [data readable writable].
  rewrite !insert_insert_eq. reflexivity.
Qed.

Lemma loadDb_missing s w :
  files w !! DatabaseFilePath s = None →
  may_create w (DatabaseFilePath s) = true →
  loadDb s w
  = (Err (loadErr io_EOF),
     set_files (<[DatabaseFilePath s := Inode "{}" true true]> (files w)) w).
Proof.
  intros Hnone Hcreate. unfold loadDb, os.Open. rewrite Hnone.
  rewrite createDb_missing by done.
  unfold decodeFile, os.ReadAll. cbn [os.name os.rd os.offset files set_files].
  rewrite lookup_insert_eq. reflexivity.
Qed.

Lemma loadDb_uncreatable s w :
  files w !! DatabaseFilePath s = None →
  may_create w (DatabaseFilePath s) = false →
  loadDb s w
  = (Err (loadErr (createErr (DatabaseFilePath s)
                     (PathError "open" (DatabaseFilePath s) EACCES))), w).
Proof.
  intros Hnone Hcreate. unfold loadDb, os.Open, createDb, os.Create.
  by rewrite Hnone, Hcreate.
Qed.

Lemma loadDb_unreadable s w i :
  files w !! DatabaseFilePath s = Some i →
  readable i = false →
  loadDb s w
  = (Err (loadErr (createErr (DatabaseFilePath s)
                     (PathError "open" (DatabaseFilePath s) EACCES))), w).
Proof.
  intros Hsome Hr. unfold loadDb, os.Open, createDb, os.Create.
  by rewrite Hsome, Hr.
Qed.

Lemma loadDb_existing s w i :
  files w !! DatabaseFilePath s = Some i →
  readable i = true →
  loadDb s w
  = (match json.Decode (data i) with
     | Err err => Err (loadErr err)
     | Ok db => Ok db
     end, w).
Proof.
  intros Hsome Hr. unfold loadDb, os.Open. rewrite Hsome, Hr.
  unfold decodeFile, os.ReadAll. cbn [os.name os.rd os.offset].
  rewrite Hsome. cbn [skipn_string].
  by destruct (json.Decode (data i)).
Qed.

(** A load that succeeds has read an existing file and has changed
    nothing. *)
Lemma loadDb_Ok_inv s w db w' :
  loadDb s w = (Ok db, w') →
  w' = w ∧ ∃ i, files w !! DatabaseFilePath s = Some i ∧ readable i = true
              ∧ json.Decode (data i) = Ok db.
Proof.
  destruct (files w !! DatabaseFilePath s) as [i|] eqn:Hf.
  - destruct (readable i) eqn:Hr.
    + rewrite (loadDb_existing _ _ _ Hf Hr).
      destruct (json.Decode (data i)) eqn:Hd; intros [= <- <-]. eauto.
    + by rewrite (loadDb_unreadable _ _ _ Hf Hr).
  - destruct (may_create w (DatabaseFilePath s)) eqn:Hc.
    + by rewrite (loadDb_missing _ _ Hf Hc).
    + by rewrite (loadDb_uncreatable _ _ Hf Hc).
Qed.

(** What a load can do to the files: nothing, or create the missing
    database file with an empty object. *)
Lemma loadDb_files s w :
  files (loadDb s w).2 = files w
  ∨ (files w !! DatabaseFilePath s = None
     ∧ files (loadDb s w).2 = <[DatabaseFilePath s := Inode "{}" true true]> (files w)).
Proof.
  destruct (files w !! DatabaseFilePath s) as [i|] eqn:Hf.
  - destruct (readable i) eqn:Hr.
    + rewrite (loadDb_existing _ _ _ Hf Hr). by left.
    + rewrite (loadDb_unreadable _ _ _ Hf Hr). by left.
  - destruct (may_create w (DatabaseFilePath s)) eqn:Hc.
    + rewrite (loadDb_missing _ _ Hf Hc). by right.
    + rewrite (loadDb_uncreatable _ _ Hf Hc). by left.
Qed.

Lemma loadDb_frame s w :
  may_create (loadDb s w).2 = may_create w ∧ now (loadDb s w).2 = now w
  ∧ endpoint (loadDb s w).2 = endpoint w ∧ posts (loadDb s w).2 = posts w
  ∧ logged (loadDb s w).2 = logged w.
Proof.
  destruct (files w !! DatabaseFilePath s) as [i|] eqn:Hf.
  - destruct (readable i) eqn:Hr.
    + by rewrite (loadDb_existing _ _ _ Hf Hr).
    + by rewrite (loadDb_unreadable _ _ _ Hf Hr).
  - destruct (may_create w (DatabaseFilePath s)) eqn:Hc.
    + by rewrite (loadDb_missing _ _ Hf Hc).
    + by rewrite (loadDb_uncreatable _ _ Hf Hc).
Qed.

Lemma saveDb_existing s db w i :
  files w !! DatabaseFilePath s = Some i →
  writable i = true →
  saveDb s db w
  = (None,
     set_files (<[DatabaseFilePath s :=
                    Inode (json.Encode db
                           +:+ skipn_string (String.length (json.Encode db)) (data i))
                          (readable i) true]> (files w)) w).
Proof.
  intros Hsome Hw. unfold saveDb, os.OpenFile_WRONLY. rewrite Hsome, Hw.
  unfold os.Write. cbn [os.name os.wr os.offset]. rewrite Hsome.
  by rewrite pwrite_0, Hw.
Qed.

Lemma saveDb_None_inv s db w w' :
  saveDb s db w = (None, w') →
  ∃ i, files w !! DatabaseFilePath s = Some i ∧ writable i = true.
Proof.
  unfold saveDb, os.OpenFile_WRONLY.
  destruct (files w !! DatabaseFilePath s) as [i|] eqn:Hf; [|done].
  destruct (writable i) eqn:Hw; [eauto|done].
Qed.

(** ** The dedup decision *)
Lemma inDb_loaded s hash w db w' :
  loadDb s w = (Ok db, w') → inDb s hash w = (inRecord db hash, w).
Proof.
  intros Hl. destruct (loadDb_Ok_inv _ _ _ _ Hl) as [-> _].
  unfold inDb. rewrite Hl. destruct db as [m|]; [|done].
  cbn [inRecord]. destruct (m !! hash) eqn:E.
  - by rewrite bool_decide_true.
  - rewrite bool_decide_false; [done|]. by intros [? ?].
Qed.

Lemma inDb_failed s hash w err w' :
  loadDb s w = (Err err, w') →
  inDb s hash w
  = (false, Log_Printf s "Slacker failed to load database: %s" [arg_error err] w').
Proof. intros Hl. unfold inDb. by rewrite Hl. Qed.

Lemma needToSend_always s hash w :
  Frequency s = NotifyAlways → needToSend s hash w = (true, w).
Proof. intros H. unfold needToSend. by rewrite decide_True. Qed.

Lemma needToSend_loaded s hash w db w' :
  Frequency s ≠ NotifyAlways →
  loadDb s w = (Ok db, w') →
  needToSend s hash w = (negb (inRecord db hash), w).
Proof.
  intros H Hl. unfold needToSend. rewrite decide_False by done.
  rewrite (inDb_loaded _ _ _ _ _ Hl). by destruct (inRecord db hash).
Qed.

Lemma needToSend_failed s hash w err w' :
  Frequency s ≠ NotifyAlways →
  loadDb s w = (Err err, w') →
  needToSend s hash w
  = (true, Log_Printf s "Slacker failed to load database: %s" [arg_error err] w').
Proof.
  intros H Hl. unfold needToSend. rewrite decide_False by done.
  by rewrite (inDb_failed _ _ _ _ _ Hl).
Qed.

Lemma needToSend_files s hash w :
  files (needToSend s hash w).2 = files (loadDb s w).2
  ∨ files (needToSend s hash w).2 = files w.
Proof.
  destruct (decide (Frequency s = NotifyAlways)) as [H|H].
  - rewrite needToSend_always by done. by right.
  - destruct (loadDb s w) as [[db|err] w'] eqn:Hl.
    + rewrite (needToSend_loaded _ _ _ _ _ H Hl). by right.
    + rewrite (needToSend_failed _ _ _ _ _ H Hl). by left.
Qed.

(** A refusal of the dedup decision comes from a load that has succeeded,
    and leaves the world as it was. *)
Lemma needToSend_false_inv s hash w w' :
  needToSend s hash w = (false, w') →
  w' = w ∧ Frequency s ≠ NotifyAlways
  ∧ ∃ db, loadDb s w = (Ok db, w) ∧ inRecord db hash = true.
Proof.
  destruct (decide (Frequency s = NotifyAlways)) as [H|H].
  { by rewrite needToSend_always. }
  destruct (loadDb s w) as [[db|err] w1] eqn:Hl.
  - rewrite (needToSend_loaded _ _ _ _ _ H Hl).
    destruct (loadDb_Ok_inv _ _ _ _ Hl) as [-> _].
    destruct (inRecord db hash) eqn:E; intros [= <-]; eauto.
  - by rewrite (needToSend_failed _ _ _ _ _ H Hl).
Qed.

(** The dedup decision leaves every file that exists as it is. *)
Lemma needToSend_keeps_files s hash w p i :
  files w !! p = Some i → files (needToSend s hash w).2 !! p = Some i.
Proof.
  intros Hp.
  destruct (needToSend_files s hash w) as [-> | ->]; [|done].
  destruct (loadDb_files s w) as [-> | [Hnone ->]]; [done|].
  rewrite lookup_insert_ne; [done|]. intros <-. congruence.
Qed.

(** ** Delivery *)
Lemma send_reply s sm w :
  send s sm w
  = (match rejection (endpoint w (posts w) (POST (Hook s) "string" (SlackMessage.Marshal sm))) with
     | Some err => Err err
     | None => Ok "ok"
     end,
     add_post (POST (Hook s) "string" (SlackMessage.Marshal sm)) w).
Proof.
  unfold send, rejection.
  destruct (endpoint w (posts w) _) as [e|e|b]; try done.
  destruct (decide (b ≠ "ok")) as [|Hb]; [done|].
  apply dec_stable in Hb. by subst.
Qed.

Lemma sendEach_cons s m sm r to w :
  fitted s sm →
  sendEach s m sm (r :: to) w
  = match rejection (endpoint w (posts w) (requestFor s m r)) with
    | Some err =>
      (Some err,
       Log_Printf s "Slacker failed to send message: %s" [arg_error err]
                  (add_post (requestFor s m r) w))
    | None =>
      sendEach s m (messageFor s m r) to
        (add_log (sentLine s m) (add_post (requestFor s m r) w))
    end.
Proof.
  intros [Hu Hi]. cbn [sendEach]. rewrite send_reply.
  unfold requestFor, messageFor. rewrite Hu, Hi.
  by destruct (rejection _).
Qed.

Lemma accepted_ext w w' h reqs :
  endpoint w' = endpoint w → accepted w' h reqs ↔ accepted w h reqs.
Proof.
  intros He. revert h. induction reqs as [|q reqs IH]; intros h; [done|].
  cbn [accepted]. by rewrite He, IH.
Qed.

Lemma rejection_ok : rejection (Body "ok") = None.
Proof. done. Qed.

(** The loop over recipients that are all accepted. *)
Lemma sendEach_accepted s m pre rest sm w :
  fitted s sm →
  accepted w (posts w) (requestFor s m <$> pre) →
  ∃ sm' w', fitted s sm'
    ∧ sendEach s m sm (pre ++ rest) w = sendEach s m sm' rest w'
    ∧ posts w' = posts w ++ (requestFor s m <$> pre)
    ∧ logged w' = logged w ++ replicate (length pre) (sentLine s m)
    ∧ files w' = files w ∧ endpoint w' = endpoint w
    ∧ may_create w' = may_create w ∧ now w' = now w.
Proof.
  revert sm w. induction pre as [|r pre IH]; intros sm w Hsm Hacc.
  - exists sm, w. by rewrite !app_nil_r.
  - cbn [fmap list_fmap accepted] in Hacc. destruct Hacc as [Hr Hacc].
    change ((r :: pre) ++ rest) with (r :: (pre ++ rest)).
    rewrite sendEach_cons by done. rewrite Hr, rejection_ok.
    set (w1 := add_log (sentLine s m) (add_post (requestFor s m r) w)).
    destruct (IH (messageFor s m r) w1) as (sm' & w' & Hsm' & -> & Hp & Hl & Hf & He & Hc & Hn).
    { done. }
    { by apply (accepted_ext w). }
    exists sm', w'. split_and!; try done.
    + rewrite Hp. cbn. by rewrite <- app_assoc.
    + rewrite Hl. cbn. by rewrite <- app_assoc.
Qed.


(** The requests of the loop follow the earlier ones, and there is at least
    one when there is a recipient. *)
Lemma sendEach_posts s m to sm w :
  fitted s sm →
  ∃ n, posts (sendEach s m sm to w).2 = posts w ++ (requestFor s m <$> take n to)
       ∧ (to ≠ [] → (1 <= n)%nat).
Proof.
  revert sm w. induction to as [|r to IH]; intros sm w Hsm.
  - exists 0%nat. by rewrite app_nil_r.
  - rewrite sendEach_cons by done.
    destruct (rejection _) as [err|].
    + exists 1%nat. split; [done|lia].
    + destruct (IH (messageFor s m r)
                   (add_log (sentLine s m) (add_post (requestFor s m r) w)))
        as (n & -> & _); [done|].
      exists (S n). split; [|lia]. cbn. by rewrite <- app_assoc.
Qed.

(** ** The update of the record *)
Lemma addToDb_existing s hash m w i db :
  files w !! DatabaseFilePath s = Some i →
  readable i = true → writable i = true →
  json.Decode (data i) = Ok (Some db) →
  addToDb s hash m w
  = (Returns None,
     set_files (<[DatabaseFilePath s := saved (<[hash := m]> db) i]> (files w)) w).
Proof.
  intros Hf Hr Hw Hd. unfold addToDb.
  rewrite (loadDb_existing _ _ _ Hf Hr), Hd.
  by rewrite (saveDb_existing _ _ _ _ Hf Hw).
Qed.

Lemma addToDb_missing s hash m w :
  files w !! DatabaseFilePath s = None →
  may_create w (DatabaseFilePath s) = true →
  addToDb s hash m w
  = (Returns (Some (fmt_Errorf "Slacker failed to add %s:%s to database: %s"
                      [arg_string hash; arg_string m; arg_error (loadErr io_EOF)])),
     set_files (<[DatabaseFilePath s := Inode "{}" true true]> (files w)) w).
Proof.
  intros Hf Hc. unfold addToDb. by rewrite (loadDb_missing _ _ Hf Hc).
Qed.

Lemma addToDb_done_inv s hash m w w' :
  addToDb s hash m w = (Returns None, w') →
  ∃ i db, files w !! DatabaseFilePath s = Some i
    ∧ readable i = true ∧ writable i = true
    ∧ json.Decode (data i) = Ok (Some db)
    ∧ w' = set_files (<[DatabaseFilePath s := saved (<[hash := m]> db) i]> (files w)) w.
Proof.
  unfold addToDb. destruct (loadDb s w) as [[[db|]|err] w1] eqn:Hl; try done.
  destruct (loadDb_Ok_inv _ _ _ _ Hl) as (-> & i & Hf & Hr & Hd).
  destruct (saveDb s _ w) as [[err|] w2] eqn:Hs; [done|].
  destruct (saveDb_None_inv _ _ _ _ Hs) as (i' & Hf' & Hw).
  assert (i' = i) as -> by congruence.
  rewrite (saveDb_existing _ _ _ _ Hf Hw) in Hs. injection Hs as <-.
  intros [= <-]. by exists i, db.
Qed.

Lemma addToDb_frame s hash m w :
  posts (addToDb s hash m w).2 = posts w
  ∧ endpoint (addToDb s hash m w).2 = endpoint w.
Proof.
  unfold addToDb. pose proof (loadDb_frame s w) as (_ & _ & He & Hp & _).
  destruct (loadDb s w) as [[[db|]|err] w1]; try done.
  cbn [snd] in *. unfold saveDb, os.OpenFile_WRONLY.
  destruct (files w1 !! DatabaseFilePath s) as [i|] eqn:Hf; [|done].
  destruct (writable i); [|done].
  unfold os.Write. cbn [os.name os.wr os.offset]. by rewrite Hf.
Qed.

(** ** The structure of [Send] *)
Lemma Send_unfold s s' m w :
  setDefaults s = Ok s' →
  Send s m w
  = match needToSend s' (getHash s' m w) w with
    | (false, w1) =>
      (Returns None,
       Log_Printf s' "Skip message %s: %s"
                  [arg_string (getHash s' m w); arg_string m] w1)
    | (true, w1) => deliver s' (getHash s' m w) m w1
    end.
Proof. intros H. unfold Send, deliver. by rewrite H. Qed.

Lemma setDefaults_Ok s s' :
  setDefaults s = Ok s' →
  Hook s' = Hook s ∧ To s' = To s ∧ Frequency s' = Frequency s
  ∧ Hook s ≠ "" ∧ To s ≠ [] ∧ is_Some (Log s').
Proof.
  unfold setDefaults. destruct (decide (Hook s = "")); [done|].
  destruct (decide (length (To s) = 0%nat)) as [|Hlen]; [done|].
  intros [= <-]. cbn. split_and!; try done.
  - intros E. by rewrite E in Hlen.
  - by destruct (Log s).
Qed.

Lemma deliver_posts s hash m w :
  ∃ n, posts (deliver s hash m w).2 = posts w ++ (requestFor s m <$> take n (To s))
       ∧ (To s ≠ [] → (1 <= n)%nat).
Proof.
  unfold deliver.
  destruct (sendEach_posts s m (To s) (SlackMessage.mk "" (From s) "" (IconEmoji s)) w)
    as (n & Hp & Hn); [done|].
  exists n. split; [|done].
  destruct (sendEach _ _ _ _ _) as [[err|] w1]; [done|]. cbn [snd] in Hp.
  pose proof (addToDb_frame s hash m w1) as [Hp' _].
  destruct (addToDb s hash m w1) as [[[err|]|] w2]; cbn in *; congruence.
Qed.

Lemma needToSend_frame s hash w :
  posts (needToSend s hash w).2 = posts w
  ∧ endpoint (needToSend s hash w).2 = endpoint w.
Proof.
  destruct (decide (Frequency s = NotifyAlways)) as [H|H].
  { by rewrite needToSend_always. }
  pose proof (loadDb_frame s w) as (_ & _ & He & Hp & _).
  destruct (loadDb s w) as [[db|err] w1] eqn:Hl.
  - by rewrite (needToSend_loaded _ _ _ _ _ H Hl).
  - by rewrite (needToSend_failed _ _ _ _ _ H Hl).
Qed.

Lemma deliver_reported s hash m w w1 :
  sendEach s m (SlackMessage.mk "" (From s) "" (IconEmoji s)) (To s) w = (None, w1) →
  deliver s hash m w = reported s (addToDb s hash m w1).
Proof.
  intros H. unfold deliver, reported. rewrite H.
  by destruct (addToDb s hash m w1) as [[[err|]|] w2].
Qed.

Lemma sendEach_all_accepted s m w :
  accepted w (posts w) (requestFor s m <$> To s) →
  ∃ w1, sendEach s m (SlackMessage.mk "" (From s) "" (IconEmoji s)) (To s) w = (None, w1)
    ∧ posts w1 = posts w ++ (requestFor s m <$> To s)
    ∧ files w1 = files w ∧ may_create w1 = may_create w.
Proof.
  intros Hacc.
  destruct (sendEach_accepted s m (To s) []
              (SlackMessage.mk "" (From s) "" (IconEmoji s)) w)
    as (sm' & w1 & _ & Heq & Hp & _ & Hf & _ & Hc & _); [done..|].
  rewrite app_nil_r in Heq. exists w1. by rewrite Heq.
Qed.

Lemma loadDb_saved s w i db :
  files w !! DatabaseFilePath s = Some (saved db i) →
  readable i = true →
  loadDb s w = (Ok (Some (json.recode db)), w).
Proof.
  intros Hf Hr. rewrite (loadDb_existing _ _ _ Hf) by done.
  unfold saved. cbn [data]. by rewrite Decode_Encode.
Qed.

Lemma recode_empty_key m db :
  json.recode (<["" := m]> db) !! "" = Some (json.coerce m).
Proof.
  apply (recode_lookup (<["" := m]> db) "" m).
  - apply lookup_insert_eq.
  - intros k' _ Hk'. by apply coerce_nil_inv.
Qed.

Lemma String_app_inv_tail (x y a : string) : x +:+ a = y +:+ a → x = y.
Proof.
  revert y. induction x as [|c x IH]; intros [|d y] H; try done.
  - apply (f_equal String.length) in H. rewrite !String_length_app in H.
    cbn [String.length] in H. lia.
  - apply (f_equal String.length) in H. rewrite !String_length_app in H.
    cbn [String.length] in H. lia.
  - rewrite !String_app_cons in H. injection H as -> H. f_equal. by apply IH.
Qed.

Lemma colon_split t1 t2 m1 m2 :
  contains ":" t1 = false → contains ":" t2 = false →
  t1 +:+ ":" +:+ m1 = t2 +:+ ":" +:+ m2 → t1 = t2 ∧ m1 = m2.
Proof.
  revert t2. induction t1 as [|c t1 IH]; intros [|d t2] H1 H2 H.
  - change (String ":" m1 = String ":" m2) in H. by injection H as ->.
  - change (String ":" m1 = String d (t2 +:+ ":" +:+ m2)) in H.
    injection H as <- _. by cbn in H2.
  - change (String c (t1 +:+ ":" +:+ m1) = String ":" m2) in H.
    injection H as -> _. by cbn in H1.
  - change (String c (t1 +:+ ":" +:+ m1) = String d (t2 +:+ ":" +:+ m2)) in H.
    injection H as -> H.
    cbn in H1, H2. apply orb_false_elim in H1 as [_ H1].
    apply orb_false_elim in H2 as [_ H2].
    destruct (IH t2 H1 H2 H) as [-> ->]. done.
Qed.

Lemma getHash_bucket s m w :
  Frequency s = NotifyOnceHour ∨ Frequency s = NotifyOnceDay →
  getHash s m w = bucket (Frequency s) (now w) +:+ ":" +:+ MessageTag s +:+ ":" +:+ m.
Proof.
  unfold getHash, bucket. intros [H|H]; rewrite H; done.
Qed.

(** A key of a map is a key of the map read back, coerced. *)
Lemma recode_is_Some m k :
  is_Some (m !! k) → is_Some (json.recode m !! json.coerce k).
Proof.
  intros [v Hk]. unfold json.recode. rewrite foldl_ins_list_to_map.
  apply not_eq_None_Some. intros Hnot%not_elem_of_list_to_map.
  apply Hnot. rewrite list_elem_of_fmap.
  exists (json.coerce k, json.coerce v). split; [done|].
  rewrite elem_of_reverse, list_elem_of_fmap. exists (k, v). split; [done|].
  rewrite merge_sort_Permutation. by apply elem_of_map_to_list.
Qed.

(** A database file that holds [null] loads as the nil map. *)
Lemma loadDb_null s w i :
  files w !! DatabaseFilePath s = Some i → readable i = true →
  json.Decode (data i) = Ok None → loadDb s w = (Ok None, w).
Proof. intros Hi Hr Hd. by rewrite (loadDb_existing _ _ _ Hi Hr), Hd. Qed.

(** ** Further facts about the files *)

Lemma String_length_skipn n s :
  String.length (skipn_string n s) = (String.length s - n)%nat.
Proof.
  revert s. induction n as [|n IH]; intros [|c s]; cbn [skipn_string String.length];
    try lia. apply IH.
Qed.

Lemma String_app_length_neq (a t : string) :
  (0 < String.length t)%nat → a +:+ t ≠ a.
Proof.
  intros Ht E. apply (f_equal String.length) in E.
  rewrite String_length_app in E. lia.
Qed.

Lemma String_app_short (a t : string) : String.length t = 0%nat → a +:+ t = a.
Proof. destruct t; [intros _; apply String_app_nil_r|done]. Qed.

(** A load that fails has created the missing database file, or has left
    the world as it was. *)
Lemma loadDb_Err_inv s w err w1 :
  loadDb s w = (Err err, w1) →
  (files w !! DatabaseFilePath s = None
   ∧ may_create w (DatabaseFilePath s) = true
   ∧ err = loadErr io_EOF
   ∧ w1 = set_files (<[DatabaseFilePath s := Inode "{}" true true]> (files w)) w)
  ∨ w1 = w.
Proof.
  destruct (files w !! DatabaseFilePath s) as [i|] eqn:Hi.
  - destruct (readable i) eqn:Hr.
    + rewrite (loadDb_existing _ _ _ Hi Hr). intros [= _ <-]. by right.
    + rewrite (loadDb_unreadable _ _ _ Hi Hr). intros [= _ <-]. by right.
  - destruct (may_create w (DatabaseFilePath s)) eqn:Hc.
    + rewrite (loadDb_missing _ _ Hi Hc). intros [= <- <-]. by left.
    + rewrite (loadDb_uncreatable _ _ Hi Hc). intros [= _ <-]. by right.
Qed.

(** The result of a load depends on the files and on what may be created
    only. *)
Lemma loadDb_ext s w w' :
  files w' = files w → may_create w' = may_create w →
  (loadDb s w').1 = (loadDb s w).1.
Proof.
  intros Hf Hc.
  destruct (files w !! DatabaseFilePath s) as [i|] eqn:Hi.
  - pose proof Hi as Hi'. rewrite <- Hf in Hi'. destruct (readable i) eqn:Hr.
    + by rewrite (loadDb_existing _ _ _ Hi Hr), (loadDb_existing _ _ _ Hi' Hr).
    + by rewrite (loadDb_unreadable _ _ _ Hi Hr), (loadDb_unreadable _ _ _ Hi' Hr).
  - pose proof Hi as Hi'. rewrite <- Hf in Hi'.
    destruct (may_create w (DatabaseFilePath s)) eqn:Hm.
    + pose proof Hm as Hm'. rewrite <- Hc in Hm'.
      by rewrite (loadDb_missing _ _ Hi Hm), (loadDb_missing _ _ Hi' Hm').
    + pose proof Hm as Hm'. rewrite <- Hc in Hm'.
      by rewrite (loadDb_uncreatable _ _ Hi Hm), (loadDb_uncreatable _ _ Hi' Hm').
Qed.

(** The files after a load: as before, or with the missing database file
    added, holding an empty object. *)
Lemma loadDb_files_exact s w :
  files (loadDb s w).2 = files w
  ∨ (files w !! DatabaseFilePath s = None
     ∧ may_create w (DatabaseFilePath s) = true
     ∧ files (loadDb s w).2 = <[DatabaseFilePath s := Inode "{}" true true]> (files w)).
Proof.
  destruct (loadDb s w) as [[db|err] w1] eqn:E.
  - destruct (loadDb_Ok_inv _ _ _ _ E) as [-> _]. by left.
  - destruct (loadDb_Err_inv _ _ _ _ E) as [(Hn & Hc & _ & ->)| ->]; [by right|by left].
Qed.

Lemma needToSend_files_exact s hash w :
  files (needToSend s hash w).2 = files w
  ∨ (files w !! DatabaseFilePath s = None
     ∧ may_create w (DatabaseFilePath s) = true
     ∧ files (needToSend s hash w).2
       = <[DatabaseFilePath s := Inode "{}" true true]> (files w)).
Proof.
  destruct (needToSend_files s hash w) as [E|E]; [|by left].
  rewrite E. apply loadDb_files_exact.
Qed.

Lemma needToSend_may_create s hash w :
  may_create (needToSend s hash w).2 = may_create w.
Proof.
  unfold needToSend. case_decide; [done|]. unfold inDb.
  pose proof (loadDb_frame s w) as (Hc & _).
  destruct (loadDb s w) as [[[db|]|err] w1]; cbn in *; try done.
  by destruct (db !! hash).
Qed.

(** When the dedup decision allows a message under a frequency that
    consults the record, the fingerprint is not a key of the record that
    the files it leaves hold. *)
Lemma needToSend_true_absent s hash w w1 w2 db w' :
  Frequency s ≠ NotifyAlways →
  needToSend s hash w = (true, w1) →
  files w2 = files w1 → may_create w2 = may_create w1 →
  loadDb s w2 = (Ok db, w') →
  inRecord db hash = false.
Proof.
  intros Hna Hn Hf Hc Hl.
  assert ((loadDb s w1).1 = Ok db) as Hl1.
  { by rewrite <- (loadDb_ext s w1 w2 Hf Hc), Hl. }
  destruct (loadDb s w) as [[db0|err] w0] eqn:E.
  - rewrite (needToSend_loaded _ _ _ _ _ Hna E) in Hn. injection Hn as Hn <-.
    rewrite E in Hl1. injection Hl1 as <-. by apply negb_true_iff.
  - rewrite (needToSend_failed _ _ _ _ _ Hna E) in Hn. injection Hn as <-.
    destruct (loadDb_Err_inv _ _ _ _ E) as [(Hnone & Hcr & _ & ->)| ->].
    + set (w0 := set_files (<[DatabaseFilePath s := Inode "{}" true true]> (files w)) w)
        in *.
      rewrite (loadDb_ext s w0) in Hl1 by done.
      rewrite (loadDb_existing s w0 (Inode "{}" true true)) in Hl1;
        [|apply lookup_insert_eq|done].
      cbn in Hl1. injection Hl1 as <-. done.
    + rewrite (loadDb_ext s w), E in Hl1; done.
Qed.

(** A load that fails without creating the file fails in the same way as
    long as the files are the same. *)
Lemma loadDb_Err_persists s w w' err :
  loadDb s w = (Err err, w) →
  files w' = files w → may_create w' = may_create w →
  loadDb s w' = (Err err, w').
Proof.
  intros Hl Hf Hc. pose proof (loadDb_ext s w w' Hf Hc) as E.
  rewrite Hl in E. cbn in E.
  destruct (loadDb s w') as [r w''] eqn:E'. cbn in E. subst r.
  destruct (loadDb_Err_inv _ _ _ _ E') as [(Hnone & Hcr & _ & _)| ->]; [|done].
  rewrite Hf in Hnone. rewrite Hc in Hcr.
  rewrite (loadDb_missing _ _ Hnone Hcr) in Hl. injection Hl as _ Hw.
  apply (f_equal (λ x, files x !! DatabaseFilePath s)) in Hw. cbn in Hw.
  rewrite lookup_insert_eq, Hnone in Hw. done.
Qed.

(** * The claims of the specification *)

Import Scenario.

(** C3, amended.  Under [NotifyAlways] the fingerprint is empty; under
    [NotifyOnceHour] it is the hour of the clock, a colon, the tag, a colon
    and the message; under [NotifyOnceDay] the same with the day.  It depends
    on the frequency, the tag, the message and the clock only.  Within one
    time bucket of the two policies that have one, another tag with the same
    message gives another fingerprint, and so does another message with the
    same tag; when neither tag holds a colon, any two different pairs of a
    tag and a message give different fingerprints. *)
Theorem getHash_fingerprint s1 s2 m1 m2 w1 w2 :
  (Frequency s1 = NotifyAlways → getHash s1 m1 w1 = "")
  ∧ (Frequency s1 = NotifyOnceHour →
     getHash s1 m1 w1
     = time.formatHour (now w1) +:+ ":" +:+ MessageTag s1 +:+ ":" +:+ m1)
  ∧ (Frequency s1 = NotifyOnceDay →
     getHash s1 m1 w1
     = time.formatDay (now w1) +:+ ":" +:+ MessageTag s1 +:+ ":" +:+ m1)
  ∧ (Frequency s1 = Frequency s2 → MessageTag s1 = MessageTag s2 →
     now w1 = now w2 → getHash s1 m1 w1 = getHash s2 m1 w2)
  ∧ (Frequency s1 = Frequency s2 →
     Frequency s1 = NotifyOnceHour ∨ Frequency s1 = NotifyOnceDay →
     bucket (Frequency s1) (now w1) = bucket (Frequency s2) (now w2) →
     (MessageTag s1 ≠ MessageTag s2 → m1 = m2 →
      getHash s1 m1 w1 ≠ getHash s2 m2 w2)
     ∧ (MessageTag s1 = MessageTag s2 → m1 ≠ m2 →
        getHash s1 m1 w1 ≠ getHash s2 m2 w2)
     ∧ (contains ":" (MessageTag s1) = false →
        contains ":" (MessageTag s2) = false →
        (MessageTag s1, m1) ≠ (MessageTag s2, m2) →
        getHash s1 m1 w1 ≠ getHash s2 m2 w2)).
Proof.
  split_and!.
  - intros H. unfold getHash. by rewrite H.
  - intros H. unfold getHash. by rewrite H.
  - intros H. unfold getHash. by rewrite H.
  - intros Hf Ht Hn. unfold getHash. by rewrite Hf, Ht, Hn.
  - intros Hf Hp Hb.
    assert (Frequency s2 = NotifyOnceHour ∨ Frequency s2 = NotifyOnceDay) as Hp2
      by by rewrite <- Hf.
    rewrite (getHash_bucket s1) by done. rewrite (getHash_bucket s2) by done.
    rewrite Hb. split_and!.
    + intros Hne -> Heq. apply Hne.
      apply String.app_inj in Heq. apply String.app_inj in Heq.
      rewrite <- (String_app_assoc (MessageTag s1)) in Heq.
      rewrite <- (String_app_assoc (MessageTag s2)) in Heq.
      apply String_app_inv_tail in Heq. by apply String_app_inv_tail in Heq.
    + intros Ht Hne Heq. apply Hne. rewrite Ht in Heq.
      by do 4 apply String.app_inj in Heq.
    + intros C1 C2 Hne Heq. apply Hne.
      apply String.app_inj in Heq. apply String.app_inj in Heq.
      destruct (colon_split _ _ _ _ C1 C2 Heq) as [-> ->]. done.
Qed.

(** C3 as amended, at a concrete input: the fingerprint of the scenario,
    and another tag with the same message. *)
Lemma getHash_fingerprint_witness :
  getHash (ready NotifyOnceHour "disk") "disk full" (fresh accepting) = fingerprint
  ∧ getHash (ready NotifyOnceHour "disk") "disk full" (fresh accepting)
    ≠ getHash (ready NotifyOnceHour "net") "disk full" (fresh accepting).
Proof.
  pose proof (getHash_fingerprint (ready NotifyOnceHour "disk") (ready NotifyOnceHour "net")
                "disk full" "disk full" (fresh accepting) (fresh accepting))
    as (_ & Hhour & _ & _ & Hvary).
  split.
  - rewrite Hhour by reflexivity. reflexivity.
  - destruct (Hvary eq_refl (or_introl eq_refl) eq_refl) as (Htag & _ & _).
    apply Htag; [discriminate|reflexivity].
Defined.

(** C3, counterexample to the claim as stated: within one hour, the tag
    [a:b] with the message [c] and the tag [a] with the message [b:c] have
    the same fingerprint. *)
Lemma getHash_collision :
  (MessageTag (ready NotifyOnceHour "a:b"), "c")
  ≠ (MessageTag (ready NotifyOnceHour "a"), "b:c")
  ∧ getHash (ready NotifyOnceHour "a:b") "c" (fresh accepting)
    = getHash (ready NotifyOnceHour "a") "b:c" (fresh accepting).
Proof. split; [discriminate|reflexivity]. Qed.

(** C1, the behaviour of the code.  On a path where no file exists (and a
    file may be created), [loadDb] creates the file with the two bytes of an
    empty JSON object, but it does not return the empty map: it decodes from
    the handle that [createDb] hands back, whose offset is past the two
    bytes just written, so the decoder meets the end of the file and the load
    fails with [io.EOF].  Only a second load of the path, which opens the
    file anew, returns the empty map. *)
Theorem loadDb_on_missing_file s w :
  files w !! DatabaseFilePath s = None →
  may_create w (DatabaseFilePath s) = true →
  ∃ w',
    loadDb s w
    = (Err (fmt_Errorf "Slacker failed to load database: %s" [arg_error io_EOF]), w')
    ∧ files w' = <[DatabaseFilePath s := Inode "{}" true true]> (files w)
    ∧ loadDb s w' = (Ok (Some ∅), w').
Proof.
  intros Hnone Hcreate. eexists. split; [by apply loadDb_missing|].
  split; [done|].
  erewrite loadDb_existing; [|apply lookup_insert_eq|done]. done.
Qed.

(** C1, at a concrete input: the first load of a missing [slacker.json]
    fails with [io.EOF]. *)
Lemma loadDb_on_missing_file_witness :
  files (fresh accepting) !! DatabaseFilePath (ready NotifyOnceHour "disk") = None
  ∧ may_create (fresh accepting) (DatabaseFilePath (ready NotifyOnceHour "disk")) = true
  ∧ ∃ w',
      loadDb (ready NotifyOnceHour "disk") (fresh accepting)
      = (Err (fmt_Errorf "Slacker failed to load database: %s" [arg_error io_EOF]), w')
      ∧ files w' = <[DatabaseFilePath (ready NotifyOnceHour "disk") := Inode "{}" true true]>
                     (files (fresh accepting))
      ∧ loadDb (ready NotifyOnceHour "disk") w' = (Ok (Some ∅), w').
Proof.
  split; [reflexivity|]. split; [reflexivity|].
  apply loadDb_on_missing_file; reflexivity.
Defined.

(** C2, the behaviour of the code.  On an existing database file that may
    be written, [saveDb] succeeds and writes the encoding of the whole
    record, a flat JSON object and a newline, from the first byte of the
    file on; but it opens the file without truncating it, so it overwrites
    the prior contents only as far as the encoding reaches.  When the prior
    contents are not longer than the encoding the file is the encoding; when
    they are longer their tail stays behind it, the file keeps its length
    and is not the encoding.  A following [loadDb] stops at the end of the
    first JSON value and returns the record as the encoder has written it:
    the saved record itself when its keys and values are valid UTF-8. *)
Theorem saveDb_then_loadDb s db w i :
  files w !! DatabaseFilePath s = Some i →
  writable i = true →
  ∃ w',
    saveDb s (Some db) w = (None, w')
    ∧ files w' = <[DatabaseFilePath s := saved db i]> (files w)
    ∧ data (saved db i)
      = json.Encode (Some db)
        +:+ skipn_string (String.length (json.Encode (Some db))) (data i)
    ∧ (String.length (data i) <= String.length (json.Encode (Some db))
       → data (saved db i) = json.Encode (Some db))%nat
    ∧ (String.length (json.Encode (Some db)) < String.length (data i)
       → data (saved db i) ≠ json.Encode (Some db)
         ∧ String.length (data (saved db i)) = String.length (data i))%nat
    ∧ (readable i = true → loadDb s w' = (Ok (Some (json.recode db)), w'))
    ∧ (ValidRecord db → json.recode db = db).
Proof.
  intros Hi Hw. eexists. split; [by apply saveDb_existing|].
  split; [done|]. split; [done|]. split_and!.
  - intros Hlen. cbn [saved data]. apply String_app_short.
    rewrite String_length_skipn. lia.
  - intros Hlen. cbn [saved data]. split.
    + apply String_app_length_neq. rewrite String_length_skipn. lia.
    + rewrite String_length_app, String_length_skipn. lia.
  - intros Hr. eapply loadDb_saved; [apply lookup_insert_eq|done].
  - apply recode_valid.
Qed.

(** C2, at a concrete input: a record saved over an older and longer file.
    The tail of the older record is still in the file. *)
Lemma saveDb_then_loadDb_witness :
  (String.length (json.Encode (Some sent)) < String.length stale)%nat
  ∧ ∃ w',
      saveDb (ready NotifyOnceHour "disk") (Some sent) (stored stale accepting)
      = (None, w')
      ∧ files w' = {[ "slacker.json" := saved sent (file stale) ]}
      ∧ data (saved sent (file stale)) ≠ json.Encode (Some sent)
      ∧ String.length (data (saved sent (file stale))) = String.length stale
      ∧ loadDb (ready NotifyOnceHour "disk") w' = (Ok (Some sent), w').
Proof.
  assert (String.length (json.Encode (Some sent)) < String.length stale)%nat as Hlen
    by (vm_compute; lia).
  assert (ValidRecord sent) as Hvalid.
  { apply (bool_decide_unpack _). vm_compute. reflexivity. }
  split; [exact Hlen|].
  destruct (saveDb_then_loadDb (ready NotifyOnceHour "disk") sent
              (stored stale accepting) (file stale) eq_refl eq_refl)
    as (w' & Hsave & Hfiles & _ & _ & Htail & Hload & Hrec).
  exists w'. split; [exact Hsave|]. split.
  { rewrite Hfiles. apply insert_insert_eq. }
  destruct (Htail Hlen) as [Hne Hl]. split; [exact Hne|]. split; [exact Hl|].
  rewrite (Hload eq_refl), (Hrec Hvalid). reflexivity.
Defined.

(** A record with a byte that is not valid UTF-8 is saved without an error,
    and the following load returns another record, with [U+FFFD] in the
    place of that byte. *)
Lemma saveDb_then_loadDb_latin1 :
  (saveDb (ready NotifyOnceHour "disk") (Some {[ fingerprint := latin1 ]})
          (stored "{}" accepting)).1 = None
  ∧ (loadDb (ready NotifyOnceHour "disk")
            (saveDb (ready NotifyOnceHour "disk") (Some {[ fingerprint := latin1 ]})
                    (stored "{}" accepting)).2).1
    = Ok (Some {[ fingerprint := "caf" +:+ utf8.EncodeRune utf8.RuneError ]})
  ∧ Ok (Some ({[ fingerprint := "caf" +:+ utf8.EncodeRune utf8.RuneError ]}
                : gmap string string))
    ≠ Ok (Some {[ fingerprint := latin1 ]}).
Proof.
  split; [reflexivity|]. split; [vm_compute; reflexivity|].
  intros H.
  apply (f_equal (λ r, match r with
                       | Ok (Some m) => m !! fingerprint
                       | _ => None
                       end)) in H.
  vm_compute in H. discriminate.
Qed.

(** C4.  Under [NotifyAlways] the dedup decision is [true] and the world is
    untouched: the store is not consulted.  Under any other frequency, when
    the load of the record succeeds, the decision is [true] exactly when the
    fingerprint is not a key of the record, and the world is as before; when
    the load fails the decision is [true] and the failure is logged.  The
    decision never changes the record: every file that exists keeps its
    bytes, and the files after the decision are the files before it, or,
    when there was no database file, those with a database file added that
    holds an empty JSON object. *)
Theorem needToSend_decision s hash w :
  (Frequency s = NotifyAlways → needToSend s hash w = (true, w))
  ∧ (Frequency s ≠ NotifyAlways →
     ∀ db w', loadDb s w = (Ok db, w') →
       needToSend s hash w = (negb (inRecord db hash), w))
  ∧ (∀ p i, files w !! p = Some i → files (needToSend s hash w).2 !! p = Some i)
  ∧ (Frequency s ≠ NotifyAlways →
     ∀ err w', loadDb s w = (Err err, w') →
       needToSend s hash w
       = (true, Log_Printf s "Slacker failed to load database: %s" [arg_error err] w'))
  ∧ (files (needToSend s hash w).2 = files w
     ∨ (files w !! DatabaseFilePath s = None
        ∧ may_create w (DatabaseFilePath s) = true
        ∧ files (needToSend s hash w).2
          = <[DatabaseFilePath s := Inode "{}" true true]> (files w))).
Proof.
  split_and!.
  - apply needToSend_always.
  - intros. by eapply needToSend_loaded.
  - intros p i. apply needToSend_keeps_files.
  - intros. by eapply needToSend_failed.
  - apply needToSend_files_exact.
Qed.

(** C4, at a concrete input: a fingerprint that is in the record, under
    [NotifyOnceHour] and under [NotifyAlways]; and the decision where there
    is no database file yet. *)
Lemma needToSend_decision_witness :
  needToSend (ready NotifyOnceHour "disk") fingerprint
             (stored (json.Encode (Some sent)) accepting)
  = (false, stored (json.Encode (Some sent)) accepting)
  ∧ needToSend (ready NotifyAlways "disk") fingerprint
               (stored (json.Encode (Some sent)) accepting)
    = (true, stored (json.Encode (Some sent)) accepting)
  ∧ files (needToSend (ready NotifyOnceHour "disk") fingerprint (fresh accepting)).2
    = {[ "slacker.json" := Inode "{}" true true ]}.
Proof.
  split; [|split].
  - apply (proj1 (proj2 (needToSend_decision (ready NotifyOnceHour "disk") fingerprint
                           (stored (json.Encode (Some sent)) accepting)))
             ltac:(discriminate) (Some sent)
             (stored (json.Encode (Some sent)) accepting)).
    vm_compute. reflexivity.
  - apply (proj1 (needToSend_decision (ready NotifyAlways "disk") fingerprint
                    (stored (json.Encode (Some sent)) accepting))).
    reflexivity.
  - destruct (needToSend_decision (ready NotifyOnceHour "disk") fingerprint
                (fresh accepting)) as (_ & _ & _ & _ & [E|(_ & _ & E)]).
    + vm_compute in E. discriminate.
    + rewrite E. apply insert_empty.
Defined.

(** C7.  With an empty web hook or no recipient, [setDefaults] fails, and
    [Send] returns that error, wrapped, in the world it started in: no file
    is read or written, no request sent, nothing logged.  Whenever
    [setDefaults] succeeds the web hook and the recipients are those of the
    caller: no default stands in for them. *)
Theorem Send_rejects_invalid_configuration s m w :
  Hook s = "" ∨ To s = [] →
  (∃ text,
     setDefaults s = Err (errors_New text)
     ∧ Send s m w
       = (Returns (Some (fmt_Errorf "Slacker failed to send message: %s"
                                    [arg_error (errors_New text)])), w))
  ∧ (∀ t t', setDefaults t = Ok t' → Hook t' = Hook t ∧ To t' = To t).
Proof.
  intros H. split.
  - unfold Send, setDefaults.
    destruct (decide (Hook s = "")) as [|Hh]; [by eexists|].
    destruct H as [|Ht]; [done|]. rewrite Ht. by eexists.
  - intros t t' Ht. by destruct (setDefaults_Ok _ _ Ht) as (? & ? & _).
Qed.

(** C7, at a concrete input: a configuration without recipients. *)
Lemma Send_rejects_invalid_configuration_witness :
  To (mkSlacker "https://hooks.example/services/T0/B0" None "" "" [] NotifyOnceDay "" "")
  = []
  ∧ Send (mkSlacker "https://hooks.example/services/T0/B0" None "" "" [] NotifyOnceDay "" "")
         "disk full" (fresh accepting)
    = (Returns (Some (fmt_Errorf "Slacker failed to send message: %s"
                        [arg_error (errors_New "Recipients are not set")])),
       fresh accepting).
Proof.
  split; [reflexivity|].
  destruct (Send_rejects_invalid_configuration
              (mkSlacker "https://hooks.example/services/T0/B0" None "" "" []
                         NotifyOnceDay "" "")
              "disk full" (fresh accepting) (or_intror eq_refl))
    as [(text & Hset & HSend) _].
  rewrite HSend. injection Hset as <-. reflexivity.
Defined.

(** C8.  When the dedup decision is [false], [Send] returns nil, sends no
    request and leaves the files as they are; it only logs that the message
    is skipped. *)
Theorem Send_skips_when_refused s s' m w w1 :
  setDefaults s = Ok s' →
  needToSend s' (getHash s' m w) w = (false, w1) →
  Send s m w
  = (Returns None,
     Log_Printf s' "Skip message %s: %s"
                [arg_string (getHash s' m w); arg_string m] w)
  ∧ posts (Send s m w).2 = posts w
  ∧ files (Send s m w).2 = files w.
Proof.
  intros Hs Hn. destruct (needToSend_false_inv _ _ _ _ Hn) as (-> & _).
  rewrite (Send_unfold _ _ _ _ Hs), Hn. done.
Qed.

(** C8, at a concrete input: the fingerprint is in the record. *)
Lemma Send_skips_when_refused_witness :
  needToSend (ready NotifyOnceHour "disk")
             (getHash (ready NotifyOnceHour "disk") "disk full"
                      (stored (json.Encode (Some sent)) accepting))
             (stored (json.Encode (Some sent)) accepting)
  = (false, stored (json.Encode (Some sent)) accepting)
  ∧ Send (notifier NotifyOnceHour "disk") "disk full"
         (stored (json.Encode (Some sent)) accepting)
    = (Returns None,
       Log_Printf (ready NotifyOnceHour "disk") "Skip message %s: %s"
         [arg_string fingerprint; arg_string "disk full"]
         (stored (json.Encode (Some sent)) accepting)).
Proof.
  assert (needToSend (ready NotifyOnceHour "disk")
            (getHash (ready NotifyOnceHour "disk") "disk full"
                     (stored (json.Encode (Some sent)) accepting))
            (stored (json.Encode (Some sent)) accepting)
          = (false, stored (json.Encode (Some sent)) accepting)) as Hneed
    by (vm_compute; reflexivity).
  split; [exact Hneed|].
  apply (Send_skips_when_refused (notifier NotifyOnceHour "disk")
           (ready NotifyOnceHour "disk") "disk full"
           (stored (json.Encode (Some sent)) accepting)
           (stored (json.Encode (Some sent)) accepting) eq_refl Hneed).
Defined.

(** C5, amended.  Under a frequency other than [NotifyAlways], when the
    load of the record fails in the dedup check, [inDb] answers that the
    fingerprint is not there and logs the failure, the decision is to send,
    and [Send] goes on with the delivery: the request for the first
    recipient is sent.  The load has failed on a missing database file that
    it has created, or it has left the world as it was.  When every
    recipient is accepted, all the requests are sent and then: in the first
    case [Send] returns nil, the fingerprint recorded in the new file; in
    the second case the update of the record fails as the dedup check did
    and [Send] returns the error of [addToDb], which wraps that same load
    failure, the files being as before. *)
Theorem Send_permissive_on_load_failure s s' m w err w1 :
  setDefaults s = Ok s' →
  Frequency s' ≠ NotifyAlways →
  loadDb s' w = (Err err, w1) →
  let hash := getHash s' m w in
  let w2 := Log_Printf s' "Slacker failed to load database: %s" [arg_error err] w1 in
  inDb s' hash w = (false, w2)
  ∧ needToSend s' hash w = (true, w2)
  ∧ Send s m w = deliver s' hash m w2
  ∧ (∃ r more, head (To s') = Some r
       ∧ posts (Send s m w).2 = posts w ++ requestFor s' m r :: more)
  ∧ ((files w !! DatabaseFilePath s' = None
      ∧ may_create w (DatabaseFilePath s') = true
      ∧ err = fmt_Errorf "Slacker failed to load database: %s" [arg_error io_EOF])
     ∨ w1 = w)
  ∧ (accepted w (posts w) (requestFor s' m <$> To s') →
     posts (Send s m w).2 = posts w ++ (requestFor s' m <$> To s')
     ∧ (files w !! DatabaseFilePath s' = None →
        may_create w (DatabaseFilePath s') = true →
        (Send s m w).1 = Returns None
        ∧ files (Send s m w).2
          = <[DatabaseFilePath s' := saved {[ hash := m ]} (Inode "{}" true true)]>
              (files w))
     ∧ (w1 = w →
        (Send s m w).1
        = Returns (Some (fmt_Errorf "Slacker failed to add %s:%s to database: %s"
                           [arg_string hash; arg_string m; arg_error err]))
        ∧ files (Send s m w).2 = files w)).
Proof.
  intros Hs Hf Hl hash w2.
  assert (needToSend s' hash w = (true, w2)) as Hn by by apply needToSend_failed.
  assert (Send s m w = deliver s' hash m w2) as HS.
  { rewrite (Send_unfold _ _ _ _ Hs). fold hash. by rewrite Hn. }
  pose proof (loadDb_frame s' w) as (Hc1 & _ & He1 & Hp1 & _).
  rewrite Hl in Hc1, He1, Hp1. cbn [snd] in Hc1, He1, Hp1.
  split_and!; try done.
  - by apply inDb_failed.
  - destruct (setDefaults_Ok _ _ Hs) as (_ & HTo & _ & _ & Hne & _).
    assert (To s' ≠ []) as Hne' by congruence.
    rewrite HS. destruct (deliver_posts s' hash m w2) as (n & -> & Hn1).
    destruct (To s') as [|r to]; [done|].
    destruct n as [|n]; [specialize (Hn1 ltac:(done)); lia|].
    exists r, (requestFor s' m <$> take n to). split; [done|].
    subst w2. cbn in *. by rewrite Hp1.
  - destruct (loadDb_Err_inv _ _ _ _ Hl) as [(? & ? & -> & _)| ->]; auto.
  - intros Hacc.
    destruct (sendEach_all_accepted s' m w2) as (w3 & Hsend & Hp & Hf3 & Hc3).
    { subst w2. cbn. rewrite Hp1. by apply (accepted_ext w). }
    rewrite HS, (deliver_reported _ _ _ _ _ Hsend).
    assert (posts (reported s' (addToDb s' hash m w3)).2
            = posts w ++ (requestFor s' m <$> To s')) as Hposts.
    { pose proof (addToDb_frame s' hash m w3) as [Hpa _].
      destruct (addToDb s' hash m w3) as [[[e|]|] w4]; cbn in *;
        rewrite Hpa, Hp; subst w2; cbn; by rewrite Hp1. }
    split; [done|]. split.
    + intros Hnone Hcreate.
      rewrite (loadDb_missing _ _ Hnone Hcreate) in Hl. injection Hl as <- <-.
      rewrite (addToDb_existing _ _ _ _ (Inode "{}" true true) ∅); try done.
      * cbn. rewrite Hf3. cbn. by rewrite insert_insert_eq, insert_empty.
      * rewrite Hf3. cbn. apply lookup_insert_eq.
    + intros ->. unfold addToDb.
      assert (loadDb s' w3 = (Err err, w3)) as Hl3.
      { apply (loadDb_Err_persists s' w); [done|by rewrite Hf3|by rewrite Hc3]. }
      rewrite Hl3. cbn. by rewrite Hf3.
Qed.

(** C5 as amended, at a concrete input: there is no database file yet, so
    the load of the dedup check fails; both recipients get the message and
    [Send] returns nil. *)
Lemma Send_permissive_on_load_failure_witness :
  setDefaults (notifier NotifyOnceHour "disk") = Ok (ready NotifyOnceHour "disk")
  ∧ (loadDb (ready NotifyOnceHour "disk") (fresh accepting)).1
    = Err (fmt_Errorf "Slacker failed to load database: %s" [arg_error io_EOF])
  ∧ needToSend (ready NotifyOnceHour "disk") fingerprint (fresh accepting)
    = (true,
       Log_Printf (ready NotifyOnceHour "disk") "Slacker failed to load database: %s"
         [arg_error (fmt_Errorf "Slacker failed to load database: %s"
                       [arg_error io_EOF])]
         (loadDb (ready NotifyOnceHour "disk") (fresh accepting)).2)
  ∧ (Send (notifier NotifyOnceHour "disk") "disk full" (fresh accepting)).1
    = Returns None
  ∧ posts (Send (notifier NotifyOnceHour "disk") "disk full" (fresh accepting)).2
    = requestFor (ready NotifyOnceHour "disk") "disk full" <$> [ops; oncall].
Proof.
  destruct (Send_permissive_on_load_failure
              (notifier NotifyOnceHour "disk") (ready NotifyOnceHour "disk")
              "disk full" (fresh accepting)
              (fmt_Errorf "Slacker failed to load database: %s" [arg_error io_EOF])
              (loadDb (ready NotifyOnceHour "disk") (fresh accepting)).2
              eq_refl ltac:(discriminate) ltac:(vm_compute; reflexivity))
    as (_ & Hneed & _ & _ & _ & Hall).
  destruct Hall as (Hposts & Hfirst & _); [repeat split|].
  destruct (Hfirst eq_refl eq_refl) as [Hret _].
  split; [reflexivity|]. split; [vm_compute; reflexivity|].
  split; [exact Hneed|]. split; [exact Hret|exact Hposts].
Defined.

(** C5, counterexample to the claim as stated: the database file is not
    JSON.  The load of the dedup check fails, the decision is to send, both
    recipients get the message, and [Send] returns an error that wraps the
    load failure. *)
Lemma Send_returns_persisting_load_failure :
  (loadDb (ready NotifyOnceHour "disk") (stored garbage accepting)).1
  = Err (fmt_Errorf "Slacker failed to load database: %s" [arg_error json_Error])
  ∧ (needToSend (ready NotifyOnceHour "disk") fingerprint (stored garbage accepting)).1
    = true
  ∧ posts (Send (notifier NotifyOnceHour "disk") "disk full"
                (stored garbage accepting)).2
    = requestFor (ready NotifyOnceHour "disk") "disk full" <$> [ops; oncall]
  ∧ (Send (notifier NotifyOnceHour "disk") "disk full" (stored garbage accepting)).1
    = Returns (Some (fmt_Errorf "Slacker failed to add %s:%s to database: %s"
                       [arg_string fingerprint; arg_string "disk full";
                        arg_error (fmt_Errorf "Slacker failed to load database: %s"
                                     [arg_error json_Error])])).
Proof. repeat split; vm_compute; reflexivity. Qed.

(** C6.  When the dedup decision allows the message, the recipients before
    [r] are all accepted and the request for [r] is rejected, [Send] returns
    the error of that request, has sent the requests of the recipients up to
    and including [r] in the configured order and none for those after, and
    does not record the fingerprint.  The files are those the dedup decision
    left, every file that existed keeps its bytes, and the files after
    [Send] are the files before it, or, when there was no database file,
    those with a database file added that holds an empty JSON object.  Under
    a frequency that consults the record, the fingerprint is not a key of
    the record that a load finds after [Send].  The list may have any
    length, two recipients or more in particular. *)
Theorem Send_stops_at_first_failure s s' m w w1 pre r post err :
  setDefaults s = Ok s' →
  needToSend s' (getHash s' m w) w = (true, w1) →
  To s' = pre ++ r :: post →
  accepted w (posts w) (requestFor s' m <$> pre) →
  rejection (endpoint w (posts w ++ (requestFor s' m <$> pre)) (requestFor s' m r))
  = Some err →
  (Send s m w).1 = Returns (Some err)
  ∧ posts (Send s m w).2 = posts w ++ (requestFor s' m <$> pre ++ [r])
  ∧ files (Send s m w).2 = files w1
  ∧ (∀ p i, files w !! p = Some i → files (Send s m w).2 !! p = Some i)
  ∧ (files (Send s m w).2 = files w
     ∨ (files w !! DatabaseFilePath s' = None
        ∧ may_create w (DatabaseFilePath s') = true
        ∧ files (Send s m w).2
          = <[DatabaseFilePath s' := Inode "{}" true true]> (files w)))
  ∧ (Frequency s' ≠ NotifyAlways →
     ∀ db w', loadDb s' (Send s m w).2 = (Ok db, w') →
       inRecord db (getHash s' m w) = false).
Proof.
  intros Hs Hn HTo Hacc Hrej.
  pose proof (needToSend_frame s' (getHash s' m w) w) as [Hp He].
  pose proof (λ p i, needToSend_keeps_files s' (getHash s' m w) w p i) as Hkeep.
  pose proof (needToSend_files_exact s' (getHash s' m w) w) as Hexact.
  pose proof (needToSend_may_create s' (getHash s' m w) w) as Hmc.
  rewrite Hn in Hp, He, Hkeep, Hexact, Hmc. cbn [snd] in Hp, He, Hkeep, Hexact, Hmc.
  rewrite (Send_unfold _ _ _ _ Hs), Hn. unfold deliver. rewrite HTo.
  destruct (sendEach_accepted s' m pre (r :: post)
              (SlackMessage.mk "" (From s') "" (IconEmoji s')) w1)
    as (sm' & w2 & Hsm' & -> & Hp2 & _ & Hf2 & He2 & Hc2 & _); [done| |].
  { rewrite Hp. by apply (accepted_ext w). }
  rewrite sendEach_cons by done.
  rewrite He2, He, Hp2, Hp, Hrej. cbn [fst snd].
  split_and!; try done.
  - cbn. rewrite Hp2, Hp, fmap_app. by rewrite <- app_assoc.
  - intros p i Hpi. cbn. rewrite Hf2. by apply Hkeep.
  - cbn. by rewrite Hf2.
  - intros Hna db w' Hl.
    eapply (needToSend_true_absent s' _ w w1); [done|done| | |exact Hl].
    + cbn. by rewrite Hf2.
    + cbn. by rewrite Hc2.
Qed.

(** C6, at a concrete input: two recipients, no database file yet, the web
    hook rejects the second request.  The file that the dedup check has
    created holds the empty record. *)
Lemma Send_stops_at_first_failure_witness :
  needToSend (ready NotifyOnceHour "disk") fingerprint (fresh accepting_once)
  = (true, (needToSend (ready NotifyOnceHour "disk") fingerprint
                       (fresh accepting_once)).2)
  ∧ accepted (fresh accepting_once) []
      (requestFor (ready NotifyOnceHour "disk") "disk full" <$> [ops])
  ∧ (Send (notifier NotifyOnceHour "disk") "disk full" (fresh accepting_once)).1
    = Returns (Some (fmt_Errorf "Response from Slack: %s" [arg_string "invalid_token"]))
  ∧ posts (Send (notifier NotifyOnceHour "disk") "disk full" (fresh accepting_once)).2
    = requestFor (ready NotifyOnceHour "disk") "disk full" <$> [ops; oncall]
  ∧ files (Send (notifier NotifyOnceHour "disk") "disk full" (fresh accepting_once)).2
    = {[ "slacker.json" := Inode "{}" true true ]}
  ∧ (loadDb (ready NotifyOnceHour "disk")
            (Send (notifier NotifyOnceHour "disk") "disk full"
                  (fresh accepting_once)).2).1
    = Ok (Some ∅).
Proof.
  assert (needToSend (ready NotifyOnceHour "disk") fingerprint (fresh accepting_once)
          = (true, (needToSend (ready NotifyOnceHour "disk") fingerprint
                               (fresh accepting_once)).2)) as Hneed
    by (vm_compute; reflexivity).
  assert (accepted (fresh accepting_once) []
            (requestFor (ready NotifyOnceHour "disk") "disk full" <$> [ops])) as Hacc.
  { split; [reflexivity|exact I]. }
  destruct (Send_stops_at_first_failure
              (notifier NotifyOnceHour "disk") (ready NotifyOnceHour "disk")
              "disk full" (fresh accepting_once) _
              [ops] oncall []
              (fmt_Errorf "Response from Slack: %s" [arg_string "invalid_token"])
              eq_refl Hneed eq_refl Hacc eq_refl)
    as (Herr & Hposts & _ & _ & Hexact & _).
  split; [exact Hneed|]. split; [exact Hacc|]. split; [exact Herr|].
  split; [exact Hposts|]. split.
  - destruct Hexact as [E|(_ & _ & E)].
    + vm_compute in E. discriminate.
    + rewrite E. apply insert_empty.
  - vm_compute. reflexivity.
Defined.

(** C9.  Under [NotifyAlways], when every recipient is accepted, [Send]
    still runs [addToDb] with the empty fingerprint, and its outcome is the
    outcome of that update.  When the database file is there and decodes to
    [db], the file is rewritten with the encoding of [db] where the empty key
    is set to the message, replacing what that key had, and a load reads the
    message back under the empty key (coerced to valid UTF-8).  When the file
    is missing, [Send] returns the error of the store although every request
    was accepted. *)
Theorem Send_always_records s s' m w :
  setDefaults s = Ok s' →
  Frequency s = NotifyAlways →
  accepted w (posts w) (requestFor s' m <$> To s') →
  (∃ w1, files w1 = files w
     ∧ posts w1 = posts w ++ (requestFor s' m <$> To s')
     ∧ Send s m w = reported s' (addToDb s' "" m w1))
  ∧ (∀ i db,
       files w !! DatabaseFilePath s' = Some i →
       readable i = true → writable i = true →
       json.Decode (data i) = Ok (Some db) →
       (Send s m w).1 = Returns None
       ∧ files (Send s m w).2
         = <[DatabaseFilePath s' := saved (<["" := m]> db) i]> (files w)
       ∧ (loadDb s' (Send s m w).2).1 = Ok (Some (json.recode (<["" := m]> db)))
       ∧ json.recode (<["" := m]> db) !! "" = Some (json.coerce m))
  ∧ (files w !! DatabaseFilePath s' = None →
     may_create w (DatabaseFilePath s') = true →
     (Send s m w).1
     = Returns (Some (fmt_Errorf "Slacker failed to add %s:%s to database: %s"
                        [arg_string ""; arg_string m;
                         arg_error (fmt_Errorf "Slacker failed to load database: %s"
                                      [arg_error io_EOF])]))).
Proof.
  intros Hs Hfreq Hacc.
  destruct (setDefaults_Ok _ _ Hs) as (_ & _ & Hfreq' & _).
  rewrite Hfreq in Hfreq'.
  destruct (sendEach_all_accepted s' m w Hacc) as (w1 & Hsend & Hp & Hf & Hc).
  assert (getHash s' m w = "") as Hhash.
  { unfold getHash. rewrite Hfreq'. done. }
  assert (Send s m w = reported s' (addToDb s' "" m w1)) as HS.
  { rewrite (Send_unfold _ _ _ _ Hs), Hhash.
    rewrite needToSend_always by done. by apply deliver_reported. }
  split_and!.
  - by exists w1.
  - intros i db Hi Hr Hw Hd. rewrite <- Hf in Hi.
    rewrite HS, (addToDb_existing _ _ _ _ _ _ Hi Hr Hw Hd). cbn [reported fst snd].
    split_and!; try done.
    + cbn. by rewrite Hf.
    + erewrite loadDb_saved; [done| |done]. cbn. apply lookup_insert_eq.
    + apply recode_empty_key.
  - intros Hnone Hcreate. rewrite <- Hf in Hnone. rewrite <- Hc in Hcreate.
    by rewrite HS, (addToDb_missing _ _ _ _ Hnone Hcreate).
Qed.

(** C9, at a concrete input: the record has the empty key from an earlier
    message, then the same call with no database file. *)
Lemma Send_always_records_witness :
  accepted (stored (json.Encode (Some {[ "" := "disk full" ]})) accepting) []
    (requestFor (ready NotifyAlways "disk") "disk is back"
     <$> To (ready NotifyAlways "disk"))
  ∧ (Send (notifier NotifyAlways "disk") "disk is back"
          (stored (json.Encode (Some {[ "" := "disk full" ]})) accepting)).1
    = Returns None
  ∧ (loadDb (ready NotifyAlways "disk")
       (Send (notifier NotifyAlways "disk") "disk is back"
             (stored (json.Encode (Some {[ "" := "disk full" ]})) accepting)).2).1
    = Ok (Some (json.recode (<["" := "disk is back"]> {[ "" := "disk full" ]})))
  ∧ json.recode (<["" := "disk is back"]> {[ "" := "disk full" ]}) !! ""
    = Some "disk is back"
  ∧ (Send (notifier NotifyAlways "disk") "disk is back" (fresh accepting)).1
    = Returns (Some (fmt_Errorf "Slacker failed to add %s:%s to database: %s"
                       [arg_string ""; arg_string "disk is back";
                        arg_error (fmt_Errorf "Slacker failed to load database: %s"
                                     [arg_error io_EOF])])).
Proof.
  assert (∀ fs, accepted (world fs accepting) []
            (requestFor (ready NotifyAlways "disk") "disk is back"
             <$> To (ready NotifyAlways "disk"))) as Hacc.
  { intros fs. repeat split. }
  destruct (Send_always_records (notifier NotifyAlways "disk") (ready NotifyAlways "disk")
              "disk is back"
              (stored (json.Encode (Some {[ "" := "disk full" ]})) accepting)
              eq_refl eq_refl (Hacc _)) as (_ & Hrec & _).
  destruct (Hrec (file (json.Encode (Some {[ "" := "disk full" ]})))
                 {[ "" := "disk full" ]} eq_refl eq_refl eq_refl)
    as (Hret & _ & Hload & Hkey).
  { vm_compute. reflexivity. }
  destruct (Send_always_records (notifier NotifyAlways "disk") (ready NotifyAlways "disk")
              "disk is back" (fresh accepting) eq_refl eq_refl (Hacc _))
    as (_ & _ & Hfail).
  split; [exact (Hacc _)|]. split; [exact Hret|]. split; [exact Hload|].
  split; [exact Hkey|]. exact (Hfail eq_refl eq_refl).
Defined.

(** C10.  For a frequency that is none of the three policies, the
    fingerprint is empty whatever the message and the clock.  After a [Send]
    that has delivered and returned nil, every [Send] of the same
    configuration in a world with the same files, whatever its message and
    its clock, returns nil without a request and only logs that the message
    is skipped. *)
Theorem Send_unknown_frequency_suppresses s s' :
  setDefaults s = Ok s' →
  Frequency s ≠ NotifyAlways →
  Frequency s ≠ NotifyOnceHour →
  Frequency s ≠ NotifyOnceDay →
  (∀ m w, getHash s' m w = "")
  ∧ (∀ m w w1,
       Send s m w = (Returns None, w1) →
       posts w1 ≠ posts w →
       ∀ m2 w2,
         files w2 = files w1 →
         Send s m2 w2
         = (Returns None,
            Log_Printf s' "Skip message %s: %s" [arg_string ""; arg_string m2] w2)).
Proof.
  intros Hs H0 H1 H2.
  destruct (setDefaults_Ok _ _ Hs) as (_ & _ & Hfreq & _).
  assert (∀ m w, getHash s' m w = "") as Hhash.
  { intros m w. unfold getHash. rewrite Hfreq.
    rewrite decide_False by done. by rewrite decide_False. }
  split; [done|].
  intros m w w1 HS Hposts m2 w2 Hfiles.
  rewrite (Send_unfold _ _ _ _ Hs), Hhash in HS.
  destruct (needToSend s' "" w) as [[|] w'] eqn:Hn.
  2:{ destruct (needToSend_false_inv _ _ _ _ Hn) as (-> & _).
      injection HS as <-. done. }
  unfold deliver in HS.
  destruct (sendEach s' m _ (To s') w') as [[err|] wd] eqn:Hd; [done|].
  destruct (addToDb s' "" m wd) as [[[err|]|] wa] eqn:Ha; try done.
  injection HS as ->.
  destruct (addToDb_done_inv _ _ _ _ _ Ha) as (i & db & Hi & Hr & Hw & Hdec & ->).
  assert (loadDb s' w2 = (Ok (Some (json.recode (<["" := m]> db))), w2)) as Hl.
  { apply (loadDb_saved _ _ i); [|done]. rewrite Hfiles. cbn.
    apply lookup_insert_eq. }
  rewrite (Send_unfold _ _ _ _ Hs), Hhash.
  rewrite (needToSend_loaded _ _ _ _ _ ltac:(by rewrite Hfreq) Hl).
  cbn [inRecord]. rewrite recode_empty_key. rewrite bool_decide_true by eauto.
  done.
Qed.

(** C10, at a concrete input: frequency 7; a second message, seven years
    later, is skipped. *)
Lemma Send_unknown_frequency_suppresses_witness :
  (Send (notifier 7 "disk") "disk full" (stored "{}" accepting)).1 = Returns None
  ∧ length (posts (Send (notifier 7 "disk") "disk full" (stored "{}" accepting)).2)
    = 2%nat
  ∧ Send (notifier 7 "disk") "fan failure"
         (mkWorld (files (Send (notifier 7 "disk") "disk full" (stored "{}" accepting)).2)
                  (λ _, true) (time.Date 2031 8 9 4) accepting [] [])
    = (Returns None,
       Log_Printf (ready 7 "disk") "Skip message %s: %s"
         [arg_string ""; arg_string "fan failure"]
         (mkWorld (files (Send (notifier 7 "disk") "disk full" (stored "{}" accepting)).2)
                  (λ _, true) (time.Date 2031 8 9 4) accepting [] [])).
Proof.
  destruct (Send_unknown_frequency_suppresses (notifier 7 "disk") (ready 7 "disk")
              eq_refl ltac:(discriminate) ltac:(discriminate) ltac:(discriminate))
    as [_ Hsup].
  split; [vm_compute; reflexivity|]. split; [vm_compute; reflexivity|].
  apply (Hsup "disk full" (stored "{}" accepting)
              (Send (notifier 7 "disk") "disk full" (stored "{}" accepting)).2).
  - vm_compute. reflexivity.
  - vm_compute. discriminate.
  - reflexivity.
Defined.

(** * Further properties of [Send] *)

(** X1.  Under [NotifyOnceHour] and [NotifyOnceDay], once a [Send] of a
    message has returned nil, a [Send] of the same message with the same
    configuration in the same time bucket, on the files the first one left,
    is skipped: it returns nil and only logs the skip.  The fingerprint is
    taken to be valid UTF-8, so that it is written to the file as it is. *)
Theorem Send_once_per_bucket s s' m w w1 w2 :
  setDefaults s = Ok s' →
  Frequency s = NotifyOnceHour ∨ Frequency s = NotifyOnceDay →
  utf8.ValidString (getHash s' m w) = true →
  Send s m w = (Returns None, w1) →
  files w2 = files w1 →
  bucket (Frequency s) (now w2) = bucket (Frequency s) (now w) →
  Send s m w2
  = (Returns None,
     Log_Printf s' "Skip message %s: %s"
                [arg_string (getHash s' m w); arg_string m] w2).
Proof.
  intros Hs Hfreq Hvalid HS Hfiles Hbucket.
  destruct (setDefaults_Ok _ _ Hs) as (_ & _ & Hf & _).
  assert (Frequency s' = NotifyOnceHour ∨ Frequency s' = NotifyOnceDay) as Hfreq'
    by by rewrite Hf.
  assert (Frequency s' ≠ NotifyAlways) as Hna.
  { destruct Hfreq' as [-> | ->]; discriminate. }
  assert (getHash s' m w2 = getHash s' m w) as Hhash.
  { rewrite !getHash_bucket by done. by rewrite Hf, Hbucket. }
  assert (∃ db, loadDb s' w2 = (Ok db, w2)
                ∧ inRecord db (getHash s' m w) = true) as (db & Hl & Hin).
  { rewrite (Send_unfold _ _ _ _ Hs) in HS.
    destruct (needToSend s' (getHash s' m w) w) as [[|] w'] eqn:Hn.
    - unfold deliver in HS.
      destruct (sendEach s' m _ (To s') w') as [[err|] wd] eqn:Hd; [done|].
      destruct (addToDb s' (getHash s' m w) m wd) as [[[err|]|] wa] eqn:Ha; try done.
      injection HS as ->.
      destruct (addToDb_done_inv _ _ _ _ _ Ha) as (i & db & Hi & Hr & Hw & Hdec & ->).
      eexists. split.
      + apply (loadDb_saved _ _ i); [|done]. rewrite Hfiles. cbn.
        apply lookup_insert_eq.
      + cbn [inRecord]. apply bool_decide_eq_true.
        pose proof (recode_is_Some (<[getHash s' m w := m]> db) (getHash s' m w))
          as Hkey.
        rewrite coerce_valid in Hkey by done. apply Hkey.
        rewrite lookup_insert_eq. by eexists.
    - destruct (needToSend_false_inv _ _ _ _ Hn) as (-> & _ & db & Hl & Hin).
      injection HS as <-. cbn in Hfiles.
      destruct (loadDb_Ok_inv _ _ _ _ Hl) as (_ & i & Hi & Hr & Hdec).
      exists db. split; [|done]. rewrite <- Hfiles in Hi.
      by rewrite (loadDb_existing _ _ _ Hi Hr), Hdec. }
  rewrite (Send_unfold _ _ _ _ Hs), Hhash.
  by rewrite (needToSend_loaded _ _ _ _ _ Hna Hl), Hin.
Qed.

(** X1, at a concrete input: the same message twice in one hour. *)
Lemma Send_once_per_bucket_witness :
  (Send (notifier NotifyOnceHour "disk") "disk full" (stored "{}" accepting)).1
  = Returns None
  ∧ length (posts (Send (notifier NotifyOnceHour "disk") "disk full"
                        (stored "{}" accepting)).2) = 2%nat
  ∧ Send (notifier NotifyOnceHour "disk") "disk full"
         (mkWorld (files (Send (notifier NotifyOnceHour "disk") "disk full"
                               (stored "{}" accepting)).2)
                  (λ _, true) (time.Date 2024 1 2 15) accepting [] [])
    = (Returns None,
       Log_Printf (ready NotifyOnceHour "disk") "Skip message %s: %s"
         [arg_string fingerprint; arg_string "disk full"]
         (mkWorld (files (Send (notifier NotifyOnceHour "disk") "disk full"
                               (stored "{}" accepting)).2)
                  (λ _, true) (time.Date 2024 1 2 15) accepting [] [])).
Proof.
  split; [vm_compute; reflexivity|]. split; [vm_compute; reflexivity|].
  apply (Send_once_per_bucket (notifier NotifyOnceHour "disk")
           (ready NotifyOnceHour "disk") "disk full" (stored "{}" accepting)
           (Send (notifier NotifyOnceHour "disk") "disk full" (stored "{}" accepting)).2).
  - reflexivity.
  - left. reflexivity.
  - vm_compute. reflexivity.
  - vm_compute. reflexivity.
  - reflexivity.
  - reflexivity.
Defined.

(** X2.  When the database file holds the JSON value [null], the decoder
    sets the map to nil; the dedup check reads the nil map and allows the
    message, every recipient that accepts gets it, and then [addToDb] assigns
    to an entry of the nil map: [Send] does not return, it panics. *)
Theorem Send_panics_on_null_database s s' m w i :
  setDefaults s = Ok s' →
  files w !! DatabaseFilePath s' = Some i →
  readable i = true →
  json.Decode (data i) = Ok None →
  accepted w (posts w) (requestFor s' m <$> To s') →
  (Send s m w).1 = Panics "assignment to entry in nil map"
  ∧ posts (Send s m w).2 = posts w ++ (requestFor s' m <$> To s').
Proof.
  intros Hs Hi Hr Hd Hacc.
  assert (needToSend s' (getHash s' m w) w = (true, w)) as Hn.
  { destruct (decide (Frequency s' = NotifyAlways)) as [Ha|Ha].
    - by apply needToSend_always.
    - by rewrite (needToSend_loaded _ _ _ _ _ Ha (loadDb_null _ _ _ Hi Hr Hd)). }
  destruct (sendEach_all_accepted s' m w Hacc) as (w1 & Hsend & Hp & Hf & _).
  rewrite (Send_unfold _ _ _ _ Hs), Hn, (deliver_reported _ _ _ _ _ Hsend).
  rewrite <- Hf in Hi. unfold addToDb. rewrite (loadDb_null _ _ _ Hi Hr Hd).
  done.
Qed.

(** X2, at a concrete input. *)
Lemma Send_panics_on_null_database_witness :
  (Send (notifier NotifyOnceDay "disk") "disk full" (stored "null" accepting)).1
  = Panics "assignment to entry in nil map"
  ∧ posts (Send (notifier NotifyOnceDay "disk") "disk full" (stored "null" accepting)).2
    = requestFor (ready NotifyOnceDay "disk") "disk full" <$> [ops; oncall].
Proof.
  apply (Send_panics_on_null_database (notifier NotifyOnceDay "disk")
           (ready NotifyOnceDay "disk") "disk full" (stored "null" accepting)
           (file "null")); try reflexivity.
  repeat split.
Defined.

(** X3.  Under a frequency other than [NotifyAlways], when the database
    file is there but is not JSON, [Send] delivers to every recipient that
    accepts and then returns the error of [addToDb], whose load fails as the
    load of the dedup check did; the files are as before, so the next call
    does the same. *)
Theorem Send_repeats_on_undecodable_database s s' m w i err :
  setDefaults s = Ok s' →
  Frequency s ≠ NotifyAlways →
  files w !! DatabaseFilePath s' = Some i →
  readable i = true →
  json.Decode (data i) = Err err →
  accepted w (posts w) (requestFor s' m <$> To s') →
  (Send s m w).1
  = Returns (Some (fmt_Errorf "Slacker failed to add %s:%s to database: %s"
                     [arg_string (getHash s' m w); arg_string m;
                      arg_error (fmt_Errorf "Slacker failed to load database: %s"
                                   [arg_error err])]))
  ∧ posts (Send s m w).2 = posts w ++ (requestFor s' m <$> To s')
  ∧ files (Send s m w).2 = files w.
Proof.
  intros Hs Hna Hi Hr Hd Hacc.
  destruct (setDefaults_Ok _ _ Hs) as (_ & _ & Hf & _). rewrite <- Hf in Hna.
  assert (∀ w0, files w0 = files w →
            loadDb s' w0 = (Err (loadErr err), w0)) as Hload.
  { intros w0 E. rewrite <- E in Hi. by rewrite (loadDb_existing _ _ _ Hi Hr), Hd. }
  set (w2 := Log_Printf s' "Slacker failed to load database: %s"
               [arg_error (loadErr err)] w).
  assert (needToSend s' (getHash s' m w) w = (true, w2)) as Hn.
  { by apply needToSend_failed, Hload. }
  assert (files w2 = files w ∧ posts w2 = posts w ∧ endpoint w2 = endpoint w)
    as (Hf2 & Hp2 & He2).
  { unfold w2, Log_Printf. by destruct (Log s'). }
  destruct (sendEach_all_accepted s' m w2) as (w1 & Hsend & Hp & Hf1 & _).
  { rewrite Hp2. by apply (accepted_ext w). }
  rewrite (Send_unfold _ _ _ _ Hs), Hn, (deliver_reported _ _ _ _ _ Hsend).
  unfold addToDb. rewrite Hload by congruence. cbn [reported fst snd].
  split_and!; [done|..].
  - unfold Log_Printf. destruct (Log s'); cbn; congruence.
  - unfold Log_Printf. destruct (Log s'); cbn; congruence.
Qed.

(** X3, at a concrete input: a file that is not JSON. *)
Lemma Send_repeats_on_undecodable_database_witness :
  json.Decode garbage = Err json_Error
  ∧ (Send (notifier NotifyOnceHour "disk") "disk full" (stored garbage accepting)).1
    = Returns (Some (fmt_Errorf "Slacker failed to add %s:%s to database: %s"
                       [arg_string fingerprint; arg_string "disk full";
                        arg_error (fmt_Errorf "Slacker failed to load database: %s"
                                     [arg_error json_Error])]))
  ∧ posts (Send (notifier NotifyOnceHour "disk") "disk full" (stored garbage accepting)).2
    = requestFor (ready NotifyOnceHour "disk") "disk full" <$> [ops; oncall]
  ∧ files (Send (notifier NotifyOnceHour "disk") "disk full" (stored garbage accepting)).2
    = files (stored garbage accepting).
Proof.
  split; [vm_compute; reflexivity|].
  apply (Send_repeats_on_undecodable_database (notifier NotifyOnceHour "disk")
           (ready NotifyOnceHour "disk") "disk full" (stored garbage accepting)
           (file garbage) json_Error); try reflexivity.
  - discriminate.
  - repeat split.
Defined.

(** * The rest of the program

    Facts about the strings that reach the database file, about the two
    layouts of the clock, and about [setDefaults], [send], [loadDb],
    [addToDb], [getHash] and [Send] beyond the claims. *)

(** ** Valid UTF-8 *)

(** [int(byte(x))] for a value that fits a byte. *)
Lemma val_of_Z x : 0 <= x < 256 → Octet.val (Octet.of_Z x) = x.
Proof.
  intros H. unfold Octet.val, Octet.of_Z.
  rewrite N_ascii_embedding.
  - rewrite Z.mod_small by lia. lia.
  - rewrite Z.mod_small by lia. lia.
Qed.

Lemma ValidString_ascii c t :
  Octet.val c < 0x80 → utf8.ValidString (String c t) = utf8.ValidString t.
Proof.
  intros H. unfold utf8.ValidString. cbn [utf8.ValidString_from utf8.DecodeRune].
  unfold utf8.RuneSelf, utf8.RuneError. by decide_cmp.
Qed.

(** The check of [ValidString] steps over the encoding of one rune. *)
Lemma ValidString_wellcoded p t :
  wellcoded p → utf8.ValidString (p +:+ t) = utf8.ValidString t.
Proof.
  intros [(c & -> & H)|[(c0 & c1 & -> & H)|[(c0 & c1 & c2 & -> & H)
         |(c0 & c1 & c2 & c3 & -> & H)]]].
  - by apply ValidString_ascii.
  - change (String c0 (String c1 "") +:+ t) with (String c0 (String c1 t)).
    unfold utf8.ValidString. cbn [utf8.ValidString_from].
    rewrite DecodeRune_seq2 by done. by rewrite andb_false_r.
  - change (String c0 (String c1 (String c2 "")) +:+ t)
      with (String c0 (String c1 (String c2 t))).
    unfold utf8.ValidString. cbn [utf8.ValidString_from].
    rewrite DecodeRune_seq3 by done. by rewrite andb_false_r.
  - change (String c0 (String c1 (String c2 (String c3 ""))) +:+ t)
      with (String c0 (String c1 (String c2 (String c3 t)))).
    unfold utf8.ValidString. cbn [utf8.ValidString_from].
    rewrite DecodeRune_seq4 by done. by rewrite andb_false_r.
Qed.

Lemma wellcoded_ascii x : 0 <= x < 0x80 → wellcoded (String (Octet.of_Z x) "").
Proof. intros H. left. eexists. split; [done|]. rewrite val_of_Z; lia. Qed.

Lemma EncodeRune_2 r :
  0x80 <= r <= 0x7FF →
  ∃ c0 c1, utf8.EncodeRune r = String c0 (String c1 "") ∧ seq2 c0 c1.
Proof.
  intros H. unfold utf8.EncodeRune. decide_cmp.
  change 0x3F with (2 ^ 6 - 1). unbits.
  rewrite lead2, trail by arith.
  eexists _, _. split; [done|]. unfold seq2.
  rewrite !val_of_Z by arith. arith.
Qed.

Lemma encode3_seq3 r :
  0x800 <= r <= 0xFFFF → ¬ (0xD800 <= r <= 0xDFFF) →
  ∃ c0 c1 c2, utf8.encode3 r = String c0 (String c1 (String c2 "")) ∧ seq3 c0 c1 c2.
Proof.
  intros H Hs. unfold utf8.encode3.
  change 0x3F with (2 ^ 6 - 1). unbits.
  rewrite lead3, !trail by arith.
  eexists _, _, _. split; [done|]. unfold seq3.
  rewrite !val_of_Z by arith. arith.
Qed.

Lemma EncodeRune_4 r :
  0x10000 <= r <= 0x10FFFF →
  ∃ c0 c1 c2 c3, utf8.EncodeRune r
                 = String c0 (String c1 (String c2 (String c3 "")))
                 ∧ seq4 c0 c1 c2 c3.
Proof.
  intros H. unfold utf8.EncodeRune, utf8.MaxRune, utf8.surrogateMin, utf8.surrogateMax.
  decide_cmp.
  change 0x3F with (2 ^ 6 - 1). unbits.
  rewrite lead4, !trail by arith.
  eexists _, _, _, _. split; [done|]. unfold seq4.
  rewrite !val_of_Z by arith. arith.
Qed.

(** [EncodeRune] writes valid UTF-8, whatever the rune. *)
Lemma EncodeRune_wellcoded r : wellcoded (utf8.EncodeRune r).
Proof.
  assert (wellcoded (utf8.encode3 utf8.RuneError)) as Herr.
  { right. right. left.
    destruct (encode3_seq3 utf8.RuneError) as (c0 & c1 & c2 & E & Hs);
      [unfold utf8.RuneError; lia..|]. by exists c0, c1, c2. }
  destruct (decide (0 <= r <= 0x7F)) as [A|A].
  { unfold utf8.EncodeRune. decide_cmp. apply wellcoded_ascii. lia. }
  destruct (decide (0x80 <= r <= 0x7FF)) as [B|B].
  { right. left. by apply EncodeRune_2. }
  destruct (decide (r < 0 ∨ 0x10FFFF < r ∨ 0xD800 <= r <= 0xDFFF)) as [C|C].
  { unfold utf8.EncodeRune, utf8.MaxRune, utf8.surrogateMin, utf8.surrogateMax.
    destruct (Z.leb_spec 0 r); cbn [andb]; [|destruct C as [?|[?|?]]; [|lia..]].
    - rewrite (proj2 (Z.leb_gt r 0x7F)) by lia.
      rewrite (proj2 (Z.leb_gt r 0x7FF)) by lia.
      rewrite (proj2 (Z.ltb_ge r 0)) by lia. cbn [orb].
      destruct C as [?|[?|?]]; [lia| |].
      + rewrite (proj2 (Z.ltb_lt 0x10FFFF r)) by lia. done.
      + rewrite (proj2 (Z.leb_le 0xD800 r)), (proj2 (Z.leb_le r 0xDFFF)) by lia.
        by rewrite orb_true_r.
    - rewrite (proj2 (Z.ltb_lt r 0)) by lia. done. }
  destruct (decide (r <= 0xFFFF)) as [D|D].
  - right. right. left.
    destruct (encode3_seq3 r) as (c0 & c1 & c2 & E & Hs); [lia..|].
    exists c0, c1, c2. split; [|done]. rewrite <- E.
    unfold utf8.EncodeRune, utf8.MaxRune, utf8.surrogateMin, utf8.surrogateMax.
    decide_cmp.
    destruct (Z.leb_spec 0xD800 r); destruct (Z.leb_spec r 0xDFFF); try lia; done.
  - right. right. right. apply EncodeRune_4. lia.
Qed.

Lemma unescape_ascii e x : json.unescape e = Some x → Octet.val x < 0x80.
Proof.
  unfold json.unescape.
  repeat match goal with
  | |- context [if ?b then _ else _] => destruct b eqn:?
  end; intros [= <-]; try (vm_compute; reflexivity).
  bounds.
  repeat match goal with
  | H : (_ || _)%bool = true |- _ => apply orb_true_iff in H as [H|H]
  | H : (_ =? _) = true |- _ => apply Z.eqb_eq in H
  end; lia.
Qed.

(** What the decoder makes of a string literal is valid UTF-8: it copies
    ASCII bytes and writes everything else with [EncodeRune]. *)
Lemma unquote_valid s :
  ∀ skip t n, json.unquote skip s = Some (t, n) → utf8.ValidString t = true.
Proof.
  assert (Hemit : ∀ p o t n,
    wellcoded p → json.emit p o = Some (t, n) →
    (∀ t' n', o = Some (t', n') → utf8.ValidString t' = true) →
    utf8.ValidString t = true).
  { intros p [[t' n']|] t n Hp [= <- <-] IH.
    rewrite ValidString_wellcoded by done. by eapply IH. }
  induction s as [|c r IH]; intros skip t n; [done|].
  destruct skip as [|k].
  2:{ cbn [json.unquote]. destruct (json.unquote k r) as [[t' n']|] eqn:E; [|done].
      intros [= <- <-]. by eapply IH. }
  cbn [json.unquote].
  destruct (Ascii.eqb c json.quote); [by intros [= <- <-]|].
  destruct (Ascii.eqb c json.backslash).
  - destruct r as [|e r']; [done|].
    destruct (json.unescape e) as [x|] eqn:Hx.
    + intros H. eapply Hemit; [|exact H|apply IH].
      left. exists x. split; [done|]. by eapply unescape_ascii.
    + destruct (Ascii.eqb e "u"); [|done].
      destruct (_ <? 0); [done|].
      destruct (utf16.IsSurrogate _).
      * destruct (_ =? utf8.RuneError); intros H;
          (eapply Hemit; [apply EncodeRune_wellcoded|exact H|apply IH]).
      * intros H. eapply Hemit; [apply EncodeRune_wellcoded|exact H|apply IH].
  - destruct (Z.ltb_spec (Octet.val c) 0x20) as [Hlo|Hlo]; [done|].
    destruct (Z.ltb_spec (Octet.val c) utf8.RuneSelf) as [Hc|Hc].
    + intros H. eapply Hemit; [|exact H|apply IH]. left. by exists c.
    + destruct (utf8.DecodeRune (String c r)) as [rr size].
      intros H. eapply Hemit; [apply EncodeRune_wellcoded|exact H|apply IH].
Qed.

Lemma ValidRecord_insert k v db :
  utf8.ValidString k = true → utf8.ValidString v = true →
  ValidRecord db → ValidRecord (<[k := v]> db).
Proof. intros Hk Hv Hdb. by apply map_Forall_insert_2. Qed.

(** The decoder only stores strings that it has unquoted. *)
Lemma scan_valid s :
  ∀ skip ph db m,
    phase_valid ph → ValidRecord db →
    json.scan skip ph db s = Ok (Some m) → ValidRecord m.
Proof.
  induction s as [|c r IH]; intros skip ph db m Hph Hdb.
  { cbn [json.scan]. by destruct ph, skip. }
  destruct skip as [|k]; [|by apply IH].
  cbn [json.scan].
  destruct (json.isSpace c); [by apply IH|].
  assert (Hkey : (if Ascii.eqb c json.quote
                  then match json.unquote 0 r with
                       | Some (k, n) => json.scan n (json.endKey k) db r
                       | None => Err json_Error
                       end
                  else Err json_Error) = Ok (Some m) → ValidRecord m).
  { destruct (Ascii.eqb c json.quote); [|done].
    destruct (json.unquote 0 r) as [[k n]|] eqn:E; [|done].
    apply IH; [|done]. by eapply unquote_valid. }
  destruct ph as [| | |k|k|].
  - destruct (Ascii.eqb c "{"); [by apply IH|].
    by destruct (Ascii.eqb c "n" && json.ull r).
  - destruct (Ascii.eqb c "}"); [by intros [= <-]|done].
  - done.
  - destruct (Ascii.eqb c ":"); [by apply IH|done].
  - destruct (Ascii.eqb c json.quote).
    + destruct (json.unquote 0 r) as [[v n]|] eqn:E; [|done].
      apply IH; [done|]. apply ValidRecord_insert; [done| |done].
      by eapply unquote_valid.
    + destruct (Ascii.eqb c "n" && json.ull r); [|done].
      apply IH; [done|]. by apply ValidRecord_insert.
  - destruct (Ascii.eqb c ","); [by apply IH|].
    destruct (Ascii.eqb c "}"); [by intros [= <-]|done].
Qed.

Lemma Decode_valid input m : json.Decode input = Ok (Some m) → ValidRecord m.
Proof. apply scan_valid; [done|]. apply map_Forall_empty. Qed.

Lemma ValidString_app_len n :
  ∀ a b, (String.length a <= n)%nat → utf8.ValidString a = true →
         utf8.ValidString (a +:+ b) = utf8.ValidString b.
Proof.
  induction n as [|n IH]; intros a b Hlen Ha.
  { destruct a; [done|simpl in Hlen; lia]. }
  destruct a as [|c0 r0]; [done|].
  destruct (Z.ltb_spec (Octet.val c0) 0x80) as [A|A].
  - rewrite String_app_cons, ValidString_ascii in * by done.
    apply IH; [simpl in Hlen; lia|done].
  - unfold utf8.ValidString in Ha. cbn [utf8.ValidString_from] in Ha.
    destruct (utf8.DecodeRune (String c0 r0)) as [r size] eqn:D.
    destruct ((r =? utf8.RuneError) && (size =? 1)%nat) eqn:Inv; [done|].
    assert (r ≠ utf8.RuneError ∨ size ≠ 1%nat) as Hvalid.
    { apply andb_false_iff in Inv as [?%Z.eqb_neq|?%Nat.eqb_neq]; auto. }
    destruct (DecodeRune_inv _ _ _ _ D A Hvalid)
      as [(c1 & r1 & -> & -> & Hs & ->)
         |[(c1 & c2 & r2 & -> & -> & Hs & ->)
          |(c1 & c2 & c3 & r3 & -> & -> & Hs & ->)]].
    + change (String c0 (String c1 r1) +:+ b)
        with (String c0 (String c1 "") +:+ (r1 +:+ b)).
      rewrite ValidString_wellcoded by (right; left; eauto).
      apply IH; [simpl in Hlen; lia|done].
    + change (String c0 (String c1 (String c2 r2)) +:+ b)
        with (String c0 (String c1 (String c2 "")) +:+ (r2 +:+ b)).
      rewrite ValidString_wellcoded by (right; right; left; eauto 6).
      apply IH; [simpl in Hlen; lia|done].
    + change (String c0 (String c1 (String c2 (String c3 r3))) +:+ b)
        with (String c0 (String c1 (String c2 (String c3 ""))) +:+ (r3 +:+ b)).
      rewrite ValidString_wellcoded by (right; right; right; eauto 8).
      apply IH; [simpl in Hlen; lia|done].
Qed.

(** Valid UTF-8 in front of a string does not change its validity. *)
Lemma ValidString_app a b :
  utf8.ValidString a = true → utf8.ValidString (a +:+ b) = utf8.ValidString b.
Proof. by apply (ValidString_app_len (String.length a)). Qed.

(** ** The layouts of the clock *)

Lemma pretty_N_char_ascii n : Octet.val (pretty_N_char n) < 0x80.
Proof.
  unfold pretty_N_char. repeat case_match; vm_compute; reflexivity.
Qed.

Lemma ValidString_pretty_N_go x :
  ∀ s, utf8.ValidString (pretty_N_go x s) = utf8.ValidString s.
Proof.
  induction (N.lt_wf_0 x) as [x _ IH]; intros s.
  destruct (decide (x = 0%N)) as [->|Hx]; [done|].
  rewrite pretty_N_go_step by lia.
  rewrite IH by (apply N.div_lt; lia).
  apply ValidString_ascii, pretty_N_char_ascii.
Qed.

Lemma ValidString_zeros k t :
  utf8.ValidString (time.zeros k +:+ t) = utf8.ValidString t.
Proof.
  induction k as [|k IH]; [done|].
  cbn [time.zeros]. rewrite String_app_cons, ValidString_ascii; [done|].
  vm_compute. reflexivity.
Qed.

Lemma ValidString_dash u : utf8.ValidString ("-" +:+ u) = utf8.ValidString u.
Proof.
  change ("-" +:+ u) with (String "-" u). apply ValidString_ascii.
  vm_compute. reflexivity.
Qed.

(** [appendInt] writes ASCII: a sign, zeros and digits. *)
Lemma ValidString_appendInt x width t :
  utf8.ValidString (time.appendInt x width +:+ t) = utf8.ValidString t.
Proof.
  unfold time.appendInt. rewrite !String_app_assoc.
  assert (utf8.ValidString (pretty (Z.abs_N x)) = true) as Hd.
  { unfold pretty, pretty_N. case_decide; [done|].
    by rewrite ValidString_pretty_N_go. }
  assert (∀ u, utf8.ValidString ((if x <? 0 then "-" else "") +:+ u)
               = utf8.ValidString u) as Hsign.
  { intros u. destruct (x <? 0); [apply ValidString_dash|done]. }
  by rewrite Hsign, ValidString_zeros, ValidString_app.
Qed.

Lemma ValidString_formatDay t u :
  utf8.ValidString (time.formatDay t +:+ u) = utf8.ValidString u.
Proof.
  unfold time.formatDay. rewrite !String_app_assoc.
  rewrite ValidString_appendInt, ValidString_dash.
  rewrite ValidString_appendInt, ValidString_dash.
  apply ValidString_appendInt.
Qed.

Lemma ValidString_formatHour t u :
  utf8.ValidString (time.formatHour t +:+ u) = utf8.ValidString u.
Proof.
  unfold time.formatHour. rewrite !String_app_assoc.
  rewrite ValidString_formatDay, ValidString_dash.
  apply ValidString_appendInt.
Qed.

Ltac narith := zify; Z.to_euclidean_division_equations; lia.

(** The digits of a number below ten thousand. *)
Lemma pretty_N_go_1 x s :
  (0 < x < 10)%N → pretty_N_go x s = String (pretty_N_char x) s.
Proof.
  intros H. rewrite pretty_N_go_step by lia.
  rewrite N.div_small, N.mod_small by lia. done.
Qed.

Lemma pretty_N_go_2 x s :
  (10 <= x < 100)%N →
  pretty_N_go x s
  = String (pretty_N_char (x / 10)) (String (pretty_N_char (x `mod` 10)) s).
Proof.
  intros H. rewrite pretty_N_go_step by lia.
  apply pretty_N_go_1. narith.
Qed.

Lemma pretty_N_go_3 x s :
  (100 <= x < 1000)%N →
  pretty_N_go x s
  = String (pretty_N_char (x / 100))
      (String (pretty_N_char ((x / 10) `mod` 10)) (String (pretty_N_char (x `mod` 10)) s)).
Proof.
  intros H. rewrite pretty_N_go_step by lia.
  rewrite pretty_N_go_2 by narith.
  replace (x / 10 / 10)%N with (x / 100)%N by narith. done.
Qed.

Lemma pretty_N_go_4 x s :
  (1000 <= x < 10000)%N →
  pretty_N_go x s
  = String (pretty_N_char (x / 1000))
      (String (pretty_N_char ((x / 100) `mod` 10))
         (String (pretty_N_char ((x / 10) `mod` 10)) (String (pretty_N_char (x `mod` 10)) s))).
Proof.
  intros H. rewrite pretty_N_go_step by lia.
  rewrite pretty_N_go_3 by narith.
  replace (x / 10 / 100)%N with (x / 1000)%N by narith.
  replace (x / 10 / 10)%N with (x / 100)%N by narith. done.
Qed.

(** The two and the four digits of the fields of a date. *)
Lemma appendInt_2 x :
  0 <= x < 100 →
  time.appendInt x 2 = String (digit (x / 10)) (String (digit (x mod 10)) "").
Proof.
  intros H. unfold time.appendInt, digit. rewrite (proj2 (Z.ltb_ge x 0)) by lia.
  change ("" +:+ ?u) with u.
  replace (Z.abs_N x) with (Z.to_N x) by lia.
  rewrite Z2N.inj_div, Z2N.inj_mod by lia.
  change (Z.to_N 10) with 10%N.
  assert (0 <= Z.to_N x < 100)%N as Hn by lia. revert Hn.
  generalize (Z.to_N x). clear x H. intros n Hn.
  unfold pretty, pretty_N. case_decide as E.
  - subst n. done.
  - destruct (decide (n < 10)%N).
    + rewrite pretty_N_go_1 by lia.
      replace (n / 10)%N with 0%N by narith.
      replace (n `mod` 10)%N with n by narith. done.
    + rewrite pretty_N_go_2 by lia. done.
Qed.

Lemma appendInt_4 x :
  0 <= x < 10000 →
  time.appendInt x 4
  = String (digit (x / 1000))
      (String (digit (x / 100 mod 10))
         (String (digit (x / 10 mod 10)) (String (digit (x mod 10)) ""))).
Proof.
  intros H. unfold time.appendInt, digit. rewrite (proj2 (Z.ltb_ge x 0)) by lia.
  change ("" +:+ ?u) with u.
  replace (Z.abs_N x) with (Z.to_N x) by lia.
  rewrite !Z2N.inj_mod, !Z2N.inj_div by (try apply Z.div_pos; lia).
  change (Z.to_N 10) with 10%N. change (Z.to_N 100) with 100%N.
  change (Z.to_N 1000) with 1000%N.
  assert (0 <= Z.to_N x < 10000)%N as Hn by lia. revert Hn.
  generalize (Z.to_N x). clear x H. intros n Hn.
  unfold pretty, pretty_N. case_decide as E.
  - subst n. done.
  - destruct (decide (n < 10)%N).
    { rewrite pretty_N_go_1 by lia.
      replace (n / 1000)%N with 0%N by narith.
      replace ((n / 100) `mod` 10)%N with 0%N by narith.
      replace ((n / 10) `mod` 10)%N with 0%N by narith.
      replace (n `mod` 10)%N with n by narith. done. }
    destruct (decide (n < 100)%N).
    { rewrite pretty_N_go_2 by lia.
      replace (n / 1000)%N with 0%N by narith.
      replace ((n / 100) `mod` 10)%N with 0%N by narith.
      replace ((n / 10) `mod` 10)%N with (n / 10)%N by narith. done. }
    destruct (decide (n < 1000)%N).
    { rewrite pretty_N_go_3 by lia.
      replace (n / 1000)%N with 0%N by narith.
      replace ((n / 100) `mod` 10)%N with (n / 100)%N by narith. done. }
    rewrite pretty_N_go_4 by lia. done.
Qed.

Lemma digit_inj x y : 0 <= x < 10 → 0 <= y < 10 → digit x = digit y → x = y.
Proof.
  intros Hx Hy E. apply pretty_N_char_inj in E; lia.
Qed.

Lemma formatDay_digits t :
  calendar t →
  time.formatDay t
  = String (digit (time.Year t / 1000))
   (String (digit (time.Year t / 100 mod 10))
   (String (digit (time.Year t / 10 mod 10))
   (String (digit (time.Year t mod 10))
   (String "-"
   (String (digit (time.Month t / 10))
   (String (digit (time.Month t mod 10))
   (String "-"
   (String (digit (time.Day t / 10))
   (String (digit (time.Day t mod 10)) ""))))))))).
Proof.
  intros (Hy & Hm & Hd & _). unfold time.formatDay.
  rewrite appendInt_4, !appendInt_2 by lia. done.
Qed.

Lemma formatDay_inj t1 t2 :
  calendar t1 → calendar t2 →
  time.formatDay t1 = time.formatDay t2 →
  time.Year t1 = time.Year t2 ∧ time.Month t1 = time.Month t2
  ∧ time.Day t1 = time.Day t2.
Proof.
  intros H1 H2. rewrite !formatDay_digits by done.
  destruct H1 as (Hy1 & Hm1 & Hd1 & _), H2 as (Hy2 & Hm2 & Hd2 & _).
  intros [= E1 E2 E3 E4 E5 E6 E7 E8].
  apply digit_inj in E1, E2, E3, E4, E5, E6, E7, E8; arith.
Qed.

(** The two layouts tell the dates of the calendar apart. *)
Lemma formatHour_inj t1 t2 :
  calendar t1 → calendar t2 →
  time.formatHour t1 = time.formatHour t2 → t1 = t2.
Proof.
  intros H1 H2. unfold time.formatHour. rewrite !formatDay_digits by done.
  pose proof H1 as (Hy1 & Hm1 & Hd1 & Hh1). pose proof H2 as (Hy2 & Hm2 & Hd2 & Hh2).
  rewrite !appendInt_2 by lia.
  intros [= E1 E2 E3 E4 E5 E6 E7 E8 E9 E10].
  apply digit_inj in E1, E2, E3, E4, E5, E6, E7, E8, E9, E10; try arith.
  destruct t1, t2. cbn in *. f_equal; arith.
Qed.

(** ** The program *)

(** A record that [loadDb] returns holds valid UTF-8 only. *)
Lemma loadDb_valid s w db w' : loadDb s w = (Ok (Some db), w') → ValidRecord db.
Proof.
  intros H. destruct (loadDb_Ok_inv _ _ _ _ H) as (_ & i & _ & _ & Hd).
  by eapply Decode_valid.
Qed.

Lemma Marshal_members m :
  SlackMessage.Marshal m
  = "{" +:+ json.appendMembers
              [("channel", SlackMessage.Channel m);
               ("username", SlackMessage.Username m);
               ("text", SlackMessage.Text m);
               ("icon_emoji", SlackMessage.IconEmoji m)] +:+ "}" +:+ "".
Proof.
  unfold SlackMessage.Marshal. cbn [json.appendMembers].
  by rewrite !String_app_assoc.
Qed.

(** The payload of [send] is a JSON object with the four fields. *)
Lemma Decode_Marshal m : json.Decode (SlackMessage.Marshal m) = Ok (Some (fields m)).
Proof.
  rewrite Marshal_members. unfold json.Decode.
  change (json.scan 0 json.beginValue ∅ ("{" +:+ ?x))
    with (json.scan 0 json.beginStringOrEmpty ∅ x).
  rewrite scan_members by auto. done.
Qed.

(** The requests of the loop: a prefix of the recipients, all of them when
    the loop ends without an error. *)
Lemma sendEach_sent s m to sm w :
  fitted s sm →
  ∃ n, (n <= length to)%nat
    ∧ posts (sendEach s m sm to w).2 = posts w ++ (requestFor s m <$> take n to)
    ∧ ((sendEach s m sm to w).1 = None → n = length to).
Proof.
  revert sm w. induction to as [|r to IH]; intros sm w Hsm.
  - exists 0%nat. by rewrite app_nil_r.
  - rewrite sendEach_cons by done.
    destruct (rejection _) as [err|].
    + exists 1%nat. cbn. split; [lia|done].
    + destruct (IH (messageFor s m r)
                   (add_log (sentLine s m) (add_post (requestFor s m r) w)))
        as (n & Hn & -> & Hall); [done|].
      exists (S n). cbn. split_and!; [lia| |].
      * by rewrite <- app_assoc.
      * intros E. by rewrite Hall.
Qed.

Lemma sendEach_all_logged s m w :
  accepted w (posts w) (requestFor s m <$> To s) →
  ∃ w1, sendEach s m (SlackMessage.mk "" (From s) "" (IconEmoji s)) (To s) w = (None, w1)
    ∧ posts w1 = posts w ++ (requestFor s m <$> To s)
    ∧ logged w1 = logged w ++ replicate (length (To s)) (sentLine s m)
    ∧ files w1 = files w ∧ may_create w1 = may_create w.
Proof.
  intros Hacc.
  destruct (sendEach_accepted s m (To s) [] (SlackMessage.mk "" (From s) "" (IconEmoji s)) w)
    as (sm' & w' & _ & E & Hp & Hl & Hf & _ & Hc & _); [done..|].
  rewrite app_nil_r in E. exists w'. by rewrite E.
Qed.

Lemma ValidString_colon u : utf8.ValidString (":" +:+ u) = utf8.ValidString u.
Proof.
  change (":" +:+ u) with (String ":" u). apply ValidString_ascii.
  vm_compute. reflexivity.
Qed.

Lemma getHash_ValidString s m w :
  Frequency s = NotifyOnceHour ∨ Frequency s = NotifyOnceDay →
  utf8.ValidString (MessageTag s) = true →
  utf8.ValidString (getHash s m w) = utf8.ValidString m.
Proof.
  intros Hf Ht. unfold getHash.
  destruct (decide (Frequency s = NotifyOnceHour)).
  { by rewrite ValidString_formatHour, ValidString_colon, ValidString_app,
       ValidString_colon. }
  destruct (decide (Frequency s = NotifyOnceDay)); [|by destruct Hf].
  by rewrite ValidString_formatDay, ValidString_colon, ValidString_app,
     ValidString_colon.
Qed.

Lemma getHash_empty s m w :
  Frequency s ≠ NotifyOnceHour → Frequency s ≠ NotifyOnceDay → getHash s m w = "".
Proof. intros H1 H2. unfold getHash. by rewrite !decide_False. Qed.

(** The dedup decision never answers [true] for a key of the loaded
    record, and the world it leaves has the requests and the end point of
    the one it started in. *)
Lemma needToSend_true_existing s hash w i db :
  files w !! DatabaseFilePath s = Some i → readable i = true →
  json.Decode (data i) = Ok (Some db) →
  Frequency s = NotifyAlways ∨ db !! hash = None →
  needToSend s hash w = (true, w).
Proof.
  intros Hi Hr Hd Hor.
  destruct (decide (Frequency s = NotifyAlways)) as [Ha|Ha].
  { by apply needToSend_always. }
  destruct Hor as [?|Hnone]; [done|].
  assert (loadDb s w = (Ok (Some db), w)) as Hl.
  { by rewrite (loadDb_existing _ _ _ Hi Hr), Hd. }
  rewrite (needToSend_loaded _ _ _ _ _ Ha Hl). cbn [inRecord].
  rewrite bool_decide_false; [done|]. rewrite Hnone. by intros [??].
Qed.

(** After [setDefaults] no field is empty. *)
Lemma setDefaults_nonempty s s' :
  setDefaults s = Ok s' →
  Hook s' ≠ "" ∧ To s' ≠ [] ∧ IconEmoji s' ≠ "" ∧ From s' ≠ ""
  ∧ MessageTag s' ≠ "" ∧ DatabaseFilePath s' ≠ "" ∧ ∃ l, Log s' = Some l.
Proof.
  intros H. destruct (setDefaults_Ok _ _ H) as (Hh & Ht & _ & Hne & Hto & l & Hlog).
  unfold setDefaults in H. repeat case_decide; try done.
  injection H as <-. cbn in *. unfold orDefault.
  split_and!; try done; try (case_decide; [done|congruence]).
  by exists l.
Qed.

(** X4.  When [setDefaults] succeeds, the web hook, the recipients and the
    frequency are those of the caller, no string field is empty and there
    is a logger; a field the caller has set keeps its value, and one left
    empty takes the default of the package. *)
Theorem setDefaults_completes s s' :
  setDefaults s = Ok s' →
  (Hook s' = Hook s ∧ To s' = To s ∧ Frequency s' = Frequency s
   ∧ Hook s' ≠ "" ∧ To s' ≠ [])
  ∧ (IconEmoji s' ≠ "" ∧ From s' ≠ "" ∧ MessageTag s' ≠ ""
     ∧ DatabaseFilePath s' ≠ "" ∧ is_Some (Log s'))
  ∧ (IconEmoji s ≠ "" → IconEmoji s' = IconEmoji s)
  ∧ (From s ≠ "" → From s' = From s)
  ∧ (MessageTag s ≠ "" → MessageTag s' = MessageTag s)
  ∧ (DatabaseFilePath s ≠ "" → DatabaseFilePath s' = DatabaseFilePath s)
  ∧ (∀ l, Log s = Some l → Log s' = Some l)
  ∧ (IconEmoji s = "" → IconEmoji s' = ":ghost:")
  ∧ (From s = "" → From s' = "Slacker Notifier")
  ∧ (MessageTag s = "" → MessageTag s' = "default_tag")
  ∧ (DatabaseFilePath s = "" → DatabaseFilePath s' = "slacker.json")
  ∧ (Log s = None → Log s' = Some (log_New "Slacker Notifier " 3)).
Proof.
  intros H. destruct (setDefaults_Ok _ _ H) as (Hh & Ht & Hf & Hne & Hto & Hlog).
  unfold setDefaults in H. repeat case_decide; try done.
  injection H as <-. cbn. unfold orDefault.
  split_and!; try done; try congruence;
    try (case_decide; [done|congruence]);
    try (intros E; by rewrite E);
    try (intros ?; by rewrite decide_False).
  intros l E. by rewrite E.
Qed.

(** X4, at a concrete input: a configuration with a tag and nothing else
    optional. *)
Lemma setDefaults_completes_witness :
  IconEmoji (ready NotifyOnceHour "disk") = ":ghost:"
  ∧ MessageTag (ready NotifyOnceHour "disk") = "disk"
  ∧ DatabaseFilePath (ready NotifyOnceHour "disk") = "slacker.json".
Proof.
  destruct (setDefaults_completes (notifier NotifyOnceHour "disk")
              (ready NotifyOnceHour "disk") eq_refl)
    as (_ & _ & _ & _ & Htag & _ & _ & Hicon & _ & _ & Hpath & _).
  split; [exact (Hicon eq_refl)|]. split; [|exact (Hpath eq_refl)].
  rewrite Htag; [reflexivity|discriminate].
Defined.

(** X5.  [setDefaults] on its own result changes nothing, and [Send] with
    a configuration that has the defaults written out behaves as [Send] with
    the configuration that leaves them out. *)
Theorem setDefaults_idempotent s s' m w :
  setDefaults s = Ok s' →
  setDefaults s' = Ok s' ∧ Send s' m w = Send s m w.
Proof.
  intros H.
  assert (setDefaults s' = Ok s') as Hid.
  { destruct (setDefaults_nonempty s s' H) as (Hh & Ht & Hi & Hf & Hm & Hd & l & Hl).
    unfold setDefaults. rewrite decide_False by done.
    rewrite decide_False by (by destruct (To s')).
    unfold orDefault. rewrite !decide_False by done. rewrite Hl.
    rewrite <- Hl. by destruct s'. }
  split; [done|]. by rewrite (Send_unfold _ _ _ _ H), (Send_unfold _ _ _ _ Hid).
Qed.

(** X5, at a concrete input. *)
Lemma setDefaults_idempotent_witness :
  setDefaults (ready NotifyOnceHour "disk") = Ok (ready NotifyOnceHour "disk")
  ∧ Send (ready NotifyOnceHour "disk") "disk full" (fresh accepting)
    = Send (notifier NotifyOnceHour "disk") "disk full" (fresh accepting).
Proof.
  apply (setDefaults_idempotent (notifier NotifyOnceHour "disk")). reflexivity.
Defined.

(** X6.  [send] makes exactly one request, a POST to the web hook with the
    content type [string], whatever comes back; its body is a JSON object
    that holds the four fields of the message under [channel], [username],
    [text] and [icon_emoji], coerced to valid UTF-8.  It touches no file and
    logs nothing.  It succeeds exactly when the reply is the body [ok], and
    then returns [ok]. *)
Theorem send_one_request s sm w :
  posts (send s sm w).2 = posts w ++ [POST (Hook s) "string" (SlackMessage.Marshal sm)]
  ∧ json.Decode (SlackMessage.Marshal sm) = Ok (Some (fields sm))
  ∧ files (send s sm w).2 = files w
  ∧ logged (send s sm w).2 = logged w
  ∧ (∀ response, (send s sm w).1 = Ok response ↔
       response = "ok"
       ∧ endpoint w (posts w) (POST (Hook s) "string" (SlackMessage.Marshal sm))
         = Body "ok").
Proof.
  rewrite send_reply. split_and!; try done; [apply Decode_Marshal|].
  intros response. cbn [fst]. unfold rejection.
  destruct (endpoint w _ _) as [e|e|b]; try (split; [done|by intros [_ ?]]).
  destruct (decide (b ≠ "ok")) as [Hb|Hb].
  - split; [done|]. intros [_ [= ->]]. done.
  - apply dec_stable in Hb as ->. split; [by intros [= <-]|by intros [-> _]].
Qed.

(** X7.  The requests of one [Send] are those of a prefix of the
    recipients, in the configured order, one request each, after the
    requests made before the call.  When [Send] returns nil the prefix is
    empty (the message was skipped) or the whole list: a nil result never
    stands for a delivery to some recipients only. *)
Theorem Send_posts_in_order s s' m w :
  setDefaults s = Ok s' →
  ∃ n, (n <= length (To s'))%nat
    ∧ posts (Send s m w).2 = posts w ++ (requestFor s' m <$> take n (To s'))
    ∧ ((Send s m w).1 = Returns None → n = 0%nat ∨ n = length (To s')).
Proof.
  intros Hs. rewrite (Send_unfold _ _ _ _ Hs).
  pose proof (needToSend_frame s' (getHash s' m w) w) as [Hp _].
  destruct (needToSend s' (getHash s' m w) w) as [[|] w1]; cbn [snd] in Hp.
  - unfold deliver.
    destruct (sendEach_sent s' m (To s')
                (SlackMessage.mk "" (From s') "" (IconEmoji s')) w1)
      as (n & Hn & Hposts & Hall); [done|].
    exists n. split; [done|].
    destruct (sendEach s' m _ (To s') w1) as [[err|] w2]; cbn [fst snd] in *.
    + split; [by rewrite Hposts, Hp|done].
    + pose proof (addToDb_frame s' (getHash s' m w) m w2) as [Hpa _].
      destruct (addToDb s' (getHash s' m w) m w2) as [[[err|]|] w3];
        cbn [fst snd] in *; (split; [cbn; congruence|auto]).
  - exists 0%nat. cbn. rewrite app_nil_r. split_and!; [lia|done|auto].
Qed.

(** X7, at a concrete input: the web hook rejects the second request. *)
Lemma Send_posts_in_order_witness :
  ∃ n, (n <= 2)%nat
    ∧ posts (Send (notifier NotifyOnceHour "disk") "disk full"
                  (stored "{}" accepting_once)).2
      = requestFor (ready NotifyOnceHour "disk") "disk full" <$> take n [ops; oncall].
Proof.
  destruct (Send_posts_in_order (notifier NotifyOnceHour "disk")
              (ready NotifyOnceHour "disk") "disk full"
              (stored "{}" accepting_once) eq_refl) as (n & Hn & Hp & _).
  exists n. split; [exact Hn|exact Hp].
Defined.

(** X8.  When the database file is there, may be read and written and
    decodes to [db], the frequency is [NotifyAlways] or the fingerprint is
    not a key of [db], and every recipient is accepted, [Send] returns nil,
    has sent one request per recipient in order, has logged one line per
    recipient and nothing else, and has written [db] with the message under
    the fingerprint over the file. *)
Theorem Send_delivers_and_records s s' m w i db :
  setDefaults s = Ok s' →
  files w !! DatabaseFilePath s' = Some i →
  readable i = true → writable i = true →
  json.Decode (data i) = Ok (Some db) →
  Frequency s' = NotifyAlways ∨ db !! getHash s' m w = None →
  accepted w (posts w) (requestFor s' m <$> To s') →
  (Send s m w).1 = Returns None
  ∧ posts (Send s m w).2 = posts w ++ (requestFor s' m <$> To s')
  ∧ files (Send s m w).2
    = <[DatabaseFilePath s' := saved (<[getHash s' m w := m]> db) i]> (files w)
  ∧ logged (Send s m w).2 = logged w ++ replicate (length (To s')) (sentLine s' m).
Proof.
  intros Hs Hi Hr Hw Hd Hor Hacc.
  rewrite (Send_unfold _ _ _ _ Hs).
  rewrite (needToSend_true_existing _ _ _ _ _ Hi Hr Hd Hor).
  destruct (sendEach_all_logged s' m w Hacc) as (w1 & Hsend & Hp & Hl & Hf & _).
  rewrite (deliver_reported _ _ _ _ _ Hsend).
  rewrite <- Hf in Hi. rewrite (addToDb_existing _ _ _ _ _ _ Hi Hr Hw Hd).
  cbn. by rewrite Hf.
Qed.

(** X8, at a concrete input: an empty record, two recipients. *)
Lemma Send_delivers_and_records_witness :
  (Send (notifier NotifyOnceHour "disk") "disk full" (stored "{}" accepting)).1
  = Returns None
  ∧ posts (Send (notifier NotifyOnceHour "disk") "disk full" (stored "{}" accepting)).2
    = requestFor (ready NotifyOnceHour "disk") "disk full" <$> [ops; oncall]
  ∧ files (Send (notifier NotifyOnceHour "disk") "disk full" (stored "{}" accepting)).2
    = {[ "slacker.json" := saved {[ fingerprint := "disk full" ]} (file "{}") ]}.
Proof.
  destruct (Send_delivers_and_records (notifier NotifyOnceHour "disk")
              (ready NotifyOnceHour "disk") "disk full" (stored "{}" accepting)
              (file "{}") ∅ eq_refl eq_refl eq_refl eq_refl eq_refl
              (or_intror eq_refl)) as (Hret & Hposts & Hfiles & _).
  { repeat split. }
  split; [exact Hret|]. split; [exact Hposts|].
  rewrite Hfiles. apply insert_insert_eq.
Defined.

(** X9.  Every key and every value of a record that [loadDb] returns is
    valid UTF-8, whatever bytes the file holds: the encoder would write each
    of them as it is. *)
Theorem loadDb_record_valid s w db w' :
  loadDb s w = (Ok (Some db), w') →
  ValidRecord db
  ∧ ∀ k v, db !! k = Some v → json.coerce k = k ∧ json.coerce v = v.
Proof.
  intros H. pose proof (loadDb_valid _ _ _ _ H) as Hv. split; [done|].
  intros k v Hk. destruct (Hv k v Hk). by rewrite !coerce_valid.
Qed.

(** X9, at a concrete input: the file holds an escape for a byte that was
    not valid UTF-8. *)
Lemma loadDb_record_valid_witness :
  (loadDb (ready NotifyOnceHour "disk")
          (stored (json.Encode (Some {[ fingerprint := latin1 ]})) accepting)).1
  = Ok (Some {[ fingerprint := "caf" +:+ utf8.EncodeRune utf8.RuneError ]})
  ∧ ValidRecord {[ fingerprint := "caf" +:+ utf8.EncodeRune utf8.RuneError ]}.
Proof.
  split; [vm_compute; reflexivity|].
  apply (loadDb_record_valid (ready NotifyOnceHour "disk")
           (stored (json.Encode (Some {[ fingerprint := latin1 ]})) accepting)
           _ (stored (json.Encode (Some {[ fingerprint := latin1 ]})) accepting)).
  vm_compute. reflexivity.
Defined.

(** X10.  A record that [loadDb] has returned, saved to the same file
    (which may be written), is loaded again as the same record, whatever the
    file held before. *)
Theorem loadDb_saveDb_loadDb s w db w1 :
  loadDb s w = (Ok (Some db), w1) →
  (∀ i, files w !! DatabaseFilePath s = Some i → writable i = true) →
  ∃ w2, saveDb s (Some db) w1 = (None, w2)
    ∧ loadDb s w2 = (Ok (Some db), w2).
Proof.
  intros Hl Hw. pose proof (loadDb_valid _ _ _ _ Hl) as Hv.
  destruct (loadDb_Ok_inv _ _ _ _ Hl) as (-> & i & Hi & Hr & Hd).
  eexists. split; [by apply (saveDb_existing _ _ _ i), Hw|].
  erewrite loadDb_saved; [|apply lookup_insert_eq|done].
  by rewrite recode_valid.
Qed.

(** X10, at a concrete input. *)
Lemma loadDb_saveDb_loadDb_witness :
  loadDb (ready NotifyOnceHour "disk")
         (stored (json.Encode (Some {[ fingerprint := latin1 ]})) accepting)
  = (Ok (Some {[ fingerprint := "caf" +:+ utf8.EncodeRune utf8.RuneError ]}),
     stored (json.Encode (Some {[ fingerprint := latin1 ]})) accepting)
  ∧ ∃ w2,
      saveDb (ready NotifyOnceHour "disk")
             (Some {[ fingerprint := "caf" +:+ utf8.EncodeRune utf8.RuneError ]})
             (stored (json.Encode (Some {[ fingerprint := latin1 ]})) accepting)
      = (None, w2)
      ∧ loadDb (ready NotifyOnceHour "disk") w2
        = (Ok (Some {[ fingerprint := "caf" +:+ utf8.EncodeRune utf8.RuneError ]}), w2).
Proof.
  assert (loadDb (ready NotifyOnceHour "disk")
            (stored (json.Encode (Some {[ fingerprint := latin1 ]})) accepting)
          = (Ok (Some {[ fingerprint := "caf" +:+ utf8.EncodeRune utf8.RuneError ]}),
             stored (json.Encode (Some {[ fingerprint := latin1 ]})) accepting)) as Hl
    by (vm_compute; reflexivity).
  split; [exact Hl|].
  apply (loadDb_saveDb_loadDb _ _ _ _ Hl).
  intros i [= <-]. reflexivity.
Defined.

(** X11.  Under [NotifyOnceHour] and [NotifyOnceDay], with a tag that is
    valid UTF-8, a message that is not valid UTF-8 is never suppressed: its
    fingerprint is not a key of any record that [loadDb] returns, so the
    dedup decision is to send and the first recipient gets a request at
    every call. *)
Theorem Send_never_suppresses_invalid_utf8 s s' m w :
  setDefaults s = Ok s' →
  Frequency s' = NotifyOnceHour ∨ Frequency s' = NotifyOnceDay →
  utf8.ValidString (MessageTag s') = true →
  utf8.ValidString m = false →
  (∀ db w1, loadDb s' w = (Ok db, w1) → inRecord db (getHash s' m w) = false)
  ∧ (needToSend s' (getHash s' m w) w).1 = true
  ∧ ∃ r more, head (To s') = Some r
      ∧ posts (Send s m w).2 = posts w ++ requestFor s' m r :: more.
Proof.
  intros Hs Hf Ht Hm.
  assert (utf8.ValidString (getHash s' m w) = false) as Hh.
  { by rewrite getHash_ValidString. }
  assert (Hin : ∀ db w1, loadDb s' w = (Ok db, w1) →
                         inRecord db (getHash s' m w) = false).
  { intros [db|] w1 Hl; [|done]. cbn [inRecord].
    apply bool_decide_eq_false. intros [v Hk].
    destruct (loadDb_valid _ _ _ _ Hl _ _ Hk) as [Hvalid _]. congruence. }
  assert (Frequency s' ≠ NotifyAlways) as Hna.
  { destruct Hf as [-> | ->]; discriminate. }
  assert ((needToSend s' (getHash s' m w) w).1 = true) as Hn.
  { destruct (loadDb s' w) as [[db|err] w1] eqn:Hl.
    - by rewrite (needToSend_loaded _ _ _ _ _ Hna Hl), (Hin _ _ eq_refl).
    - by rewrite (needToSend_failed _ _ _ _ _ Hna Hl). }
  split; [done|]. split; [done|].
  rewrite (Send_unfold _ _ _ _ Hs).
  pose proof (needToSend_frame s' (getHash s' m w) w) as [Hp _].
  destruct (needToSend s' (getHash s' m w) w) as [b w1]. cbn in Hn, Hp. subst b.
  destruct (setDefaults_Ok _ _ Hs) as (_ & HTo & _ & _ & Hne & _).
  assert (To s' ≠ []) as Hne' by congruence.
  destruct (deliver_posts s' (getHash s' m w) m w1) as (n & -> & Hn1).
  destruct (To s') as [|r to]; [done|].
  destruct n as [|n]; [specialize (Hn1 ltac:(done)); lia|].
  exists r, (requestFor s' m <$> take n to). split; [done|]. by rewrite Hp.
Qed.

(** X11, at a concrete input: the same Latin-1 message sent twice in one
    hour is delivered twice. *)
Lemma Send_never_suppresses_invalid_utf8_witness :
  utf8.ValidString latin1 = false
  ∧ posts (Send (notifier NotifyOnceHour "disk") latin1 (stored "{}" accepting)).2
    = requestFor (ready NotifyOnceHour "disk") latin1 <$> [ops; oncall]
  ∧ ∃ r more,
      head (To (ready NotifyOnceHour "disk")) = Some r
      ∧ posts (Send (notifier NotifyOnceHour "disk") latin1
                 (Send (notifier NotifyOnceHour "disk") latin1
                       (stored "{}" accepting)).2).2
        = posts (Send (notifier NotifyOnceHour "disk") latin1
                      (stored "{}" accepting)).2
          ++ requestFor (ready NotifyOnceHour "disk") latin1 r :: more.
Proof.
  split; [vm_compute; reflexivity|]. split; [vm_compute; reflexivity|].
  apply (Send_never_suppresses_invalid_utf8 (notifier NotifyOnceHour "disk")
           (ready NotifyOnceHour "disk") latin1
           (Send (notifier NotifyOnceHour "disk") latin1 (stored "{}" accepting)).2).
  - reflexivity.
  - left. reflexivity.
  - vm_compute. reflexivity.
  - vm_compute. reflexivity.
Defined.

(** X12.  When the database file may be read but not written, a message
    that the dedup decision allows is delivered to every recipient that
    accepts, and [Send] then returns the error of [addToDb], which wraps the
    failure of [saveDb] to open the file; the files are as before, so the
    fingerprint is not recorded. *)
Theorem Send_read_only_database s s' m w i db :
  setDefaults s = Ok s' →
  files w !! DatabaseFilePath s' = Some i →
  readable i = true → writable i = false →
  json.Decode (data i) = Ok (Some db) →
  Frequency s' = NotifyAlways ∨ db !! getHash s' m w = None →
  accepted w (posts w) (requestFor s' m <$> To s') →
  (Send s m w).1
  = Returns (Some (fmt_Errorf "Slacker failed to add %s to database: %s"
      [arg_string (getHash s' m w);
       arg_error (fmt_Errorf
         "Slacker failed to save database: Failed to open database file: %s"
         [arg_error (PathError "open" (DatabaseFilePath s') EACCES)])]))
  ∧ posts (Send s m w).2 = posts w ++ (requestFor s' m <$> To s')
  ∧ files (Send s m w).2 = files w.
Proof.
  intros Hs Hi Hr Hw Hd Hor Hacc.
  rewrite (Send_unfold _ _ _ _ Hs).
  rewrite (needToSend_true_existing _ _ _ _ _ Hi Hr Hd Hor).
  destruct (sendEach_all_logged s' m w Hacc) as (w1 & Hsend & Hp & Hl & Hf & _).
  rewrite (deliver_reported _ _ _ _ _ Hsend).
  rewrite <- Hf in Hi. unfold addToDb.
  rewrite (loadDb_existing _ _ _ Hi Hr), Hd.
  unfold saveDb, os.OpenFile_WRONLY. rewrite Hi, Hw. done.
Qed.

(** X12, at a concrete input. *)
Lemma Send_read_only_database_witness :
  posts (Send (notifier NotifyOnceHour "disk") "disk full"
              (world {[ "slacker.json" := Inode "{}" true false ]} accepting)).2
  = requestFor (ready NotifyOnceHour "disk") "disk full" <$> [ops; oncall]
  ∧ files (Send (notifier NotifyOnceHour "disk") "disk full"
                (world {[ "slacker.json" := Inode "{}" true false ]} accepting)).2
    = {[ "slacker.json" := Inode "{}" true false ]}.
Proof.
  destruct (Send_read_only_database (notifier NotifyOnceHour "disk")
              (ready NotifyOnceHour "disk") "disk full"
              (world {[ "slacker.json" := Inode "{}" true false ]} accepting)
              (Inode "{}" true false) ∅) as (_ & Hposts & Hfiles);
    [reflexivity..|right; reflexivity|repeat split|].
  split; [exact Hposts|exact Hfiles].
Defined.

(** X13.  [loadDb] leaves the files as they are, or, when there was no
    database file, adds one that holds an empty JSON object; a file that
    exists keeps its bytes.  It sends no request and logs nothing, and when
    it returns a record the world is the one it started in. *)
Theorem loadDb_only_creates s w :
  (files (loadDb s w).2 = files w
   ∨ (files w !! DatabaseFilePath s = None
      ∧ files (loadDb s w).2
        = <[DatabaseFilePath s := Inode "{}" true true]> (files w)))
  ∧ (∀ p i, files w !! p = Some i → files (loadDb s w).2 !! p = Some i)
  ∧ posts (loadDb s w).2 = posts w
  ∧ logged (loadDb s w).2 = logged w
  ∧ (∀ db, (loadDb s w).1 = Ok db → (loadDb s w).2 = w).
Proof.
  pose proof (loadDb_files s w) as Hf.
  pose proof (loadDb_frame s w) as (_ & _ & _ & Hp & Hl).
  split_and!; try done.
  - intros p i Hpi. destruct Hf as [->|[Hnone ->]]; [done|].
    rewrite lookup_insert_ne; [done|]. intros <-. congruence.
  - intros db Hdb. destruct (loadDb s w) as [r w'] eqn:E. cbn in *. subst r.
    by destruct (loadDb_Ok_inv _ _ _ _ E) as [-> _].
Qed.

(** X14.  When [addToDb] returns nil for a fingerprint and a message that
    are valid UTF-8, the next [loadDb] returns the record loaded before with
    the message under the fingerprint, and [inDb] answers [true] for the
    fingerprint and for every key the record had: an entry is never
    dropped. *)
Theorem addToDb_then_loadDb s hash m w db w0 w1 :
  loadDb s w = (Ok (Some db), w0) →
  utf8.ValidString hash = true → utf8.ValidString m = true →
  addToDb s hash m w = (Returns None, w1) →
  loadDb s w1 = (Ok (Some (<[hash := m]> db)), w1)
  ∧ inDb s hash w1 = (true, w1)
  ∧ (∀ k, is_Some (db !! k) → inDb s k w1 = (true, w1)).
Proof.
  intros Hl Hh Hm Ha. pose proof (loadDb_valid _ _ _ _ Hl) as Hv.
  destruct (loadDb_Ok_inv _ _ _ _ Hl) as (-> & i & Hi & Hr & Hd).
  destruct (addToDb_done_inv _ _ _ _ _ Ha) as (i' & db' & Hi' & _ & Hw & Hd' & ->).
  assert (i' = i) as -> by congruence.
  assert (db' = db) as -> by congruence.
  assert (loadDb s (set_files (<[DatabaseFilePath s := saved (<[hash := m]> db) i]>
                                 (files w)) w)
          = (Ok (Some (<[hash := m]> db)),
             set_files (<[DatabaseFilePath s := saved (<[hash := m]> db) i]>
                          (files w)) w)) as Hl'.
  { erewrite loadDb_saved; [|apply lookup_insert_eq|done].
    rewrite recode_valid; [done|]. by apply ValidRecord_insert. }
  split; [done|].
  assert (∀ k, is_Some (<[hash := m]> db !! k) →
               inDb s k (set_files (<[DatabaseFilePath s := saved (<[hash := m]> db) i]>
                                      (files w)) w)
               = (true, set_files (<[DatabaseFilePath s := saved (<[hash := m]> db) i]>
                                     (files w)) w)) as Hin.
  { intros k Hk. rewrite (inDb_loaded _ _ _ _ _ Hl'). cbn [inRecord].
    by rewrite bool_decide_true. }
  split.
  - apply Hin. rewrite lookup_insert_eq. by eexists.
  - intros k Hk. apply Hin. rewrite lookup_insert_is_Some. 
    destruct (decide (hash = k)); auto.
Qed.

(** X14, at a concrete input: the fingerprint of the next hour is added,
    the one of this hour stays. *)
Lemma addToDb_then_loadDb_witness :
  ∃ w1,
    addToDb (ready NotifyOnceHour "disk") "2024-01-02-16:disk:disk full" "disk full"
            (stored (json.Encode (Some sent)) accepting)
    = (Returns None, w1)
    ∧ loadDb (ready NotifyOnceHour "disk") w1
      = (Ok (Some (<["2024-01-02-16:disk:disk full" := "disk full"]> sent)), w1)
    ∧ inDb (ready NotifyOnceHour "disk") fingerprint w1 = (true, w1).
Proof.
  eexists. split; [vm_compute; reflexivity|].
  destruct (addToDb_then_loadDb (ready NotifyOnceHour "disk")
              "2024-01-02-16:disk:disk full" "disk full"
              (stored (json.Encode (Some sent)) accepting) sent
              (stored (json.Encode (Some sent)) accepting)
              (addToDb (ready NotifyOnceHour "disk") "2024-01-02-16:disk:disk full"
                 "disk full" (stored (json.Encode (Some sent)) accepting)).2)
    as (Hl & _ & Hold).
  - vm_compute. reflexivity.
  - vm_compute. reflexivity.
  - vm_compute. reflexivity.
  - vm_compute. reflexivity.
  - split; [exact Hl|]. apply Hold. vm_compute. eexists. reflexivity.
Defined.

(** X15.  With a tag that is valid UTF-8, the fingerprint of a message
    that is valid UTF-8 is valid UTF-8, under every frequency and at every
    time; under [NotifyOnceHour] and [NotifyOnceDay] the fingerprint is
    valid exactly when the message is. *)
Theorem getHash_valid_utf8 s m w :
  utf8.ValidString (MessageTag s) = true →
  (utf8.ValidString m = true → utf8.ValidString (getHash s m w) = true)
  ∧ (Frequency s = NotifyOnceHour ∨ Frequency s = NotifyOnceDay →
     utf8.ValidString (getHash s m w) = utf8.ValidString m).
Proof.
  intros Ht. split.
  - intros Hm.
    destruct (decide (Frequency s = NotifyOnceHour ∨ Frequency s = NotifyOnceDay))
      as [Hf|Hf].
    + by rewrite getHash_ValidString.
    + rewrite getHash_empty; [done|..]; intros E; apply Hf; auto.
  - intros Hf. by apply getHash_ValidString.
Qed.

(** X15, at a concrete input. *)
Lemma getHash_valid_utf8_witness :
  utf8.ValidString (getHash (ready NotifyOnceHour "disk") "disk full" (fresh accepting))
  = true
  ∧ utf8.ValidString (getHash (ready NotifyOnceDay "disk") latin1 (fresh accepting))
    = false.
Proof.
  split.
  - destruct (getHash_valid_utf8 (ready NotifyOnceHour "disk") "disk full"
                (fresh accepting)) as [H _]; [vm_compute; reflexivity|].
    apply H. vm_compute. reflexivity.
  - destruct (getHash_valid_utf8 (ready NotifyOnceDay "disk") latin1 (fresh accepting))
      as [_ H]; [vm_compute; reflexivity|].
    rewrite H by (right; reflexivity). vm_compute. reflexivity.
Defined.

(** X16.  For two readings of the clock in the range of the calendar (a
    year of at most four digits), the fingerprints of one message with one
    configuration are equal under [NotifyOnceHour] exactly when year, month,
    day and hour are the same, and under [NotifyOnceDay] exactly when year,
    month and day are. *)
Theorem getHash_bucket_change s m w1 w2 :
  calendar (now w1) → calendar (now w2) →
  (Frequency s = NotifyOnceHour →
   getHash s m w1 = getHash s m w2 ↔ now w1 = now w2)
  ∧ (Frequency s = NotifyOnceDay →
     getHash s m w1 = getHash s m w2
     ↔ time.Year (now w1) = time.Year (now w2)
       ∧ time.Month (now w1) = time.Month (now w2)
       ∧ time.Day (now w1) = time.Day (now w2)).
Proof.
  intros C1 C2. split; intros Hf.
  - rewrite !getHash_bucket by auto. unfold bucket. rewrite !decide_True by done.
    split.
    + intros E. apply String_app_inv_tail in E. by apply formatHour_inj.
    + intros E. by rewrite E.
  - rewrite !getHash_bucket by auto. unfold bucket.
    rewrite !decide_False by (rewrite Hf; discriminate).
    split.
    + intros E. apply String_app_inv_tail in E. by apply formatDay_inj.
    + intros (Hy & Hm & Hd). unfold time.formatDay. by rewrite Hy, Hm, Hd.
Qed.

(** X16, at a concrete input: 15 h and 16 h of one day. *)
Lemma getHash_bucket_change_witness :
  getHash (ready NotifyOnceHour "disk") "disk full" (fresh accepting)
  ≠ getHash (ready NotifyOnceHour "disk") "disk full"
      (mkWorld ∅ (λ _, true) (time.Date 2024 1 2 16) accepting [] [])
  ∧ getHash (ready NotifyOnceDay "disk") "disk full" (fresh accepting)
    = getHash (ready NotifyOnceDay "disk") "disk full"
        (mkWorld ∅ (λ _, true) (time.Date 2024 1 2 16) accepting [] []).
Proof.
  assert (calendar clock) as C1 by (repeat split; cbn; lia).
  assert (calendar (time.Date 2024 1 2 16)) as C2 by (repeat split; cbn; lia).
  destruct (getHash_bucket_change (ready NotifyOnceHour "disk") "disk full"
              (fresh accepting)
              (mkWorld ∅ (λ _, true) (time.Date 2024 1 2 16) accepting [] []) C1 C2)
    as [Hhour _].
  destruct (getHash_bucket_change (ready NotifyOnceDay "disk") "disk full"
              (fresh accepting)
              (mkWorld ∅ (λ _, true) (time.Date 2024 1 2 16) accepting [] []) C1 C2)
    as [_ Hday].
  split.
  - intros E. apply (Hhour eq_refl) in E. discriminate.
  - apply (Hday eq_refl). repeat split.
Defined.

(** X17.  In the range of the calendar a fingerprint made under
    [NotifyOnceHour] is never one made under [NotifyOnceDay], whatever the
    tags and the messages: after the ten bytes of the date the one has a
    hyphen and the other a colon. *)
Theorem getHash_hour_day_disjoint s1 s2 m1 m2 w1 w2 :
  calendar (now w1) → calendar (now w2) →
  Frequency s1 = NotifyOnceHour → Frequency s2 = NotifyOnceDay →
  getHash s1 m1 w1 ≠ getHash s2 m2 w2.
Proof.
  intros C1 C2 H1 H2. rewrite !getHash_bucket by auto. unfold bucket.
  rewrite decide_True by done. rewrite decide_False by (rewrite H2; discriminate).
  unfold time.formatHour. rewrite !formatDay_digits by done.
  rewrite !String_app_cons. by intros [=].
Qed.

(** X17, at a concrete input. *)
Lemma getHash_hour_day_disjoint_witness :
  getHash (ready NotifyOnceHour "disk") "disk full" (fresh accepting)
  ≠ getHash (ready NotifyOnceDay "disk") "disk full" (fresh accepting)
  ∧ calendar clock.
Proof.
  assert (calendar clock) as C by (repeat split; cbn; lia).
  split; [|exact C].
  apply getHash_hour_day_disjoint; [exact C|exact C|reflexivity|reflexivity].
Defined.



(** X19.  Under a frequency other than [NotifyAlways], when there is no
    database file and one may be created, [Send] returns nil when every
    recipient is accepted: the load of the dedup check creates the file (and
    fails), the message is delivered to every recipient, and [addToDb] finds
    the new file and records the fingerprint in it. *)
Theorem Send_bootstraps_database s s' m w :
  setDefaults s = Ok s' →
  Frequency s' ≠ NotifyAlways →
  files w !! DatabaseFilePath s' = None →
  may_create w (DatabaseFilePath s') = true →
  accepted w (posts w) (requestFor s' m <$> To s') →
  (Send s m w).1 = Returns None
  ∧ posts (Send s m w).2 = posts w ++ (requestFor s' m <$> To s')
  ∧ files (Send s m w).2
    = <[DatabaseFilePath s' := saved {[ getHash s' m w := m ]} (Inode "{}" true true)]>
        (files w).
Proof.
  intros Hs Hna Hnone Hcreate Hacc.
  rewrite (Send_unfold _ _ _ _ Hs).
  rewrite (needToSend_failed _ _ _ _ _ Hna (loadDb_missing _ _ Hnone Hcreate)).
  set (w1 := Log_Printf s' _ _ _).
  destruct (sendEach_all_logged s' m w1) as (w2 & Hsend & Hp & _ & Hf & _).
  { by apply (accepted_ext w). }
  rewrite (deliver_reported _ _ _ _ _ Hsend).
  rewrite (addToDb_existing _ _ _ _ (Inode "{}" true true) ∅); try done.
  - cbn. rewrite Hf. cbn. by rewrite insert_insert_eq, insert_empty.
  - rewrite Hf. cbn. apply lookup_insert_eq.
Qed.

(** X19, at a concrete input. *)
Lemma Send_bootstraps_database_witness :
  (Send (notifier NotifyOnceHour "disk") "disk full" (fresh accepting)).1
  = Returns None
  ∧ posts (Send (notifier NotifyOnceHour "disk") "disk full" (fresh accepting)).2
    = requestFor (ready NotifyOnceHour "disk") "disk full" <$> [ops; oncall]
  ∧ files (Send (notifier NotifyOnceHour "disk") "disk full" (fresh accepting)).2
    = {[ "slacker.json" := saved sent (Inode "{}" true true) ]}.
Proof.
  destruct (Send_bootstraps_database (notifier NotifyOnceHour "disk")
              (ready NotifyOnceHour "disk") "disk full" (fresh accepting))
    as (Hret & Hposts & Hfiles);
    [reflexivity|discriminate|reflexivity|reflexivity|repeat split|].
  split; [exact Hret|]. split; [exact Hposts|].
  rewrite Hfiles. apply insert_empty.
Defined.

(** When the loop fails, it is on the request of one recipient, those
    before it having been accepted, and the failure is the last line
    logged. *)
Lemma sendEach_failed s m to sm w err :
  fitted s sm →
  (sendEach s m sm to w).1 = Some err →
  (∃ pre r post, to = pre ++ r :: post
     ∧ accepted w (posts w) (requestFor s m <$> pre)
     ∧ rejection (endpoint w (posts w ++ (requestFor s m <$> pre)) (requestFor s m r))
       = Some err)
  ∧ ∃ l, logged (sendEach s m sm to w).2
         = l ++ [Printf (Log s) "Slacker failed to send message: %s" [arg_error err]].
Proof.
  revert sm w. induction to as [|r to IH]; intros sm w Hsm; [done|].
  rewrite sendEach_cons by done.
  destruct (rejection (endpoint w (posts w) (requestFor s m r))) as [e|] eqn:Hr.
  - intros [= ->]. split.
    + exists [], r, to. by rewrite app_nil_r.
    + by eexists.
  - intros H.
    destruct (IH (messageFor s m r)
                 (add_log (sentLine s m) (add_post (requestFor s m r) w))
                 ltac:(done) H) as [(pre & r' & post & -> & Hacc & Hrej) Hlog].
    split; [|done].
    exists (r :: pre), r', post. split; [done|]. split.
    + cbn [fmap list_fmap accepted]. split; [|by apply (accepted_ext w) in Hacc].
      unfold rejection in Hr. destruct (endpoint w (posts w) (requestFor s m r)) as [?|?|b];
        try done.
      destruct (decide (b ≠ "ok")) as [|Hb]; [done|]. by apply dec_stable in Hb as ->.
    + cbn in Hrej. by rewrite <- app_assoc in Hrej.
Qed.

(** X20.  An error that [Send] returns is the configuration error of
    [setDefaults], wrapped, and then the world is untouched; or the error of
    the request that the web hook rejected, the recipients before it having
    been accepted; or the error of [addToDb], which names the fingerprint
    and wraps the failure of the load or of the save.  In the last two cases
    the error is the last line that [Send] has logged. *)
Theorem Send_error_classes s m w err :
  (Send s m w).1 = Returns (Some err) →
  (∃ cause, setDefaults s = Err cause
     ∧ err = fmt_Errorf "Slacker failed to send message: %s" [arg_error cause]
     ∧ (Send s m w).2 = w)
  ∨ ∃ s', setDefaults s = Ok s'
      ∧ ((∃ pre r post, To s' = pre ++ r :: post
            ∧ accepted w (posts w) (requestFor s' m <$> pre)
            ∧ rejection (endpoint w (posts w ++ (requestFor s' m <$> pre))
                                  (requestFor s' m r)) = Some err)
         ∨ (∃ cause,
              err = fmt_Errorf "Slacker failed to add %s:%s to database: %s"
                      [arg_string (getHash s' m w); arg_string m; arg_error cause])
         ∨ (∃ cause,
              err = fmt_Errorf "Slacker failed to add %s to database: %s"
                      [arg_string (getHash s' m w); arg_error cause]))
      ∧ ∃ l, logged (Send s m w).2
             = l ++ [Printf (Log s') "Slacker failed to send message: %s"
                            [arg_error err]].
Proof.
  unfold Send. destruct (setDefaults s) as [s'|cause] eqn:Hs.
  2:{ intros [= <-]. left. by exists cause. }
  intros H. right. exists s'. split; [done|].
  pose proof (needToSend_frame s' (getHash s' m w) w) as [Hp He].
  destruct (needToSend s' (getHash s' m w) w) as [[|] w1]; [|done].
  cbn [snd] in Hp, He.
  pose proof (sendEach_failed s' m (To s')
                (SlackMessage.mk "" (From s') "" (IconEmoji s')) w1) as Hfail.
  destruct (sendEach s' m _ (To s') w1) as [[e|] w2].
  - injection H as ->. destruct (Hfail err ltac:(done) eq_refl) as [Hrej Hlog].
    split; [|done]. left.
    destruct Hrej as (pre & r & post & HTo & Hacc & Hrej).
    exists pre, r, post. rewrite Hp, He in Hrej. rewrite Hp in Hacc.
    split; [done|]. split; [by apply (accepted_ext w) in Hacc|done].
  - unfold addToDb in *.
    destruct (loadDb s' w2) as [[[db|]|cause] w3]; [| done |].
    + destruct (saveDb s' _ w3) as [[cause|] w4]; [|done].
      injection H as <-. split; [|by eexists]. right. right. by eexists.
    + injection H as <-. split; [|by eexists]. right. left. by eexists.
Qed.

(** X20, at a concrete input: the rejection of the second request is
    logged. *)
Lemma Send_error_classes_witness :
  ∃ l, logged (Send (notifier NotifyOnceHour "disk") "disk full"
                    (stored "{}" accepting_once)).2
       = l ++ [Printf (Log (ready NotifyOnceHour "disk"))
                 "Slacker failed to send message: %s"
                 [arg_error (fmt_Errorf "Response from Slack: %s"
                               [arg_string "invalid_token"])]].
Proof.
  destruct (Send_error_classes (notifier NotifyOnceHour "disk") "disk full"
              (stored "{}" accepting_once)
              (fmt_Errorf "Response from Slack: %s" [arg_string "invalid_token"]))
    as [(cause & Hs & _)|(s' & Hs & _ & Hlog)].
  - vm_compute. reflexivity.
  - discriminate Hs.
  - injection Hs as <-. exact Hlog.
Defined.
